(** * brain-mcp: the associative memory graph, the thought tracker and the
      storage manager, embedded from the TypeScript sources.

    - [LongTermMemory]  : class LongTermMemory (long-term-memory.ts; in
                          this tree the third unit of
                          src/src/thinking-process.ts)
    - [ThinkingProcess] : class ThinkingProcess (src/src/thinking-process.ts)
    - [StorageManager]  : class StorageManager (storage.ts; in this tree
                          the second unit of src/src/config.ts)
    - the records and enumerations of types.ts

    Conventions of the embedding.
    - A JavaScript [Map<string, V>] iterates in insertion order and the
      search operation depends on that order, so the node map is an
      insertion-ordered association list ([JsMap]).  The chain and thought
      maps of the tracker are only ever looked up by key; they are [gmap]s.
    - Objects held by a map are mutated in place in the source; here the
      entry of the map is replaced under the same key, which keeps its
      position.  No object of these classes is reachable under two keys.
    - [uuidv4()] and [new Date().toISOString()] / [Date.now()] are inputs of
      the environment: every operation that calls them takes the value the
      call returned as an explicit argument.
    - A JavaScript number that is used as a counter, a depth, a limit or a
      millisecond clock is a [Z]; a confidence is a rational [Q] (NaN and
      the infinities are not represented).
    - A string is the byte string of its UTF-8 encoding.  [trim] strips
      the white space and line terminators of ECMAScript, [substring]
      counts UTF-16 code units, and [toLowerCase], which depends on the
      Unicode tables of the engine, is a parameter ([Js.Engine]).
    - Every method body is wrapped in [try { ... } catch]; none of the
      modelled statements throws, so the [catch] arms of the in-memory
      classes are unreachable and are not represented.  The storage manager
      does reach its handlers, and they are modelled. *)

From Stdlib Require Import ZArith QArith List String Ascii Bool Lia Lqa.
From stdpp Require Import base option list strings gmap.

Local Open Scope string_scope.
Local Open Scope Z_scope.
Local Open Scope list_scope.

(** ** Responses (types.ts: MCPSuccess | MCPError) *)

Inductive MCPResponse (T : Type) : Type :=
| Success (data : T)
| Failure (error : string).
Arguments Success {T} data.
Arguments Failure {T} error.

Definition success {T} (r : MCPResponse T) : bool :=
  match r with Success _ => true | Failure _ => false end.

(** ** JavaScript strings *)

Module Js.

(** A string is held as the bytes of its UTF-8 encoding; an unpaired
    surrogate, which [substring] leaves when it cuts through a pair, is
    held as the three bytes of its code point. *)

Definition byteOf (c : ascii) : N := N_of_ascii c.

(** The characters [String.prototype.trim] removes are WhiteSpace and
    LineTerminator of ECMAScript:
    - one byte: TAB, LF, VT, FF, CR (U+0009..U+000D) and SPACE (U+0020);
    - two bytes: NO-BREAK SPACE U+00A0 (C2 A0);
    - three bytes: U+1680 (E1 9A 80), U+2000..U+200A (E2 80 80..8A),
      LINE and PARAGRAPH SEPARATOR U+2028, U+2029 (E2 80 A8, A9),
      U+202F (E2 80 AF), U+205F (E2 81 9F), U+3000 (E3 80 80) and
      U+FEFF (EF BB BF). *)
Definition isWhiteSpace (c : ascii) : bool :=
  let n := byteOf c in
  ((9 <=? n) && (n <=? 13) || (n =? 32))%N.

Definition isWhiteSpace2 (c1 c2 : ascii) : bool :=
  ((byteOf c1 =? 194) && (byteOf c2 =? 160))%N.

Definition isWhiteSpace3 (c1 c2 c3 : ascii) : bool :=
  let b1 := byteOf c1 in
  let b2 := byteOf c2 in
  let b3 := byteOf c3 in
  ((b1 =? 225) && (b2 =? 154) && (b3 =? 128)
   || (b1 =? 226) && (b2 =? 128)
      && ((128 <=? b3) && (b3 <=? 138) || (b3 =? 168) || (b3 =? 169) || (b3 =? 175))
   || (b1 =? 226) && (b2 =? 129) && (b3 =? 159)
   || (b1 =? 227) && (b2 =? 128) && (b3 =? 128)
   || (b1 =? 239) && (b2 =? 187) && (b3 =? 191))%N.

Fixpoint trimStart (s : string) : string :=
  match s with
  | EmptyString => EmptyString
  | String c1 r1 =>
      if isWhiteSpace c1 then trimStart r1
      else
        match r1 with
        | EmptyString => s
        | String c2 r2 =>
            if isWhiteSpace2 c1 c2 then trimStart r2
            else
              match r2 with
              | EmptyString => s
              | String c3 r3 =>
                  if isWhiteSpace3 c1 c2 c3 then trimStart r3 else s
              end
        end
  end.

(** [trimEnd] drops the longest all-white-space suffix: going from the end,
    what is left of the tail is dropped together with the byte before it
    when the two make up one white-space character. *)
Fixpoint trimEnd (s : string) : string :=
  match s with
  | EmptyString => EmptyString
  | String c s' =>
      match trimEnd s' with
      | EmptyString =>
          if isWhiteSpace c then EmptyString else String c EmptyString
      | String c2 EmptyString =>
          if isWhiteSpace2 c c2 then EmptyString
          else String c (String c2 EmptyString)
      | String c2 (String c3 EmptyString) =>
          if isWhiteSpace3 c c2 c3 then EmptyString
          else String c (String c2 (String c3 EmptyString))
      | r => String c r
      end
  end.

Definition trim (s : string) : string := trimEnd (trimStart s).

(** The emptiness test used by every validation:
    [!text || text.trim().length === 0]. *)
Definition isBlank (text : string) : bool :=
  (String.length text =? 0)%nat || (String.length (trim text) =? 0)%nat.

(** JavaScript truthiness of a string: [""] is falsy. *)
Definition truthy (s : string) : bool := negb (String.length s =? 0)%nat.

(** [String.prototype.toLowerCase] follows the Unicode case tables of the
    engine that runs the program; the development is parametric in it. *)
Class Engine := { toLowerCase : string -> string }.

(** The leading surrogate of the code point that four bytes encode, as the
    three bytes of its own code point (ED, then two continuation bytes). *)
Definition leadingSurrogate (c1 c2 c3 c4 : ascii) : string :=
  let cp := ((byteOf c1 mod 8) * 262144 + (byteOf c2 mod 64) * 4096
             + (byteOf c3 mod 64) * 64 + byteOf c4 mod 64)%N in
  let hs := (55296 + (cp - 65536) / 1024)%N in
  String (ascii_of_N 237)
    (String (ascii_of_N (128 + (hs / 64) mod 64))
       (String (ascii_of_N (128 + hs mod 64)) EmptyString)).

(** [s.substring(0, n)]: the first [n] UTF-16 code units.  A character of
    one, two or three bytes is one code unit, a character of four bytes is
    a surrogate pair; when only one unit is left for a pair, its leading
    surrogate is kept. *)
Fixpoint substringTo (n : nat) (s : string) {struct s} : string :=
  match s with
  | EmptyString => EmptyString
  | String c1 r1 =>
      match n with
      | O => EmptyString
      | S n' =>
          if (byteOf c1 <? 192)%N then String c1 (substringTo n' r1)
          else if (byteOf c1 <? 224)%N then
            match r1 with
            | String c2 r2 => String c1 (String c2 (substringTo n' r2))
            | _ => s
            end
          else if (byteOf c1 <? 240)%N then
            match r1 with
            | String c2 (String c3 r3) =>
                String c1 (String c2 (String c3 (substringTo n' r3)))
            | _ => s
            end
          else
            match r1 with
            | String c2 (String c3 (String c4 r4)) =>
                match n' with
                | O => leadingSurrogate c1 c2 c3 c4
                | S n'' =>
                    String c1 (String c2 (String c3 (String c4 (substringTo n'' r4))))
                end
            | _ => s
            end
      end
  end.

(** [text.includes(term)]: [term] occurs in [text] at some position.  On
    encodings the occurrences of the bytes are those of the code units,
    for every term that neither begins with a trailing nor ends with a
    leading surrogate. *)
Fixpoint includes (text term : string) : bool :=
  String.prefix term text ||
  match text with
  | EmptyString => false
  | String _ rest => includes rest term
  end.

(** [arr.indexOf(x)] followed by [arr.splice(index, 1)] when the index is
    not -1: the first occurrence of [x] is removed, nothing else. *)
Fixpoint spliceFirst (x : string) (arr : list string) : list string :=
  match arr with
  | [] => []
  | y :: rest => if String.eqb y x then rest else y :: spliceFirst x rest
  end.

End Js.

(** ** JavaScript [Map<string, V>], in insertion order *)

Section JsMap.
Context {V : Type}.

Definition JsMap := list (string * V).

Fixpoint map_get (k : string) (m : JsMap) : option V :=
  match m with
  | [] => None
  | (k', v) :: rest => if String.eqb k' k then Some v else map_get k rest
  end.

Definition map_has (k : string) (m : JsMap) : bool :=
  match map_get k m with Some _ => true | None => false end.

(** [m.set(k, v)]: an existing key keeps its position, a new key is
    appended. *)
Fixpoint map_set (k : string) (v : V) (m : JsMap) : JsMap :=
  match m with
  | [] => [(k, v)]
  | (k', v') :: rest =>
      if String.eqb k' k then (k, v) :: rest else (k', v') :: map_set k v rest
  end.

Fixpoint map_delete (k : string) (m : JsMap) : JsMap :=
  match m with
  | [] => []
  | (k', v') :: rest =>
      if String.eqb k' k then rest else (k', v') :: map_delete k rest
  end.

Definition map_keys (m : JsMap) : list string := map fst m.
Definition map_values (m : JsMap) : list V := map snd m.
Definition map_size (m : JsMap) : nat := length m.

(** A [Map] holds each key once. *)
Definition map_wf (m : JsMap) : Prop := NoDup (map_keys m).

End JsMap.
Arguments JsMap V : clear implicits.

(** ** Long-term memory (src/long-term-memory.ts) *)

Record LongTermMemoryMetadata := {
  createdAt : string;
  lastAccessed : string;
  accessCount : Z;
}.

Record LongTermMemoryNode := {
  id : string;
  text : string;
  associations : list string;
  metadata : LongTermMemoryMetadata;
}.

Record SearchResult := { sr_id : string; sr_text : string }.

Record MemoryWithAssociations := {
  mwa_node : LongTermMemoryNode;
  mwa_associations : list LongTermMemoryNode;
}.

Module LongTermMemory.

Record t := {
  nodes : JsMap LongTermMemoryNode;
  isDirty : bool;
}.

(** The constructor: an empty map, not dirty. *)
Definition new : t := {| nodes := []; isDirty := false |}.

Definition set_text (n : LongTermMemoryNode) (s : string) :=
  {| id := id n; text := s; associations := associations n;
     metadata := metadata n |}.

Definition set_associations (n : LongTermMemoryNode) (a : list string) :=
  {| id := id n; text := text n; associations := a;
     metadata := metadata n |}.

Definition set_metadata (n : LongTermMemoryNode) (md : LongTermMemoryMetadata) :=
  {| id := id n; text := text n; associations := associations n;
     metadata := md |}.

(** The validation loop of [add] and [update]: the first association id
    that is not a key of the map, if any. *)
Definition unknownAssociation (m : JsMap LongTermMemoryNode)
    (assocs : list string) : option string :=
  List.find (fun a => negb (map_has a m)) assocs.

(** [add(text, associations)]; [uuid] is what [uuidv4()] returned and
    [now] what [new Date().toISOString()] returned. *)
Definition add (uuid now : string) (txt : string) (assocs : list string)
    (s : t) : MCPResponse string * t :=
  if Js.isBlank txt then (Failure "Memory text cannot be empty", s)
  else
    match unknownAssociation (nodes s) assocs with
    | Some a => (Failure ("Associated node not found: " +:+ a), s)
    | None =>
        let md := {| createdAt := now; lastAccessed := now; accessCount := 0 |} in
        let node := {| id := uuid; text := Js.trim txt;
                       associations := assocs; metadata := md |} in
        (Success uuid, {| nodes := map_set uuid node (nodes s); isDirty := true |})
    end.

(** *** Traversal *)

Record Trav := {
  visited : list string;
  result : list LongTermMemoryNode;
}.

(** The closure [traverse(currentId, currentDepth)] of
    [getAssociatedNodes(id, depth)].  [visited] and [result] are the two
    mutable locals it captures.  The recursion of the source ends because
    [currentDepth] grows by one per call and a call beyond [depth] returns
    at once; [fuel] bounds the nesting, and [None] is the only sign of
    an exhausted bound. *)
Fixpoint traverse (m : JsMap LongTermMemoryNode) (root : string) (depth : Z)
    (fuel : nat) (currentId : string) (currentDepth : Z) (st : Trav)
    : option Trav :=
  if (depth <? currentDepth) || bool_decide (currentId ∈ visited st)
  then Some st
  else
    match fuel with
    | O => None
    | S fuel' =>
        let vis := currentId :: visited st in
        match map_get currentId m with
        | None => Some {| visited := vis; result := result st |}
        | Some node =>
            let res := if String.eqb currentId root then result st
                       else result st ++ [node] in
            fold_left
              (fun acc assocId =>
                 match acc with
                 | None => None
                 | Some st' =>
                     traverse m root depth fuel' assocId (currentDepth + 1) st'
                 end)
              (associations node)
              (Some {| visited := vis; result := res |})
        end
    end.

(** The two halves of one call of [traverse], named for the proofs: the
    state after [visited.add(currentId)] and the conditional push, and the
    loop over the associations. *)
Definition enterNode (m : JsMap LongTermMemoryNode) (root : string)
    (currentId : string) (st : Trav) : Trav :=
  {| visited := currentId :: visited st;
     result := match map_get currentId m with
               | Some node =>
                   if String.eqb currentId root then result st
                   else result st ++ [node]
               | None => result st
               end |}.

Definition visitAll (m : JsMap LongTermMemoryNode) (root : string) (depth : Z)
    (fuel : nat) (currentDepth : Z) (ids : list string)
    (start : option Trav) : option Trav :=
  fold_left
    (fun acc assocId =>
       match acc with
       | None => None
       | Some st' => traverse m root depth fuel assocId (currentDepth + 1) st'
       end) ids start.

Definition getAssociatedNodes (m : JsMap LongTermMemoryNode) (root : string)
    (depth : Z) : option (list LongTermMemoryNode) :=
  match traverse m root depth (Z.to_nat (depth + 1)) root 0
          {| visited := []; result := [] |} with
  | Some st => Some (result st)
  | None => None
  end.

(** [get(id, options)]; [depthOpt] is [options.depth]. *)
Definition get (now : string) (ident : string) (depthOpt : option Z) (s : t)
    : MCPResponse MemoryWithAssociations * t :=
  match map_get ident (nodes s) with
  | None => (Failure ("Memory not found: " +:+ ident), s)
  | Some node =>
      let md := {| createdAt := createdAt (metadata node);
                   lastAccessed := now;
                   accessCount := accessCount (metadata node) + 1 |} in
      let node' := set_metadata node md in
      let s' := {| nodes := map_set ident node' (nodes s); isDirty := true |} in
      let depth := Z.min (default 1 depthOpt) 3 in
      match getAssociatedNodes (nodes s') ident depth with
      | Some assocs =>
          (Success {| mwa_node := node'; mwa_associations := assocs |}, s')
      | None =>
          (* the catch arm, were the recursion ever to exhaust its bound *)
          (Failure "Failed to get memory: Maximum call stack size exceeded", s')
      end
  end.

(** The loop of [search]: nodes in iteration order, a match is pushed and
    the loop breaks once [results.length >= limit]. *)
Fixpoint searchLoop {engine : Js.Engine} (searchTerm : string) (caseSensitive : bool) (limit : Z)
    (ns : list LongTermMemoryNode) (results : list SearchResult)
    : list SearchResult :=
  match ns with
  | [] => results
  | node :: rest =>
      let txt := if caseSensitive then text node else Js.toLowerCase (text node) in
      if Js.includes txt searchTerm then
        let results' := results ++ [{| sr_id := id node; sr_text := text node |}] in
        if limit <=? Z.of_nat (length results') then results'
        else searchLoop searchTerm caseSensitive limit rest results'
      else searchLoop searchTerm caseSensitive limit rest results
  end.

(** [search(keyword, options)]. *)
Definition search {engine : Js.Engine} (keyword : string) (limitOpt : option Z)
    (caseSensitiveOpt : option bool) (s : t) : MCPResponse (list SearchResult) :=
  if Js.isBlank keyword then Failure "Search keyword cannot be empty"
  else
    let limit := default 10 limitOpt in
    let caseSensitive := default false caseSensitiveOpt in
    let searchTerm := if caseSensitive then keyword else Js.toLowerCase keyword in
    Success (searchLoop searchTerm caseSensitive limit (map_values (nodes s)) []).

(** [update(id, newText?, newAssociations?)].  The node object is mutated
    in place, statement by statement: the text is assigned before the new
    associations are validated. *)
Definition update (now : string) (ident : string) (newText : option string)
    (newAssociations : option (list string)) (s : t) : MCPResponse unit * t :=
  match map_get ident (nodes s) with
  | None => (Failure ("Memory not found: " +:+ ident), s)
  | Some node =>
      let afterText :=
        match newText with
        | None => inr node
        | Some nt =>
            if (String.length (Js.trim nt) =? 0)%nat
            then inl "Memory text cannot be empty"
            else inr (set_text node (Js.trim nt))
        end in
      match afterText with
      | inl err => (Failure err, s)
      | inr node1 =>
          let s1 := {| nodes := map_set ident node1 (nodes s); isDirty := isDirty s |} in
          let afterAssoc :=
            match newAssociations with
            | None => inr node1
            | Some na =>
                match unknownAssociation (nodes s1) na with
                | Some a => inl ("Associated node not found: " +:+ a)
                | None => inr (set_associations node1 na)
                end
            end in
          match afterAssoc with
          | inl err => (Failure err, s1)
          | inr node2 =>
              let md := {| createdAt := createdAt (metadata node2);
                           lastAccessed := now;
                           accessCount := accessCount (metadata node2) |} in
              (Success tt,
               {| nodes := map_set ident (set_metadata node2 md) (nodes s);
                  isDirty := true |})
          end
      end
  end.

(** [delete(id)]: every node (the deleted one included) loses the first
    occurrence of [id] in its associations, then the key is removed. *)
Definition stripFirst (ident : string) (kv : string * LongTermMemoryNode) :=
  (fst kv, set_associations (snd kv) (Js.spliceFirst ident (associations (snd kv)))).

Definition delete (ident : string) (s : t) : MCPResponse unit * t :=
  if negb (map_has ident (nodes s))
  then (Failure ("Memory not found: " +:+ ident), s)
  else
    (Success tt,
     {| nodes := map_delete ident (map (stripFirst ident) (nodes s));
        isDirty := true |}).

(** [getAssociations(id)]. *)
Definition getAssociations (ident : string) (s : t) : MCPResponse (list string) :=
  match map_get ident (nodes s) with
  | None => Failure ("Memory not found: " +:+ ident)
  | Some node => Success (associations node)
  end.

Definition getAllNodes (s : t) : JsMap LongTermMemoryNode := nodes s.

(** [loadNodes(record)]: the map is cleared, then every entry of the
    record is [set] in turn; the flag is cleared. *)
Definition loadNodes (entries : list (string * LongTermMemoryNode)) (s : t)
    : MCPResponse unit * t :=
  (Success tt,
   {| nodes := fold_left (fun m kv => map_set (fst kv) (snd kv) m) entries [];
      isDirty := false |}).

Definition getCount (s : t) : nat := map_size (nodes s).
Definition checkIsDirty (s : t) : bool := isDirty s.
Definition markClean (s : t) : t := {| nodes := nodes s; isDirty := false |}.

Definition getTotalAssociations (s : t) : nat :=
  fold_left (fun total n => (total + length (associations n))%nat)
            (map_values (nodes s)) 0%nat.

End LongTermMemory.

(** ** Thought tracker (src/thinking-process.ts, types.ts) *)

Inductive ThoughtType :=
| observation | analysis | decision | action | reflection | hypothesis.

Inductive ThoughtStatus :=
| th_active | th_completed | th_discarded | th_pending.

Inductive ChainStatus := active | completed | paused.

Inductive CognitiveMode :=
| analytical | intuitive | creative | critical | meta_cognitive.

Inductive Complexity := low | medium | high.

Record ThoughtMetadata := {
  thinking_time : option Z;
  complexity : option Complexity;
  emotional_tone : option string;
}.

(** [ThoughtNode extends LongTermMemoryNode]; the inherited fields come
    first. *)
Record ThoughtNode := {
  th_id : string;
  th_text : string;
  th_associations : list string;
  th_metadata : LongTermMemoryMetadata;
  th_type : ThoughtType;
  th_confidence : Q;
  th_status : ThoughtStatus;
  th_parent_chain : string;
  th_previous_thought : option string;
  th_next_thoughts : list string;
  th_reasoning_depth : Z;
  th_thought_metadata : ThoughtMetadata;
}.

Record ThoughtChain := {
  ch_id : string;
  ch_goal : string;
  ch_context : option string;
  ch_created_at : string;
  ch_completed_at : option string;
  ch_status : ChainStatus;
  ch_thoughts : list string;
  ch_branches : list string;
  ch_cognitive_mode : CognitiveMode;
}.

#[global] Instance ChainStatus_eq_dec : EqDecision ChainStatus.
Proof. solve_decision. Defined.
#[global] Instance ThoughtStatus_eq_dec : EqDecision ThoughtStatus.
Proof. solve_decision. Defined.
#[global] Instance CognitiveMode_eq_dec : EqDecision CognitiveMode.
Proof. solve_decision. Defined.

Module ThinkingProcess.

Record t := {
  chains : gmap string ThoughtChain;
  thoughts : gmap string ThoughtNode;
  longTermMemory : LongTermMemory.t;
  currentMode : CognitiveMode;
}.

(** The constructor; the long-term memory is the one handed in. *)
Definition new (ltm : LongTermMemory.t) : t :=
  {| chains := ∅; thoughts := ∅; longTermMemory := ltm;
     currentMode := analytical |}.

(** *** Field assignments on the objects held by the maps *)

Definition chain_with_status (st : ChainStatus) (c : ThoughtChain) :=
  {| ch_id := ch_id c; ch_goal := ch_goal c; ch_context := ch_context c;
     ch_created_at := ch_created_at c; ch_completed_at := ch_completed_at c;
     ch_status := st; ch_thoughts := ch_thoughts c;
     ch_branches := ch_branches c; ch_cognitive_mode := ch_cognitive_mode c |}.

Definition chain_with_completed_at (d : string) (c : ThoughtChain) :=
  {| ch_id := ch_id c; ch_goal := ch_goal c; ch_context := ch_context c;
     ch_created_at := ch_created_at c; ch_completed_at := Some d;
     ch_status := ch_status c; ch_thoughts := ch_thoughts c;
     ch_branches := ch_branches c; ch_cognitive_mode := ch_cognitive_mode c |}.

Definition chain_with_context (ctx : string) (c : ThoughtChain) :=
  {| ch_id := ch_id c; ch_goal := ch_goal c; ch_context := Some ctx;
     ch_created_at := ch_created_at c; ch_completed_at := ch_completed_at c;
     ch_status := ch_status c; ch_thoughts := ch_thoughts c;
     ch_branches := ch_branches c; ch_cognitive_mode := ch_cognitive_mode c |}.

Definition chain_with_mode (md : CognitiveMode) (c : ThoughtChain) :=
  {| ch_id := ch_id c; ch_goal := ch_goal c; ch_context := ch_context c;
     ch_created_at := ch_created_at c; ch_completed_at := ch_completed_at c;
     ch_status := ch_status c; ch_thoughts := ch_thoughts c;
     ch_branches := ch_branches c; ch_cognitive_mode := md |}.

Definition chain_push_thought (tid : string) (c : ThoughtChain) :=
  {| ch_id := ch_id c; ch_goal := ch_goal c; ch_context := ch_context c;
     ch_created_at := ch_created_at c; ch_completed_at := ch_completed_at c;
     ch_status := ch_status c; ch_thoughts := ch_thoughts c ++ [tid];
     ch_branches := ch_branches c; ch_cognitive_mode := ch_cognitive_mode c |}.

Definition chain_push_branch (bid : string) (c : ThoughtChain) :=
  {| ch_id := ch_id c; ch_goal := ch_goal c; ch_context := ch_context c;
     ch_created_at := ch_created_at c; ch_completed_at := ch_completed_at c;
     ch_status := ch_status c; ch_thoughts := ch_thoughts c;
     ch_branches := ch_branches c ++ [bid];
     ch_cognitive_mode := ch_cognitive_mode c |}.

Definition thought_push_next (tid : string) (n : ThoughtNode) :=
  {| th_id := th_id n; th_text := th_text n;
     th_associations := th_associations n; th_metadata := th_metadata n;
     th_type := th_type n; th_confidence := th_confidence n;
     th_status := th_status n; th_parent_chain := th_parent_chain n;
     th_previous_thought := th_previous_thought n;
     th_next_thoughts := th_next_thoughts n ++ [tid];
     th_reasoning_depth := th_reasoning_depth n;
     th_thought_metadata := th_thought_metadata n |}.

Definition thought_with_status (st : ThoughtStatus) (n : ThoughtNode) :=
  {| th_id := th_id n; th_text := th_text n;
     th_associations := th_associations n; th_metadata := th_metadata n;
     th_type := th_type n; th_confidence := th_confidence n;
     th_status := st; th_parent_chain := th_parent_chain n;
     th_previous_thought := th_previous_thought n;
     th_next_thoughts := th_next_thoughts n;
     th_reasoning_depth := th_reasoning_depth n;
     th_thought_metadata := th_thought_metadata n |}.

Definition thought_evaluated (conf : Q) (now : string) (reasoning : string)
    (n : ThoughtNode) :=
  {| th_id := th_id n; th_text := th_text n;
     th_associations :=
       if Js.truthy reasoning
       then th_associations n ++ ["reasoning:" +:+ reasoning]
       else th_associations n;
     th_metadata :=
       {| createdAt := createdAt (th_metadata n); lastAccessed := now;
          accessCount := accessCount (th_metadata n) + 1 |};
     th_type := th_type n; th_confidence := conf;
     th_status := th_status n; th_parent_chain := th_parent_chain n;
     th_previous_thought := th_previous_thought n;
     th_next_thoughts := th_next_thoughts n;
     th_reasoning_depth := th_reasoning_depth n;
     th_thought_metadata := th_thought_metadata n |}.

(** [confidence < 0 || confidence > 1] *)
Definition Qltb (x y : Q) : bool := negb (Qle_bool y x).
Definition confidenceOutOfRange (c : Q) : bool := Qltb c 0 || Qltb 1 c.

(** An optional string argument used as a condition: [undefined] and the
    empty string are both falsy. *)
Definition given (o : option string) : option string :=
  match o with
  | Some x => if Js.truthy x then Some x else None
  | None => None
  end.

Definition newline : string := String (ascii_of_nat 10) EmptyString.

(** *** Operations *)

(** [startThoughtProcess(goal, context?)] *)
Definition startThoughtProcess (uuid now : string) (goal : string)
    (context : option string) (s : t) : MCPResponse string * t :=
  if Js.isBlank goal then (Failure "Goal cannot be empty", s)
  else
    let chain := {| ch_id := uuid; ch_goal := Js.trim goal;
                    ch_context := Js.trim <$> context;
                    ch_created_at := now; ch_completed_at := None;
                    ch_status := active; ch_thoughts := [];
                    ch_branches := []; ch_cognitive_mode := currentMode s |} in
    (Success uuid,
     {| chains := <[uuid := chain]> (chains s); thoughts := thoughts s;
        longTermMemory := longTermMemory s; currentMode := currentMode s |}).

(** [addThought(chainId, thought, type, parentThoughtId?, confidence = 0.7)] *)
Definition addThought (uuid now : string) (chainId : string) (thought : string)
    (type : ThoughtType) (parentThoughtId : option string)
    (confidenceOpt : option Q) (s : t) : MCPResponse string * t :=
  let confidence := default (7 # 10)%Q confidenceOpt in
  match chains s !! chainId with
  | None => (Failure ("Thought chain not found: " +:+ chainId), s)
  | Some chain =>
      if negb (bool_decide (ch_status chain = active))
      then (Failure "Cannot add thoughts to a non-active chain", s)
      else if Js.isBlank thought
      then (Failure "Thought text cannot be empty", s)
      else if confidenceOutOfRange confidence
      then (Failure "Confidence must be between 0 and 1", s)
      else
        match given parentThoughtId with
        | Some p =>
            match thoughts s !! p with
            | None => (Failure ("Parent thought not found: " +:+ p), s)
            | Some parent =>
                let node :=
                  {| th_id := uuid; th_text := Js.trim thought;
                     th_associations := [];
                     th_metadata := {| createdAt := now; lastAccessed := now;
                                       accessCount := 0 |};
                     th_type := type; th_confidence := confidence;
                     th_status := th_active; th_parent_chain := chainId;
                     th_previous_thought := parentThoughtId;
                     th_next_thoughts := [];
                     th_reasoning_depth := th_reasoning_depth parent + 1;
                     th_thought_metadata :=
                       {| thinking_time := Some 0; complexity := Some medium;
                          emotional_tone := None |} |} in
                (Success uuid,
                 {| chains := alter (chain_push_thought uuid) chainId (chains s);
                    thoughts :=
                      <[uuid := node]> (alter (thought_push_next uuid) p (thoughts s));
                    longTermMemory := longTermMemory s;
                    currentMode := currentMode s |})
            end
        | None =>
            let node :=
              {| th_id := uuid; th_text := Js.trim thought;
                 th_associations := [];
                 th_metadata := {| createdAt := now; lastAccessed := now;
                                   accessCount := 0 |};
                 th_type := type; th_confidence := confidence;
                 th_status := th_active; th_parent_chain := chainId;
                 th_previous_thought := parentThoughtId;
                 th_next_thoughts := [];
                 th_reasoning_depth := 0;
                 th_thought_metadata :=
                   {| thinking_time := Some 0; complexity := Some medium;
                      emotional_tone := None |} |} in
            (Success uuid,
             {| chains := alter (chain_push_thought uuid) chainId (chains s);
                thoughts := <[uuid := node]> (thoughts s);
                longTermMemory := longTermMemory s;
                currentMode := currentMode s |})
        end
  end.

(** [branchThought(thoughtId, newThought, type = 'hypothesis',
    confidence = 0.6)].  [uuidChain], [nowChain] are the values drawn for
    the branch chain, [uuidThought], [nowThought] those drawn inside the
    nested [addThought].  The branch chain is stored and registered
    before [addThought] validates the new thought. *)
Definition branchThought (uuidChain nowChain uuidThought nowThought : string)
    (thoughtId : string) (newThought : string) (typeOpt : option ThoughtType)
    (confidenceOpt : option Q) (s : t) : MCPResponse string * t :=
  let type := default hypothesis typeOpt in
  let confidence := default (6 # 10)%Q confidenceOpt in
  match thoughts s !! thoughtId with
  | None => (Failure ("Thought not found: " +:+ thoughtId), s)
  | Some originalThought =>
      match chains s !! th_parent_chain originalThought with
      | None => (Failure "Parent chain not found", s)
      | Some chain =>
          let branchChain :=
            {| ch_id := uuidChain;
               ch_goal := "Branch from: " +:+
                          Js.substringTo 50 (th_text originalThought) +:+ "...";
               ch_context := Some (ch_goal chain);
               ch_created_at := nowChain; ch_completed_at := None;
               ch_status := active; ch_thoughts := []; ch_branches := [];
               ch_cognitive_mode := currentMode s |} in
          (* [chains.set(branchChainId, branchChain)] and the push on
             [chain], the object fetched above: had uuidv4 returned the key
             of [chain], the map would hold the new object only *)
          let chains' :=
            <[uuidChain := branchChain]>
              (alter (chain_push_branch uuidChain)
                     (th_parent_chain originalThought) (chains s)) in
          let s' := {| chains := chains'; thoughts := thoughts s;
                       longTermMemory := longTermMemory s;
                       currentMode := currentMode s |} in
          addThought uuidThought nowThought uuidChain newThought type None
                     (Some confidence) s'
      end
  end.

(** [evaluateThought(thoughtId, confidence, reasoning)] *)
Definition evaluateThought (now : string) (thoughtId : string) (confidence : Q)
    (reasoning : string) (s : t) : MCPResponse unit * t :=
  match thoughts s !! thoughtId with
  | None => (Failure ("Thought not found: " +:+ thoughtId), s)
  | Some _ =>
      if confidenceOutOfRange confidence
      then (Failure "Confidence must be between 0 and 1", s)
      else
        (Success tt,
         {| chains := chains s;
            thoughts := alter (thought_evaluated confidence now reasoning)
                              thoughtId (thoughts s);
            longTermMemory := longTermMemory s;
            currentMode := currentMode s |})
  end.

(** The loop of [completeThoughtProcess] over [chain.thoughts]. *)
Definition completeIfActive (n : ThoughtNode) : ThoughtNode :=
  if bool_decide (th_status n = th_active)
  then thought_with_status th_completed n else n.

Definition completeThoughts (ids : list string)
    (ths : gmap string ThoughtNode) : gmap string ThoughtNode :=
  fold_left (fun acc tid => alter completeIfActive tid acc) ids ths.

(** [completeThoughtProcess(chainId, conclusion)]; [uuidMem], [nowMem] are
    the values drawn inside [longTermMemory.add], whose response is
    dropped. *)
Definition completeThoughtProcess (now uuidMem nowMem : string)
    (chainId : string) (conclusion : string) (s : t) : MCPResponse unit * t :=
  match chains s !! chainId with
  | None => (Failure ("Thought chain not found: " +:+ chainId), s)
  | Some chain =>
      if Js.isBlank conclusion then (Failure "Conclusion cannot be empty", s)
      else
        let memoryText := "[Thought Chain] " +:+ ch_goal chain +:+ newline +:+
                          "Conclusion: " +:+ conclusion in
        let thoughtIds := map (fun i => "thought:" +:+ i) (ch_thoughts chain) in
        (Success tt,
         {| chains := alter (fun c => chain_with_completed_at now
                                        (chain_with_status completed c))
                            chainId (chains s);
            thoughts := completeThoughts (ch_thoughts chain) (thoughts s);
            longTermMemory :=
              snd (LongTermMemory.add uuidMem nowMem memoryText thoughtIds
                                      (longTermMemory s));
            currentMode := currentMode s |})
  end.

(** [pauseThinking(chainId, reason)] *)
Definition pauseThinking (chainId : string) (reason : string) (s : t)
    : MCPResponse unit * t :=
  match chains s !! chainId with
  | None => (Failure ("Thought chain not found: " +:+ chainId), s)
  | Some _ =>
      let pause c :=
        chain_with_context
          (default "" (given (ch_context c)) +:+ newline +:+
           "[Paused: " +:+ reason +:+ "]")
          (chain_with_status paused c) in
      (Success tt,
       {| chains := alter pause chainId (chains s); thoughts := thoughts s;
          longTermMemory := longTermMemory s; currentMode := currentMode s |})
  end.

(** [resumeThinking(chainId)] *)
Definition resumeThinking (chainId : string) (s : t) : MCPResponse unit * t :=
  match chains s !! chainId with
  | None => (Failure ("Thought chain not found: " +:+ chainId), s)
  | Some chain =>
      if negb (bool_decide (ch_status chain = paused))
      then (Failure "Can only resume paused chains", s)
      else
        (Success tt,
         {| chains := alter (chain_with_status active) chainId (chains s);
            thoughts := thoughts s; longTermMemory := longTermMemory s;
            currentMode := currentMode s |})
  end.

(** [switchCognitiveMode(mode, chainId?)]: the tracker's mode is assigned
    first, whatever follows. *)
Definition switchCognitiveMode (mode : CognitiveMode) (chainId : option string)
    (s : t) : MCPResponse unit * t :=
  let s1 := {| chains := chains s; thoughts := thoughts s;
               longTermMemory := longTermMemory s; currentMode := mode |} in
  match given chainId with
  | None => (Success tt, s1)
  | Some cid =>
      match chains s !! cid with
      | None => (Failure ("Thought chain not found: " +:+ cid), s1)
      | Some _ =>
          (Success tt,
           {| chains := alter (chain_with_mode mode) cid (chains s);
              thoughts := thoughts s; longTermMemory := longTermMemory s;
              currentMode := mode |})
      end
  end.

(** [getOptimalModeForTask(taskType)] *)
Definition getOptimalModeForTask {engine : Js.Engine} (taskType : string) : MCPResponse CognitiveMode :=
  let taskLower := Js.toLowerCase taskType in
  Success
    (if Js.includes taskLower "analyz" || Js.includes taskLower "logic"
     then analytical
     else if Js.includes taskLower "creat" || Js.includes taskLower "innovat"
     then creative
     else if Js.includes taskLower "critic" || Js.includes taskLower "evaluat"
     then critical
     else if Js.includes taskLower "intuit" || Js.includes taskLower "pattern"
     then intuitive
     else if Js.includes taskLower "reflect" || Js.includes taskLower "meta"
     then meta_cognitive
     else analytical).

(** [getCurrentThoughtChain(chainId)] *)
Definition getCurrentThoughtChain (chainId : string) (s : t)
    : MCPResponse (ThoughtChain * list ThoughtNode) :=
  match chains s !! chainId with
  | None => Failure ("Thought chain not found: " +:+ chainId)
  | Some chain =>
      Success (chain, omap (fun i => thoughts s !! i) (ch_thoughts chain))
  end.

(** *** Read-only projections *)

Record ThinkingProgress := {
  totalThoughts : nat;
  completedThoughts : nat;
  activeThoughts : nat;
  averageConfidence : Q;
  maxDepth : Z;
}.

(** [chain.thoughts.map(id => this.thoughts.get(id)).filter(t => t !== undefined)] *)
Definition chainThoughts (chain : ThoughtChain) (s : t) : list ThoughtNode :=
  omap (fun i => thoughts s !! i) (ch_thoughts chain).

Definition countStatus (st : ThoughtStatus) (ths : list ThoughtNode) : nat :=
  length (List.filter (fun n => bool_decide (th_status n = st)) ths).

(** [thoughts.reduce((sum, t) => sum + t.confidence, 0)] *)
Definition sumConfidence (ths : list ThoughtNode) : Q :=
  fold_left (fun sum n => (sum + th_confidence n)%Q) ths 0%Q.

(** [Math.max(...xs, 0)] *)
Definition maxWithZero (xs : list Z) : Z := fold_right Z.max 0 xs.

(** [getThinkingProgress(chainId)] *)
Definition getThinkingProgress (chainId : string) (s : t)
    : MCPResponse ThinkingProgress :=
  match chains s !! chainId with
  | None => Failure ("Thought chain not found: " +:+ chainId)
  | Some chain =>
      let ths := chainThoughts chain s in
      let divisor := if (length ths =? 0)%nat then 1%nat else length ths in
      Success
        {| totalThoughts := length ths;
           completedThoughts := countStatus th_completed ths;
           activeThoughts := countStatus th_active ths;
           averageConfidence :=
             (sumConfidence ths / inject_Z (Z.of_nat divisor))%Q;
           maxDepth := maxWithZero (map th_reasoning_depth ths) |}
  end.

Record ModeDistribution := {
  md_analytical : nat;
  md_intuitive : nat;
  md_creative : nat;
  md_critical : nat;
  md_meta_cognitive : nat;
}.

Record ThinkingStats := {
  totalChains : nat;
  activeChains : nat;
  completedChains : nat;
  statsTotalThoughts : nat;
  modeDistribution : ModeDistribution;
}.

(** [modeDistribution[chain.cognitive_mode]++] *)
Definition bumpMode (d : ModeDistribution) (c : ThoughtChain) : ModeDistribution :=
  match ch_cognitive_mode c with
  | analytical =>
      {| md_analytical := S (md_analytical d); md_intuitive := md_intuitive d;
         md_creative := md_creative d; md_critical := md_critical d;
         md_meta_cognitive := md_meta_cognitive d |}
  | intuitive =>
      {| md_analytical := md_analytical d; md_intuitive := S (md_intuitive d);
         md_creative := md_creative d; md_critical := md_critical d;
         md_meta_cognitive := md_meta_cognitive d |}
  | creative =>
      {| md_analytical := md_analytical d; md_intuitive := md_intuitive d;
         md_creative := S (md_creative d); md_critical := md_critical d;
         md_meta_cognitive := md_meta_cognitive d |}
  | critical =>
      {| md_analytical := md_analytical d; md_intuitive := md_intuitive d;
         md_creative := md_creative d; md_critical := S (md_critical d);
         md_meta_cognitive := md_meta_cognitive d |}
  | meta_cognitive =>
      {| md_analytical := md_analytical d; md_intuitive := md_intuitive d;
         md_creative := md_creative d; md_critical := md_critical d;
         md_meta_cognitive := S (md_meta_cognitive d) |}
  end.

Definition noModes : ModeDistribution :=
  {| md_analytical := 0; md_intuitive := 0; md_creative := 0; md_critical := 0;
     md_meta_cognitive := 0 |}.

Definition countChainStatus (st : ChainStatus) (cs : list ThoughtChain) : nat :=
  length (List.filter (fun c => bool_decide (ch_status c = st)) cs).

(** The body of [getThinkingStats] over [Array.from(this.chains.values())]. *)
Definition statsOf (cs : list ThoughtChain) (thoughtCount : nat) : ThinkingStats :=
  {| totalChains := length cs;
     activeChains := countChainStatus active cs;
     completedChains := countChainStatus completed cs;
     statsTotalThoughts := thoughtCount;
     modeDistribution := fold_left bumpMode cs noModes |}.

(** [getThinkingStats()].  Every field is a count, so the order in which the
    values of the chain map are listed does not show. *)
Definition getThinkingStats (s : t) : MCPResponse ThinkingStats :=
  Success (statsOf (snd <$> map_to_list (chains s)) (size (thoughts s))).

End ThinkingProcess.

(** ** Storage manager (src/storage.ts) *)

Module StorageManager.

(** The lock file: its content is [Date.now().toString()] at creation;
    [mtimeMs] is what [fs.stat] reports. *)
Record LockFile := {
  lock_content : Z;
  lock_mtimeMs : Z;
}.

(** The three files of the storage directory; [None] is an absent file. *)
Record Disk := {
  memoryFile : option string;
  backupFile : option string;
  lockFile : option LockFile;
}.

(** The writes of [save] that can throw. *)
Inductive IoCall := WriteLock | CopyBackup | WriteMemory.

(** What the file system does to each of them during one [save]:
    [Some msg] is an [Error] with that message.  [fs.access], [fs.stat]
    and [fs.unlink] fail exactly on an absent file. *)
Definition Faults := IoCall -> option string.
Definition noFaults : Faults := fun _ => None.

Record t := {
  enableBackup : bool;
  pendingSave : bool;
  autoSaveTimer : option Z;
}.

Definition staleAfterMs : Z := 5 * 60 * 1000.

Definition with_lock (l : option LockFile) (d : Disk) : Disk :=
  {| memoryFile := memoryFile d; backupFile := backupFile d; lockFile := l |}.

(** [removeLock()]: unlink, errors ignored. *)
Definition removeLock (d : Disk) : Disk := with_lock None d.

(** [init()]: [fs.mkdir(storagePath, { recursive: true })], which touches
    none of the three files.  [mkdir] is what the call does: [None] when
    the directory is there or has been created, [Some msg] an [Error] with
    that message. *)
Definition init (mkdir : option string) : MCPResponse unit :=
  match mkdir with
  | None => Success tt
  | Some msg => Failure ("Failed to initialize storage: " +:+ msg)
  end.

(** [isLocked()]; [now] is [Date.now()]. *)
Definition isLocked (now : Z) (d : Disk) : bool * Disk :=
  match lockFile d with
  | None => (false, d)
  | Some l =>
      let age := now - lock_mtimeMs l in
      if staleAfterMs <? age then (false, removeLock d) else (true, d)
  end.

(** [createLock()]; [inl msg] is the thrown error. *)
Definition createLock (now : Z) (io : Faults) (d : Disk) : string + Disk :=
  match io WriteLock with
  | Some msg => inl msg
  | None => inr (with_lock (Some {| lock_content := now; lock_mtimeMs := now |}) d)
  end.

(** The backup step: [fs.access] then [fs.copyFile], any error swallowed. *)
Definition backupExisting (io : Faults) (d : Disk) : Disk :=
  match memoryFile d with
  | None => d
  | Some content =>
      match io CopyBackup with
      | Some _ => d
      | None => {| memoryFile := memoryFile d; backupFile := Some content;
                   lockFile := lockFile d |}
      end
  end.

Section Save.
(** [JSON.stringify({ memories: Object.fromEntries(nodes) }, null, 2)] *)
Variable stringify : JsMap LongTermMemoryNode -> string.

(** [save(nodes)]; [nowCheck] and [nowLock] are the two readings of
    [Date.now()], in [isLocked] and in [createLock]. *)
Definition save (nowCheck nowLock : Z) (io : Faults)
    (snapshot : JsMap LongTermMemoryNode) (sm : t) (d : Disk)
    : MCPResponse unit * Disk :=
  let '(locked, d1) := isLocked nowCheck d in
  if locked then (Failure "Storage is locked by another process", d1)
  else
    match createLock nowLock io d1 with
    | inl msg =>
        (* outer catch *)
        (Failure ("Failed to save memory: " +:+ msg), removeLock d1)
    | inr d2 =>
        let d3 := if enableBackup sm then backupExisting io d2 else d2 in
        match io WriteMemory with
        | Some msg =>
            (* finally, then the outer catch *)
            (Failure ("Failed to save memory: " +:+ msg),
             removeLock (removeLock d3))
        | None =>
            let d4 := {| memoryFile := Some (stringify snapshot);
                         backupFile := backupFile d3;
                         lockFile := lockFile d3 |} in
            (Success tt, removeLock d4)
        end
    end.
End Save.

(** [cleanup()] *)
Definition cleanup (sm : t) (d : Disk) : t * Disk :=
  ({| enableBackup := enableBackup sm; pendingSave := pendingSave sm;
      autoSaveTimer := None |}, removeLock d).

Section Load.
(** [JSON.parse(data)]: [inl msg] is the thrown error, [inr None] a parsed
    value whose [memories] is missing or not an object, [inr (Some g)] the
    entries of [memories] as [Object.entries] lists them. *)
Variable parse : string -> string + option (JsMap LongTermMemoryNode).
(** The message of the error [fs.readFile] throws on a missing file. *)
Variable enoent : string.

(** Parse, then the shape check; [inl] is what reaches the [catch]. *)
Definition readGraph (invalid : string) (data : string)
    : string + JsMap LongTermMemoryNode :=
  match parse data with
  | inl msg => inl msg
  | inr None => inl invalid
  | inr (Some g) => inr g
  end.

(** [loadBackup()] *)
Definition loadBackup (sm : t) (d : Disk) : MCPResponse (JsMap LongTermMemoryNode) :=
  if negb (enableBackup sm) then Failure "Backup is disabled"
  else
    match backupFile d with
    | None => Failure ("Failed to load backup: " +:+ enoent)
    | Some data =>
        match readGraph "Invalid backup file structure" data with
        | inr g => Success g
        | inl msg => Failure ("Failed to load backup: " +:+ msg)
        end
    end.

(** [load()]; the response carries [parsed.memories]. *)
Definition load (sm : t) (d : Disk) : MCPResponse (JsMap LongTermMemoryNode) :=
  match memoryFile d with
  | None => Success []
  | Some data =>
      match readGraph "Invalid memory file structure" data with
      | inr g => Success g
      | inl msg =>
          match loadBackup sm d with
          | Success g => Success g
          | Failure _ => Failure ("Failed to load memory: " +:+ msg)
          end
      end
  end.
End Load.

(** [stopAutoSave()] and [startAutoSave(interval, saveCallback)]; the timer
    is represented by its interval. *)
Definition stopAutoSave (sm : t) : t :=
  {| enableBackup := enableBackup sm; pendingSave := pendingSave sm;
     autoSaveTimer := None |}.

Definition startAutoSave (interval : Z) (sm : t) : t :=
  {| enableBackup := enableBackup sm; pendingSave := pendingSave (stopAutoSave sm);
     autoSaveTimer := Some interval |}.

End StorageManager.

(** ** Short-term memory (src/src/short-term-memory.ts) *)

Record ShortTermMemoryEntry := {
  ste_text : string;
  ste_timestamp : Z;
}.

Module ShortTermMemory.

(** [memories] is kept oldest first, as the array of the source. *)
Record t := {
  memories : list ShortTermMemoryEntry;
  capacity : Z;
}.

Definition new (capacity : Z) : t := {| memories := []; capacity := capacity |}.

(** [add(text)]; [now] is [Date.now()].  One [push], then at most one
    [shift]. *)
Definition add (now : Z) (txt : string) (s : t) : MCPResponse unit * t :=
  if Js.isBlank txt then (Failure "Memory text cannot be empty", s)
  else
    let pushed := memories s ++ [{| ste_text := Js.trim txt; ste_timestamp := now |}] in
    (Success tt,
     {| memories := if capacity s <? Z.of_nat (length pushed) then tl pushed else pushed;
        capacity := capacity s |}).

(** [getAll()]: a reversed copy. *)
Definition getAll (s : t) : MCPResponse (list ShortTermMemoryEntry) :=
  Success (rev (memories s)).

Definition clear (s : t) : MCPResponse unit * t :=
  (Success tt, {| memories := []; capacity := capacity s |}).

Definition getCount (s : t) : nat := length (memories s).

(** [while (this.memories.length > this.capacity) this.memories.shift()];
    the guard of [setCapacity] keeps the capacity positive, so the loop ends
    before the array is empty. *)
Fixpoint shiftWhileOver (capacity : Z) (l : list ShortTermMemoryEntry)
    : list ShortTermMemoryEntry :=
  match l with
  | [] => []
  | _ :: rest =>
      if capacity <? Z.of_nat (length l) then shiftWhileOver capacity rest else l
  end.

(** [setCapacity(newCapacity)] *)
Definition setCapacity (newCapacity : Z) (s : t) : MCPResponse unit * t :=
  if newCapacity <? 1 then (Failure "Capacity must be at least 1", s)
  else
    (Success tt,
     {| memories := shiftWhileOver newCapacity (memories s);
        capacity := newCapacity |}).

End ShortTermMemory.

(** ** Configuration (src/src/config.ts, types.ts) *)

Record MemoryConfig := {
  shortTermCapacity : Z;
  storagePath : string;
  autoSaveInterval : Z;
  searchLimit : Z;
  maxAssociationDepth : Z;
  cfg_enableBackup : bool;
}.

(** [Partial<MemoryConfig>]: [None] is an absent key. *)
Record PartialMemoryConfig := {
  p_shortTermCapacity : option Z;
  p_storagePath : option string;
  p_autoSaveInterval : option Z;
  p_searchLimit : option Z;
  p_maxAssociationDepth : option Z;
  p_enableBackup : option bool;
}.

(** [DEFAULT_CONFIG]; [defaultPath] is [path.join(process.cwd(), 'memory_data')]. *)
Definition DEFAULT_CONFIG (defaultPath : string) : MemoryConfig :=
  {| shortTermCapacity := 100;
     storagePath := defaultPath;
     autoSaveInterval := 5 * 60 * 1000;
     searchLimit := 10;
     maxAssociationDepth := 3;
     cfg_enableBackup := true |}.

(** [mergeConfig(userConfig)]: [{ ...DEFAULT_CONFIG, ...userConfig }] *)
Definition mergeConfig (defaultPath : string) (user : PartialMemoryConfig)
    : MemoryConfig :=
  let d := DEFAULT_CONFIG defaultPath in
  {| shortTermCapacity := default (shortTermCapacity d) (p_shortTermCapacity user);
     storagePath := default (storagePath d) (p_storagePath user);
     autoSaveInterval := default (autoSaveInterval d) (p_autoSaveInterval user);
     searchLimit := default (searchLimit d) (p_searchLimit user);
     maxAssociationDepth := default (maxAssociationDepth d) (p_maxAssociationDepth user);
     cfg_enableBackup := default (cfg_enableBackup d) (p_enableBackup user) |}.

(** ** The facade (class BrainMCP, brain-mcp.ts; in this tree the second
       unit of src/src/thinking-process.ts) *)

Module BrainMCP.

(** The constructor hands one [LongTermMemory] object to the tracker and
    keeps a reference to it: the single copy lives in the tracker's
    record, and [longTermMemory] reads it from there. *)
Record t := {
  shortTermMemory : ShortTermMemory.t;
  thinkingProcess : ThinkingProcess.t;
  storage : StorageManager.t;
  config : MemoryConfig;
  initialized : bool;
}.

Definition longTermMemory (b : t) : LongTermMemory.t :=
  ThinkingProcess.longTermMemory (thinkingProcess b).

Definition withLongTermMemory (ltm : LongTermMemory.t) (b : t) : t :=
  {| shortTermMemory := shortTermMemory b;
     thinkingProcess :=
       {| ThinkingProcess.chains := ThinkingProcess.chains (thinkingProcess b);
          ThinkingProcess.thoughts := ThinkingProcess.thoughts (thinkingProcess b);
          ThinkingProcess.longTermMemory := ltm;
          ThinkingProcess.currentMode := ThinkingProcess.currentMode (thinkingProcess b) |};
     storage := storage b; config := config b; initialized := initialized b |}.

Definition withThinkingProcess (tp : ThinkingProcess.t) (b : t) : t :=
  {| shortTermMemory := shortTermMemory b; thinkingProcess := tp;
     storage := storage b; config := config b; initialized := initialized b |}.

Definition withStorage (sm : StorageManager.t) (init : bool) (b : t) : t :=
  {| shortTermMemory := shortTermMemory b; thinkingProcess := thinkingProcess b;
     storage := sm; config := config b; initialized := init |}.

(** [new BrainMCP(userConfig)] *)
Definition new (defaultPath : string) (userConfig : PartialMemoryConfig) : t :=
  let cfg := mergeConfig defaultPath userConfig in
  {| shortTermMemory := ShortTermMemory.new (shortTermCapacity cfg);
     thinkingProcess := ThinkingProcess.new LongTermMemory.new;
     storage := {| StorageManager.enableBackup := cfg_enableBackup cfg;
                   StorageManager.pendingSave := false;
                   StorageManager.autoSaveTimer := None |};
     config := cfg;
     initialized := false |}.

Section Persistence.
Variable stringify : JsMap LongTermMemoryNode -> string.
Variable parse : string -> string + option (JsMap LongTermMemoryNode).
Variable enoent : string.

(** [save()], awaited: the state and the disk once the promise has
    settled, no other operation running in between. *)
Definition save (nowCheck nowLock : Z) (io : StorageManager.Faults)
    (b : t) (d : StorageManager.Disk) : MCPResponse unit * t * StorageManager.Disk :=
  if negb (initialized b) then (Failure "Memory system not initialized", b, d)
  else if negb (LongTermMemory.checkIsDirty (longTermMemory b)) then (Success tt, b, d)
  else
    let nodes := LongTermMemory.getAllNodes (longTermMemory b) in
    let '(result, d') :=
      StorageManager.save stringify nowCheck nowLock io nodes (storage b) d in
    if success result
    then (result, withLongTermMemory (LongTermMemory.markClean (longTermMemory b)) b, d')
    else (result, b, d').

(** [init()], awaited; [mkdir] is the outcome of the [fs.mkdir] call of
    [storage.init()], whose failure is returned as it is. *)
Definition init (mkdir : option string) (b : t) (d : StorageManager.Disk)
    : MCPResponse unit * t :=
  if initialized b then (Failure "Memory system already initialized", b)
  else
    match StorageManager.init mkdir with
    | Failure err => (Failure err, b)
    | Success _ =>
        match StorageManager.load parse enoent (storage b) d with
        | Failure err => (Failure err, b)
        | Success nodes =>
            let ltm := snd (LongTermMemory.loadNodes nodes (longTermMemory b)) in
            (Success tt,
             withStorage
               (StorageManager.startAutoSave (autoSaveInterval (config b)) (storage b))
               true (withLongTermMemory ltm b))
        end
    end.

(** [shutdown()], awaited: the response of the inner [save] is dropped. *)
Definition shutdown (nowCheck nowLock : Z) (io : StorageManager.Faults)
    (b : t) (d : StorageManager.Disk) : MCPResponse unit * t * StorageManager.Disk :=
  let '(_, b1, d1) := save nowCheck nowLock io b d in
  let '(sm, d2) := StorageManager.cleanup (storage b1) d1 in
  (Success tt, withStorage sm false b1, d2).
End Persistence.

(** [searchLongTermMemory(keyword, options)]: an absent limit is the
    configured one. *)
Definition searchLongTermMemory {engine : Js.Engine} (keyword : string) (limitOpt : option Z)
    (caseSensitiveOpt : option bool) (b : t) : MCPResponse (list SearchResult) :=
  LongTermMemory.search keyword (Some (default (searchLimit (config b)) limitOpt))
                        caseSensitiveOpt (longTermMemory b).

End BrainMCP.

(** * Vocabulary of the properties *)

Section GraphVocabulary.
Implicit Types (m : JsMap LongTermMemoryNode) (x k : string).

(** [x] occurs in the association list of a stored node. *)
Definition referenced x m : Prop :=
  exists k n, In (k, n) m /\ In x (associations n).

(** Every association of every stored node is a key of the map. *)
Definition referenceConsistent m : Prop :=
  forall k n a, In (k, n) m -> In a (associations n) -> map_has a m = true.

(** One association hop: [a] is stored and lists [b]. *)
Definition hop m (a b : string) : Prop :=
  exists n, map_get a m = Some n /\ In b (associations n).

(** [reach m k a b]: [b] is [k] hops away from [a] along some path. *)
Inductive reach m : nat -> string -> string -> Prop :=
| reach_here a : reach m 0 a a
| reach_hop j a b c : reach m j a b -> hop m b c -> reach m (S j) a c.

(** The least hop distance from [root] to [x] lies between 1 and [d]. *)
Definition withinHops m (root : string) (d : nat) x : Prop :=
  x <> root /\ exists j, (j <= d)%nat /\ reach m j root x.

(** The nodes a traversal to depth [d] is said to return: the stored
    nodes, other than the target, within [d] hops of it. *)
Definition expectedNeighbour m (root : string) (d : nat)
    (n : LongTermMemoryNode) : Prop :=
  exists x, map_get x m = Some n /\ withinHops m root d x.
End GraphVocabulary.

(** Literal substring containment. *)
Definition occursIn (term txt : string) : Prop :=
  exists pre post, txt = pre +:+ term +:+ post.

(** What [search] compares for one node. *)
Definition nodeMatches {engine : Js.Engine} (keyword : string) (caseSensitive : bool)
    (n : LongTermMemoryNode) : bool :=
  if caseSensitive then Js.includes (text n) keyword
  else Js.includes (Js.toLowerCase (text n)) (Js.toLowerCase keyword).

Definition toSearchResult (n : LongTermMemoryNode) : SearchResult :=
  {| sr_id := id n; sr_text := text n |}.

(** All matches, in iteration order of the node map. *)
Definition allMatches {engine : Js.Engine} (keyword : string) (caseSensitive : bool)
    (m : JsMap LongTermMemoryNode) : list SearchResult :=
  map toSearchResult (List.filter (nodeMatches keyword caseSensitive) (map_values m)).

Definition responseData {T} (r : MCPResponse T) : option T :=
  match r with Success d => Some d | Failure _ => None end.

(** The ids of the nodes [get] returned besides the target, in order. *)
Definition returnedIds (r : MCPResponse MemoryWithAssociations)
    : option (list string) :=
  (fun d => map id (mwa_associations d)) <$> responseData r.

(** The number of results the loop of [search] can hold before it breaks:
    the test [results.length >= limit] runs only after a push. *)
Definition effectiveLimit (limit : Z) : nat := Z.to_nat (Z.max 1 limit).

(** Identifiers as [uuidv4()] prints them:
    xxxxxxxx-xxxx-4xxx-yxxx-xxxxxxxxxxxx, lower-case hexadecimal. *)
Definition isHexDigit (c : ascii) : bool :=
  let n := nat_of_ascii c in
  ((48 <=? n)%nat && (n <=? 57)%nat) || ((97 <=? n)%nat && (n <=? 102)%nat).

Definition isVariantDigit (c : ascii) : bool :=
  let n := nat_of_ascii c in
  (n =? 56)%nat || (n =? 57)%nat || (n =? 97)%nat || (n =? 98)%nat.

Fixpoint matchesUuidPattern (pattern s : string) : bool :=
  match pattern, s with
  | EmptyString, EmptyString => true
  | String p pattern', String c s' =>
      (if Ascii.eqb p "x" then isHexDigit c
       else if Ascii.eqb p "y" then isVariantDigit c
       else Ascii.eqb p c)
      && matchesUuidPattern pattern' s'
  | _, _ => false
  end.

Definition isUuidV4 (s : string) : bool :=
  matchesUuidPattern "xxxxxxxx-xxxx-4xxx-yxxx-xxxxxxxxxxxx" s.

(** types.ts, [LongTermMemoryNode.id]: "UUID v4". *)
Definition uuidKeys (m : JsMap LongTermMemoryNode) : Prop :=
  forall k, In k (map_keys m) -> isUuidV4 k = true.

(** ** The operations of the memory graph as commands *)

Inductive MemoryOp :=
| MAdd (uuid now txt : string) (assocs : list string)
| MGet (now ident : string) (depth : option Z)
| MSearch (keyword : string) (limit : option Z) (caseSensitive : option bool)
| MUpdate (now ident : string) (newText : option string)
          (newAssociations : option (list string))
| MDelete (ident : string)
| MGetAssociations (ident : string)
| MGetAllNodes
| MLoadNodes (entries : list (string * LongTermMemoryNode))
| MGetCount
| MCheckIsDirty
| MMarkClean
| MGetTotalAssociations.

(** The response's [success] (true for the operations that return a bare
    value) and the state left behind. *)
Definition memoryExec {engine : Js.Engine} (op : MemoryOp) (s : LongTermMemory.t)
    : bool * LongTermMemory.t :=
  match op with
  | MAdd uuid now txt assocs =>
      let r := LongTermMemory.add uuid now txt assocs s in (success (fst r), snd r)
  | MGet now ident depth =>
      let r := LongTermMemory.get now ident depth s in (success (fst r), snd r)
  | MSearch keyword limit cs =>
      (success (LongTermMemory.search keyword limit cs s), s)
  | MUpdate now ident newText newAssociations =>
      let r := LongTermMemory.update now ident newText newAssociations s in
      (success (fst r), snd r)
  | MDelete ident =>
      let r := LongTermMemory.delete ident s in (success (fst r), snd r)
  | MGetAssociations ident =>
      (success (LongTermMemory.getAssociations ident s), s)
  | MLoadNodes entries =>
      let r := LongTermMemory.loadNodes entries s in (success (fst r), snd r)
  | MMarkClean => (true, LongTermMemory.markClean s)
  | MGetAllNodes | MGetCount | MCheckIsDirty | MGetTotalAssociations => (true, s)
  end.

Definition isMutator (op : MemoryOp) : bool :=
  match op with
  | MAdd _ _ _ _ | MGet _ _ _ | MUpdate _ _ _ _ | MDelete _ => true
  | _ => false
  end.

Definition clearsFlag (op : MemoryOp) : bool :=
  match op with
  | MMarkClean | MLoadNodes _ => true
  | _ => false
  end.

(** ** The operations of the thought tracker as commands *)

Inductive TrackerOp :=
| TStart (uuid now goal : string) (context : option string)
| TAddThought (uuid now chainId thought : string) (type : ThoughtType)
              (parentThoughtId : option string) (confidence : option Q)
| TBranch (uuidChain nowChain uuidThought nowThought thoughtId newThought : string)
          (type : option ThoughtType) (confidence : option Q)
| TEvaluate (now thoughtId : string) (confidence : Q) (reasoning : string)
| TComplete (now uuidMem nowMem chainId conclusion : string)
| TPause (chainId reason : string)
| TResume (chainId : string)
| TSwitchMode (mode : CognitiveMode) (chainId : option string).

Definition trackerExec (op : TrackerOp) (s : ThinkingProcess.t)
    : bool * ThinkingProcess.t :=
  match op with
  | TStart uuid now goal context =>
      let r := ThinkingProcess.startThoughtProcess uuid now goal context s in
      (success (fst r), snd r)
  | TAddThought uuid now chainId thought type parent confidence =>
      let r := ThinkingProcess.addThought uuid now chainId thought type parent
                 confidence s in
      (success (fst r), snd r)
  | TBranch uc nc ut nt thoughtId newThought type confidence =>
      let r := ThinkingProcess.branchThought uc nc ut nt thoughtId newThought
                 type confidence s in
      (success (fst r), snd r)
  | TEvaluate now thoughtId confidence reasoning =>
      let r := ThinkingProcess.evaluateThought now thoughtId confidence reasoning s in
      (success (fst r), snd r)
  | TComplete now uuidMem nowMem chainId conclusion =>
      let r := ThinkingProcess.completeThoughtProcess now uuidMem nowMem chainId
                 conclusion s in
      (success (fst r), snd r)
  | TPause chainId reason =>
      let r := ThinkingProcess.pauseThinking chainId reason s in
      (success (fst r), snd r)
  | TResume chainId =>
      let r := ThinkingProcess.resumeThinking chainId s in (success (fst r), snd r)
  | TSwitchMode mode chainId =>
      let r := ThinkingProcess.switchCognitiveMode mode chainId s in
      (success (fst r), snd r)
  end.

Definition trackerStep (s : ThinkingProcess.t) (op : TrackerOp) : ThinkingProcess.t :=
  snd (trackerExec op s).

Definition trackerRun (ops : list TrackerOp) (s : ThinkingProcess.t)
    : ThinkingProcess.t :=
  fold_left trackerStep ops s.

(** The chain identifiers an operation draws from [uuidv4()] are new. *)
Definition drawsFreshChainId (op : TrackerOp) (s : ThinkingProcess.t) : Prop :=
  match op with
  | TStart uuid _ _ _ => ThinkingProcess.chains s !! uuid = None
  | TBranch uuidChain _ _ _ _ _ _ _ => ThinkingProcess.chains s !! uuidChain = None
  | _ => True
  end.

Fixpoint freshRun (ops : list TrackerOp) (s : ThinkingProcess.t) : Prop :=
  match ops with
  | [] => True
  | op :: rest => drawsFreshChainId op s /\ freshRun rest (trackerStep s op)
  end.

Definition pausesChain (chainId : string) (op : TrackerOp) : bool :=
  match op with
  | TPause c _ => String.eqb c chainId
  | _ => false
  end.

Definition statusOf (chainId : string) (s : ThinkingProcess.t) : option ChainStatus :=
  ch_status <$> (ThinkingProcess.chains s !! chainId).

(** The status changes one operation can make to the chain [c]. *)
Inductive transition (c : string) (op : TrackerOp) : ChainStatus -> ChainStatus -> Prop :=
| transition_none st : transition c op st st
| transition_complete st now uuidMem nowMem conclusion :
    op = TComplete now uuidMem nowMem c conclusion -> transition c op st completed
| transition_pause st reason :
    op = TPause c reason -> transition c op st paused
| transition_resume :
    op = TResume c -> transition c op paused active.

(** The operations whose every check precedes their first assignment. *)
Definition validatesFirst (op : TrackerOp) : bool :=
  match op with
  | TBranch _ _ _ _ _ _ _ _ | TSwitchMode _ _ => false
  | _ => true
  end.

(** ** Vocabulary of the further properties *)

Definition memoryStep {engine : Js.Engine} (s : LongTermMemory.t) (op : MemoryOp) : LongTermMemory.t :=
  snd (memoryExec op s).

Definition memoryRun {engine : Js.Engine} (ops : list MemoryOp) (s : LongTermMemory.t) : LongTermMemory.t :=
  fold_left memoryStep ops s.

(** The two operations that do not validate what they leave in the
    association lists: [delete] and [loadNodes]. *)
Definition unvalidated (op : MemoryOp) : bool :=
  match op with
  | MDelete _ | MLoadNodes _ => true
  | _ => false
  end.

(** The last [n] elements of a list. *)
Definition lastN {A} (n : nat) (l : list A) : list A := drop (length l - n) l.

(** The operations of the short-term memory as commands. *)
Inductive ScratchOp :=
| SAdd (now : Z) (txt : string)
| SClear
| SSetCapacity (newCapacity : Z).

Definition scratchStep (s : ShortTermMemory.t) (op : ScratchOp) : ShortTermMemory.t :=
  match op with
  | SAdd now txt => snd (ShortTermMemory.add now txt s)
  | SClear => snd (ShortTermMemory.clear s)
  | SSetCapacity n => snd (ShortTermMemory.setCapacity n s)
  end.

Definition scratchRun (ops : list ScratchOp) (s : ShortTermMemory.t)
    : ShortTermMemory.t :=
  fold_left scratchStep ops s.

(** The entries a sequence of [add] calls stores: the blank texts are
    refused, the others are trimmed. *)
Definition acceptedEntries (inputs : list (Z * string)) : list ShortTermMemoryEntry :=
  map (fun i => {| ste_text := Js.trim (snd i); ste_timestamp := fst i |})
      (List.filter (fun i => negb (Js.isBlank (snd i))) inputs).

Definition addAll (inputs : list (Z * string)) (s : ShortTermMemory.t)
    : ShortTermMemory.t :=
  scratchRun (map (fun i => SAdd (fst i) (snd i)) inputs) s.

(** Every identifier an operation draws from [uuidv4()] is new. *)
Definition drawsFreshIds (op : TrackerOp) (s : ThinkingProcess.t) : Prop :=
  match op with
  | TStart uuid _ _ _ => ThinkingProcess.chains s !! uuid = None
  | TAddThought uuid _ _ _ _ _ _ => ThinkingProcess.thoughts s !! uuid = None
  | TBranch uuidChain _ uuidThought _ _ _ _ _ =>
      ThinkingProcess.chains s !! uuidChain = None
      /\ ThinkingProcess.thoughts s !! uuidThought = None
  | _ => True
  end.

Fixpoint freshIdsRun (ops : list TrackerOp) (s : ThinkingProcess.t) : Prop :=
  match ops with
  | [] => True
  | op :: rest => drawsFreshIds op s /\ freshIdsRun rest (trackerStep s op)
  end.

(** Structure of the tracker's two maps: a chain and a thought are stored
    under their own ids, every thought listed by a chain is stored and
    names that chain as its owner, every branch of a chain is a stored
    chain, and every entry of [next_thoughts] is a stored thought. *)
Definition trackerLinked (s : ThinkingProcess.t) : Prop :=
  (forall k c, ThinkingProcess.chains s !! k = Some c -> ch_id c = k)
  /\ (forall k n, ThinkingProcess.thoughts s !! k = Some n -> th_id n = k)
  /\ (forall k c tid, ThinkingProcess.chains s !! k = Some c ->
         In tid (ch_thoughts c) ->
         exists n, ThinkingProcess.thoughts s !! tid = Some n
                   /\ th_parent_chain n = k)
  /\ (forall k c b, ThinkingProcess.chains s !! k = Some c ->
         In b (ch_branches c) -> is_Some (ThinkingProcess.chains s !! b))
  /\ (forall k n x, ThinkingProcess.thoughts s !! k = Some n ->
         In x (th_next_thoughts n) -> is_Some (ThinkingProcess.thoughts s !! x)).

(** [reasoning_depth] is the parent's depth plus one, and 0 without a
    parent. *)
Definition depthsConsistent (s : ThinkingProcess.t) : Prop :=
  forall k n, ThinkingProcess.thoughts s !! k = Some n ->
    match ThinkingProcess.given (th_previous_thought n) with
    | Some p => exists parent, ThinkingProcess.thoughts s !! p = Some parent
                  /\ th_reasoning_depth n = th_reasoning_depth parent + 1
    | None => th_reasoning_depth n = 0
    end.

Definition confidencesInRange (s : ThinkingProcess.t) : Prop :=
  forall k n, ThinkingProcess.thoughts s !! k = Some n ->
    (0 <= th_confidence n)%Q /\ (th_confidence n <= 1)%Q.

(** ** Sample states, built with the operations themselves *)

Module Sample.
Import LongTermMemory.

(** The lowering of the letters A to Z: what [toLowerCase] computes, on
    every engine, for a text within ASCII.  The examples lower such texts
    only. *)
Definition lowerAscii (c : ascii) : ascii :=
  let n := nat_of_ascii c in
  if ((65 <=? n)%nat && (n <=? 90)%nat) then ascii_of_nat (n + 32) else c.

Fixpoint toLowerAscii (s : string) : string :=
  match s with
  | EmptyString => EmptyString
  | String c s' => String (lowerAscii c) (toLowerAscii s')
  end.

Definition engine : Js.Engine := {| Js.toLowerCase := toLowerAscii |}.

(** Identifiers standing for four draws of [uuidv4()]. *)
Definition idA : string := "0000000a-0000-4000-8000-000000000000".
Definition idB : string := "0000000b-0000-4000-8000-000000000000".
Definition idC : string := "0000000c-0000-4000-8000-000000000000".
Definition idD : string := "0000000d-0000-4000-8000-000000000000".
Definition t0 : string := "2024-01-01T00:00:00.000Z".
Definition t1 : string := "2024-01-01T00:00:01.000Z".

Definition addTo (uuid txt : string) (assocs : list string) (s : t) : t :=
  snd (add uuid t0 txt assocs s).

(** add("x") -> A; add("y", [A, A]) -> B *)
Definition twiceReferenced : t :=
  addTo idB "y" [idA; idA] (addTo idA "x" [] new).

(** The line A -> B -> C. *)
Definition line : t :=
  addTo idA "a" [idB] (addTo idB "b" [idC] (addTo idC "c" [] new)).

(** A -> [B, C], B -> [C], C -> [D]: D is two hops from A. *)
Definition shortcut : t :=
  addTo idA "a" [idB; idC]
    (addTo idB "b" [idC] (addTo idC "c" [idD] (addTo idD "d" [] new))).

(** Two nodes whose text contains "mem". *)
Definition twoMatches : t :=
  addTo idB "memory two" [] (addTo idA "memory one" [] new).

(** A fresh tracker over the line graph; then one chain holding one
    thought. *)
Definition tracker0 : ThinkingProcess.t := ThinkingProcess.new line.

Definition trackerWithThought : ThinkingProcess.t :=
  trackerRun
    [TStart idA t0 "find the cause" None;
     TAddThought idB t0 idA "logs show a timeout" observation None None]
    tracker0.

(** Two chains; the second one's thought is [idD]. *)
Definition trackerTwoChains : ThinkingProcess.t :=
  trackerRun
    [TStart idA t0 "first goal" None;
     TStart idC t0 "second goal" None;
     TAddThought idD t0 idC "a thought of the second chain" analysis None None]
    tracker0.

Definition disk0 : StorageManager.Disk :=
  {| StorageManager.memoryFile := Some "old";
     StorageManager.backupFile := None;
     StorageManager.lockFile := None |}.

Definition lockedAt (mtime : Z) : StorageManager.Disk :=
  StorageManager.with_lock
    (Some {| StorageManager.lock_content := mtime;
             StorageManager.lock_mtimeMs := mtime |}) disk0.

Definition manager : StorageManager.t :=
  {| StorageManager.enableBackup := true;
     StorageManager.pendingSave := false;
     StorageManager.autoSaveTimer := None |}.

(** A stand-in for [JSON.stringify] in the examples. *)
Definition countNodes (m : JsMap LongTermMemoryNode) : string :=
  if (length m =? 0)%nat then "{}" else "{...}".

(** A stand-in for [JSON.parse] that reads back what [countNodes] prints
    for the empty graph and for the line graph. *)
Definition readCount (data : string)
    : string + option (JsMap LongTermMemoryNode) :=
  if String.eqb data "{}" then inr (Some [])
  else if String.eqb data "{...}" then inr (Some (nodes line))
  else if String.eqb data "[]" then inr None
  else inl "Unexpected token".

Definition noSuchFile : string := "ENOENT: no such file or directory".

(** A facade that has been initialised and holds the line graph, dirty. *)
Definition brainOverLine : BrainMCP.t :=
  BrainMCP.withStorage manager true
    (BrainMCP.withLongTermMemory line
       (BrainMCP.new "/srv/memory_data"
          {| p_shortTermCapacity := None; p_storagePath := None;
             p_autoSaveInterval := None; p_searchLimit := None;
             p_maxAssociationDepth := None; p_enableBackup := None |})).

Definition emptyDisk : StorageManager.Disk :=
  {| StorageManager.memoryFile := None;
     StorageManager.backupFile := None;
     StorageManager.lockFile := None |}.

(** [new BrainMCP()], before [init]. *)
Definition freshBrain : BrainMCP.t :=
  BrainMCP.new "/srv/memory_data"
    {| p_shortTermCapacity := None; p_storagePath := None;
       p_autoSaveInterval := None; p_searchLimit := None;
       p_maxAssociationDepth := None; p_enableBackup := None |}.

(** No primary file, but a backup holding the line graph. *)
Definition backupOnly : StorageManager.Disk :=
  {| StorageManager.memoryFile := None;
     StorageManager.backupFile := Some "{...}";
     StorageManager.lockFile := None |}.
End Sample.

(** * Properties of the JavaScript helpers *)

Section JsMapFacts.
Context {V : Type}.
Implicit Types (m : JsMap V) (k : string) (v : V).

Lemma map_get_set_eq k v m : map_get k (map_set k v m) = Some v.
Proof.
  induction m as [|[k' v'] m IH]; simpl.
  - now rewrite String.eqb_refl.
  - destruct (String.eqb_spec k' k) as [->|Hne]; simpl.
    + now rewrite String.eqb_refl.
    + destruct (String.eqb_spec k' k); [contradiction|exact IH].
Qed.

Lemma map_get_set_ne k k' v m :
  k <> k' -> map_get k' (map_set k v m) = map_get k' m.
Proof.
  intros Hne. induction m as [|[k0 v0] m IH]; simpl.
  - destruct (String.eqb_spec k k'); [contradiction|reflexivity].
  - destruct (String.eqb_spec k0 k) as [->|Hk]; simpl.
    + destruct (String.eqb_spec k k'); [contradiction|reflexivity].
    + destruct (String.eqb_spec k0 k'); [reflexivity|exact IH].
Qed.

Lemma map_set_fresh k v m :
  map_get k m = None -> map_set k v m = m ++ [(k, v)].
Proof.
  induction m as [|[k0 v0] m IH]; simpl; intros H; [reflexivity|].
  destruct (String.eqb_spec k0 k); [discriminate|].
  now rewrite IH.
Qed.

Lemma map_keys_set k v m :
  map_keys (map_set k v m) =
  if map_has k m then map_keys m else map_keys m ++ [k].
Proof.
  unfold map_has. induction m as [|[k0 v0] m IH]; simpl; [reflexivity|].
  destruct (String.eqb_spec k0 k) as [->|Hk]; simpl; [reflexivity|].
  rewrite IH. now destruct (map_get k m).
Qed.

Lemma map_get_Some_In k v m : map_get k m = Some v -> In (k, v) m.
Proof.
  induction m as [|[k0 v0] m IH]; simpl; [discriminate|].
  destruct (String.eqb_spec k0 k) as [->|Hk].
  - intros [= ->]. now left.
  - intros H. right. now apply IH.
Qed.

Lemma map_get_None_keys k m : map_get k m = None <-> ~ In k (map_keys m).
Proof.
  induction m as [|[k0 v0] m IH]; simpl; [tauto|].
  destruct (String.eqb_spec k0 k) as [->|Hk].
  - split; [discriminate|]. intros H. exfalso. apply H. now left.
  - rewrite IH. tauto.
Qed.

Lemma map_has_keys k m : map_has k m = true <-> In k (map_keys m).
Proof.
  unfold map_has. destruct (map_get k m) eqn:E.
  - split; [|reflexivity]. intros _.
    apply map_get_Some_In in E. unfold map_keys.
    apply in_map_iff. now exists (k, v).
  - split; [discriminate|]. intros H. now apply map_get_None_keys in E.
Qed.

Lemma map_has_false_keys k m : map_has k m = false <-> ~ In k (map_keys m).
Proof.
  rewrite <- map_has_keys. destruct (map_has k m); split; congruence.
Qed.

Lemma map_get_In_wf k v m : map_wf m -> In (k, v) m -> map_get k m = Some v.
Proof.
  unfold map_wf, map_keys.
  induction m as [|[k0 v0] m IH]; simpl; [tauto|].
  intros Hnd [H|H].
  - injection H as -> ->. now rewrite String.eqb_refl.
  - apply NoDup_cons in Hnd as [Hnot Hnd].
    destruct (String.eqb_spec k0 k) as [->|Hk].
    + exfalso. apply Hnot. apply list_elem_of_In, in_map_iff. now exists (k, v).
    + now apply IH.
Qed.

Lemma map_get_delete_ne k k' m :
  k <> k' -> map_get k' (map_delete k m) = map_get k' m.
Proof.
  intros Hne. induction m as [|[k0 v0] m IH]; simpl; [reflexivity|].
  destruct (String.eqb_spec k0 k) as [->|Hk]; simpl.
  - destruct (String.eqb_spec k k'); [contradiction|reflexivity].
  - destruct (String.eqb_spec k0 k'); [reflexivity|exact IH].
Qed.

Lemma map_get_delete_eq k m : map_wf m -> map_get k (map_delete k m) = None.
Proof.
  unfold map_wf, map_keys.
  induction m as [|[k0 v0] m IH]; simpl; intros Hnd; [reflexivity|].
  apply NoDup_cons in Hnd as [Hnot Hnd].
  destruct (String.eqb_spec k0 k) as [->|Hk]; simpl.
  - apply map_get_None_keys. intros H. apply Hnot. now apply list_elem_of_In.
  - destruct (String.eqb_spec k0 k); [contradiction|]. now apply IH.
Qed.

Lemma map_delete_In k k' v m : In (k', v) (map_delete k m) -> In (k', v) m.
Proof.
  induction m as [|[k0 v0] m IH]; simpl; [tauto|].
  destruct (String.eqb_spec k0 k); simpl; intuition.
Qed.
End JsMapFacts.

Section StringFacts.

Lemma prefix_iff_append (term txt : string) :
  String.prefix term txt = true <-> exists post, txt = term +:+ post.
Proof.
  revert txt. induction term as [|a term IH]; intros txt; simpl.
  - split; [intros _; now exists txt | now destruct txt].
  - destruct txt as [|b txt]; simpl.
    + split; [discriminate | intros [post H]; discriminate].
    + destruct (ascii_dec a b) as [->|Hab].
      * rewrite IH. split; intros [post H]; exists post.
        -- now rewrite H.
        -- now injection H.
      * split; [discriminate|]. intros [post H]. injection H as H1 _.
        congruence.
Qed.

(** [includes] decides literal substring containment. *)
Lemma includes_occursIn (txt term : string) :
  Js.includes txt term = true <-> occursIn term txt.
Proof.
  unfold occursIn. induction txt as [|c txt IH]; cbn [Js.includes].
  - rewrite orb_false_r, prefix_iff_append. split.
    + intros [post H]. now exists EmptyString, post.
    + intros [[|c pre] [post H]]; [now exists post | discriminate].
  - rewrite orb_true_iff, prefix_iff_append, IH. split.
    + intros [[post H]|[pre [post H]]].
      * now exists EmptyString, post.
      * exists (String c pre), post. simpl. now rewrite H.
    + intros [[|c' pre] [post H]].
      * left. now exists post.
      * right. simpl in H. injection H as _ H. now exists pre, post.
Qed.

(** A byte below C2 begins no white space of two or three bytes. *)
Lemma low_byte_whiteSpace2 c c2 :
  (Js.byteOf c <? 194)%N = true -> Js.isWhiteSpace2 c c2 = false.
Proof.
  intros Hlow. apply N.ltb_lt in Hlow. unfold Js.isWhiteSpace2.
  destruct (N.eqb_spec (Js.byteOf c) 194); [lia|reflexivity].
Qed.

Lemma low_byte_whiteSpace3 c c2 c3 :
  (Js.byteOf c <? 194)%N = true -> Js.isWhiteSpace3 c c2 c3 = false.
Proof.
  intros Hlow. apply N.ltb_lt in Hlow. unfold Js.isWhiteSpace3. cbv zeta.
  destruct (N.eqb_spec (Js.byteOf c) 225); [lia|].
  destruct (N.eqb_spec (Js.byteOf c) 226); [lia|].
  destruct (N.eqb_spec (Js.byteOf c) 227); [lia|].
  destruct (N.eqb_spec (Js.byteOf c) 239); [lia|reflexivity].
Qed.

Lemma trimStart_visible_head c s :
  Js.isWhiteSpace c = false -> (Js.byteOf c <? 194)%N = true ->
  Js.trimStart (String c s) = String c s.
Proof.
  intros Hc Hlow. cbn [Js.trimStart]. rewrite Hc.
  destruct s as [|c2 [|c3 s]]; [reflexivity| |].
  - now rewrite (low_byte_whiteSpace2 _ _ Hlow).
  - now rewrite (low_byte_whiteSpace2 _ _ Hlow), (low_byte_whiteSpace3 _ _ _ Hlow).
Qed.

Lemma trimEnd_nonblank_head c s :
  Js.isWhiteSpace c = false -> (Js.byteOf c <? 194)%N = true ->
  Js.trimEnd (String c s) <> EmptyString.
Proof.
  intros Hc Hlow. cbn [Js.trimEnd].
  destruct (Js.trimEnd s) as [|c2 [|c3 [|c4 t]]].
  - now rewrite Hc.
  - now rewrite (low_byte_whiteSpace2 _ _ Hlow).
  - now rewrite (low_byte_whiteSpace3 _ _ _ Hlow).
  - discriminate.
Qed.

(** A text that starts with a visible ASCII character is not blank. *)
Lemma isBlank_visible_head c s :
  Js.isWhiteSpace c = false -> (Js.byteOf c <? 194)%N = true ->
  Js.isBlank (String c s) = false.
Proof.
  intros Hc Hlow. unfold Js.isBlank, Js.trim.
  rewrite (trimStart_visible_head _ _ Hc Hlow).
  pose proof (trimEnd_nonblank_head c s Hc Hlow) as H.
  destruct (Js.trimEnd (String c s)); [contradiction|reflexivity].
Qed.

Lemma spliceFirst_count x l :
  count_occ string_dec (Js.spliceFirst x l) x = pred (count_occ string_dec l x).
Proof.
  induction l as [|y l IH]; simpl; [reflexivity|].
  destruct (String.eqb_spec y x) as [->|Hne].
  - destruct (string_dec x x); [reflexivity|contradiction].
  - simpl. destruct (string_dec y x); [contradiction|exact IH].
Qed.

Lemma spliceFirst_In x y l : In y (Js.spliceFirst x l) -> In y l.
Proof.
  induction l as [|z l IH]; simpl; [tauto|].
  destruct (String.eqb_spec z x); simpl; intuition.
Qed.

Lemma spliceFirst_In_other x y l :
  y <> x -> In y l -> In y (Js.spliceFirst x l).
Proof.
  intros Hne. induction l as [|z l IH]; simpl; [tauto|].
  destruct (String.eqb_spec z x) as [->|Hz]; simpl; intuition congruence.
Qed.

(** One occurrence at most: none is left. *)
Lemma spliceFirst_removes_single x l :
  (count_occ string_dec l x <= 1)%nat -> ~ In x (Js.spliceFirst x l).
Proof.
  intros Hc Hin.
  apply (count_occ_In string_dec) in Hin.
  rewrite spliceFirst_count in Hin. lia.
Qed.

Lemma uuid_is_no_thought_tag i : isUuidV4 ("thought:" +:+ i) = false.
Proof. reflexivity. Qed.

End StringFacts.

(** * The memory graph *)

Section MemoryGraphFacts.
Import LongTermMemory.
Implicit Types (s : t) (m : JsMap LongTermMemoryNode).

Lemma unknownAssociation_None m assocs :
  unknownAssociation m assocs = None <->
  forall a, In a assocs -> map_has a m = true.
Proof.
  unfold unknownAssociation. split.
  - intros H a Ha. pose proof (find_none _ _ H a Ha) as Hn. simpl in Hn.
    now destruct (map_has a m).
  - intros H. induction assocs as [|a assocs IH]; simpl; [reflexivity|].
    rewrite (H a (or_introl eq_refl)). simpl.
    apply IH. intros b Hb. apply H. now right.
Qed.

Lemma unknownAssociation_Some m assocs :
  (exists a, In a assocs /\ map_has a m = false) ->
  exists b, unknownAssociation m assocs = Some b.
Proof.
  intros [a [Ha Hm]]. destruct (unknownAssociation m assocs) as [b|] eqn:E.
  - now exists b.
  - rewrite unknownAssociation_None in E. rewrite (E a Ha) in Hm. discriminate.
Qed.

(** A failed [add] returns the state it was given. *)
Lemma add_failure_keeps_state uuid now txt assocs s :
  success (fst (add uuid now txt assocs s)) = false ->
  snd (add uuid now txt assocs s) = s.
Proof.
  unfold add. destruct (Js.isBlank txt); [reflexivity|].
  destruct (unknownAssociation (nodes s) assocs); [reflexivity|discriminate].
Qed.

(** C5: [add] with an association id that is not in the node map fails
    and returns the very state it received (node map, node count, every
    node and the dirty flag as they were); with a text that is not empty
    in the sense of the source's test ([isBlank]), known association ids
    and a new identifier from [uuidv4()], it appends exactly one node
    under that identifier and returns the identifier. *)
Theorem add_is_all_or_nothing uuid now txt assocs s :
  ((exists a, In a assocs /\ map_has a (nodes s) = false) ->
   exists err, add uuid now txt assocs s = (Failure err, s))
  /\
  (Js.isBlank txt = false ->
   (forall a, In a assocs -> map_has a (nodes s) = true) ->
   map_has uuid (nodes s) = false ->
   let node := {| id := uuid; text := Js.trim txt; associations := assocs;
                  metadata := {| createdAt := now; lastAccessed := now;
                                 accessCount := 0 |} |} in
   let s' := snd (add uuid now txt assocs s) in
   fst (add uuid now txt assocs s) = Success uuid
   /\ nodes s' = nodes s ++ [(uuid, node)]
   /\ getCount s' = S (getCount s)
   /\ isDirty s' = true).
Proof.
  split.
  - intros Hex. unfold add. destruct (Js.isBlank txt); [eauto|].
    destruct (unknownAssociation_Some _ _ Hex) as [b ->]. eauto.
  - intros Htxt Hknown Hfresh node s'. subst s'. unfold add.
    rewrite Htxt.
    apply unknownAssociation_None in Hknown. rewrite Hknown. simpl.
    assert (Hget : map_get uuid (nodes s) = None).
    { unfold map_has in Hfresh. now destruct (map_get uuid (nodes s)). }
    rewrite (map_set_fresh _ _ _ Hget).
    repeat split. unfold getCount, map_size. cbn [nodes].
    rewrite length_app. simpl. lia.
Qed.

(** An instance: on the graph holding A alone, add("y", [C]) is refused and
    add("y", [A]) returns the new id. *)
Lemma add_is_all_or_nothing_witness :
  (exists err,
     add Sample.idB Sample.t0 "y" [Sample.idC] (Sample.addTo Sample.idA "x" [] new)
     = (Failure err, Sample.addTo Sample.idA "x" [] new))
  /\ fst (add Sample.idB Sample.t0 "y" [Sample.idA]
            (Sample.addTo Sample.idA "x" [] new)) = Success Sample.idB.
Proof.
  split.
  - apply (add_is_all_or_nothing Sample.idB Sample.t0 "y" [Sample.idC]).
    exists Sample.idC. split; [now left|reflexivity].
  - apply (add_is_all_or_nothing Sample.idB Sample.t0 "y" [Sample.idA]).
    + reflexivity.
    + intros a [<-|[]]. reflexivity.
    + reflexivity.
Defined.

End MemoryGraphFacts.

Section DeleteFacts.
Import LongTermMemory.
Implicit Types (s : t) (m : JsMap LongTermMemoryNode).

Lemma map_keys_stripFirst x m : map_keys (map (stripFirst x) m) = map_keys m.
Proof.
  unfold map_keys. rewrite map_map. apply map_ext. now intros [k n].
Qed.

Lemma map_get_stripFirst x k m :
  map_get k (map (stripFirst x) m) =
  option_map (fun n => set_associations n (Js.spliceFirst x (associations n)))
             (map_get k m).
Proof.
  induction m as [|[k0 n0] m IH]; simpl; [reflexivity|].
  now destruct (String.eqb k0 k).
Qed.

Lemma map_has_stripFirst x k m : map_has k (map (stripFirst x) m) = map_has k m.
Proof.
  unfold map_has. rewrite map_get_stripFirst. now destruct (map_get k m).
Qed.

(** [delete] of a stored node succeeds, marks the store dirty and removes
    the key. *)
Lemma delete_removes_node x s :
  map_wf (nodes s) -> map_has x (nodes s) = true ->
  fst (delete x s) = Success tt
  /\ map_get x (nodes (snd (delete x s))) = None
  /\ isDirty (snd (delete x s)) = true.
Proof.
  intros Hwf Hhas. unfold delete. rewrite Hhas. simpl. repeat split.
  apply map_get_delete_eq. unfold map_wf. now rewrite map_keys_stripFirst.
Qed.

Lemma delete_failure_keeps_state x s :
  success (fst (delete x s)) = false -> snd (delete x s) = s.
Proof.
  unfold delete. destruct (map_has x (nodes s)); simpl; [discriminate|reflexivity].
Qed.

(** Where no association list holds [x] twice, no reference to [x]
    survives its deletion. *)
Lemma delete_strips_single_references x s :
  (forall k n, In (k, n) (nodes s) ->
               (count_occ string_dec (associations n) x <= 1)%nat) ->
  map_has x (nodes s) = true ->
  ~ referenced x (nodes (snd (delete x s))).
Proof.
  intros Hone Hhas [k [n [Hin Hx]]]. unfold delete in Hin. rewrite Hhas in Hin.
  simpl in Hin. apply map_delete_In in Hin.
  apply in_map_iff in Hin as [[k0 n0] [Heq Hin]].
  injection Heq as <- <-. simpl in Hx.
  now apply (spliceFirst_removes_single x (associations n0) (Hone _ _ Hin)).
Qed.

(** ... and a reference-consistent graph stays reference-consistent. *)
Lemma delete_keeps_consistency x s :
  (forall k n, In (k, n) (nodes s) ->
               (count_occ string_dec (associations n) x <= 1)%nat) ->
  referenceConsistent (nodes s) ->
  map_has x (nodes s) = true ->
  referenceConsistent (nodes (snd (delete x s))).
Proof.
  intros Hone Hcons Hhas k n a Hin Ha.
  assert (Hax : a <> x).
  { intros ->. apply (delete_strips_single_references x s Hone Hhas).
    now exists k, n. }
  unfold delete in *. rewrite Hhas in *. simpl in *.
  apply map_delete_In in Hin.
  apply in_map_iff in Hin as [[k0 n0] [Heq Hin]].
  injection Heq as <- <-. simpl in Ha. apply spliceFirst_In in Ha.
  unfold map_has. rewrite map_get_delete_ne by congruence.
  fold (map_has a (map (stripFirst x) (nodes s))).
  rewrite map_has_stripFirst. now apply (Hcons k0 n0).
Qed.

(** C1 (the code departs from it): in the graph left by add("x") -> A and
    add("y", [A, A]) -> B, delete(A) succeeds and removes A from the node
    map, but B still lists A once: only the first occurrence found by
    [indexOf] is spliced out, so a reference to the deleted node survives
    and the graph is no longer reference-consistent. *)
Theorem delete_leaves_duplicate_reference :
  let s' := snd (delete Sample.idA Sample.twiceReferenced) in
  (exists b, map_get Sample.idB (nodes Sample.twiceReferenced) = Some b
             /\ associations b = [Sample.idA; Sample.idA])
  /\ fst (delete Sample.idA Sample.twiceReferenced) = Success tt
  /\ map_get Sample.idA (nodes s') = None
  /\ (exists b, map_get Sample.idB (nodes s') = Some b
                /\ associations b = [Sample.idA])
  /\ referenced Sample.idA (nodes s')
  /\ ~ referenceConsistent (nodes s').
Proof.
  cbv zeta. repeat split.
  - eexists. split; reflexivity.
  - eexists. split; reflexivity.
  - eexists _, _. split; [left; reflexivity|]. now left.
  - intros H.
    specialize (H Sample.idB _ Sample.idA (or_introl eq_refl) (or_introl eq_refl)).
    vm_compute in H. discriminate.
Qed.

End DeleteFacts.

Section DirtyFlagFacts.
Import LongTermMemory.
Context {engine : Js.Engine}.

(** C9, as stated, fails: [loadNodes] is not [markClean] and clears a set
    flag. *)
Lemma loadNodes_clears_dirty_flag :
  ~ (forall op s, op <> MMarkClean -> isDirty s = true ->
                  isDirty (snd (@memoryExec Sample.engine op s)) = true).
Proof.
  intros H.
  specialize (H (MLoadNodes []) Sample.twiceReferenced).
  simpl in H. discriminate H; [discriminate|reflexivity].
Qed.

(** C9, amended: a successful add, get, update or delete leaves the dirty
    flag set; [markClean] and [loadNodes] always leave it cleared; every
    other operation, successful or not, leaves a set flag set. *)
Theorem dirty_flag_cleared_only_by_markClean_and_loadNodes op s :
  (isMutator op = true -> fst (memoryExec op s) = true ->
   isDirty (snd (memoryExec op s)) = true)
  /\ (clearsFlag op = true -> isDirty (snd (memoryExec op s)) = false)
  /\ (clearsFlag op = false -> isDirty s = true ->
      isDirty (snd (memoryExec op s)) = true).
Proof.
  repeat split.
  - destruct op; simpl; try discriminate; intros _.
    + unfold add. destruct (Js.isBlank txt); [discriminate|].
      destruct (unknownAssociation (nodes s) assocs); [discriminate|reflexivity].
    + unfold get. destruct (map_get ident (nodes s)); [|discriminate].
      now destruct (getAssociatedNodes _ _ _).
    + unfold update. destruct (map_get ident (nodes s)); [|discriminate].
      destruct newText as [nt|];
        [destruct (String.length (Js.trim nt) =? 0)%nat; [discriminate|]|];
        (destruct newAssociations as [na|];
         [destruct (unknownAssociation _ na); [discriminate|reflexivity]
         |reflexivity]).
    + unfold delete. destruct (map_has ident (nodes s)); [reflexivity|discriminate].
  - destruct op; simpl; try discriminate; reflexivity.
  - destruct op; simpl; try discriminate; intros _ Hd; try exact Hd.
    + unfold add. destruct (Js.isBlank txt); [exact Hd|].
      destruct (unknownAssociation (nodes s) assocs); [exact Hd|reflexivity].
    + unfold get. destruct (map_get ident (nodes s)); [|exact Hd].
      now destruct (getAssociatedNodes _ _ _).
    + unfold update. destruct (map_get ident (nodes s)); [|exact Hd].
      destruct newText as [nt|];
        [destruct (String.length (Js.trim nt) =? 0)%nat; [exact Hd|]|];
        (destruct newAssociations as [na|];
         [destruct (unknownAssociation _ na); [exact Hd|reflexivity]
         |reflexivity]).
    + unfold delete. destruct (map_has ident (nodes s)); [reflexivity|exact Hd].
Qed.

End DirtyFlagFacts.

(** An instance on a dirty graph: delete keeps the flag, markClean clears
    it, search keeps it. *)
Lemma dirty_flag_cleared_only_by_markClean_and_loadNodes_witness :
  let exec := memoryExec (engine := Sample.engine) in
  LongTermMemory.isDirty (snd (exec (MDelete Sample.idA) Sample.twiceReferenced)) = true
  /\ LongTermMemory.isDirty (snd (exec MMarkClean Sample.twiceReferenced)) = false
  /\ LongTermMemory.isDirty
       (snd (exec (MSearch "x" None None) Sample.twiceReferenced)) = true.
Proof.
  cbv zeta. split; [|split].
  - apply (dirty_flag_cleared_only_by_markClean_and_loadNodes
             (engine := Sample.engine)
             (MDelete Sample.idA) Sample.twiceReferenced); reflexivity.
  - apply (dirty_flag_cleared_only_by_markClean_and_loadNodes
             (engine := Sample.engine)
             MMarkClean Sample.twiceReferenced); reflexivity.
  - apply (dirty_flag_cleared_only_by_markClean_and_loadNodes
             (engine := Sample.engine)
             (MSearch "x" None None) Sample.twiceReferenced); reflexivity.
Defined.

Section SearchFacts.
Import LongTermMemory.
Context {engine : Js.Engine}.

Lemma searchLoop_take keyword (cs : bool) limit ns acc :
  (length acc < effectiveLimit limit)%nat ->
  searchLoop (if cs then keyword else Js.toLowerCase keyword) cs limit ns acc =
  acc ++ take (effectiveLimit limit - length acc)
              (map toSearchResult (List.filter (nodeMatches keyword cs) ns)).
Proof.
  unfold effectiveLimit. revert acc.
  induction ns as [|n ns IH]; intros acc Hlt; simpl.
  - now rewrite take_nil, app_nil_r.
  - assert (Hm : Js.includes (if cs then text n else Js.toLowerCase (text n))
                   (if cs then keyword else Js.toLowerCase keyword)
                 = nodeMatches keyword cs n).
    { unfold nodeMatches. now destruct cs. }
    rewrite Hm. destruct (nodeMatches keyword cs n); simpl.
    + rewrite length_app. simpl length.
      destruct (Z.leb_spec limit (Z.of_nat (length acc + 1))) as [Hle|Hgt].
      * replace (Z.to_nat (Z.max 1 limit) - length acc)%nat with 1%nat by lia.
        simpl. now rewrite take_0.
      * rewrite IH by (rewrite length_app; simpl; lia).
        rewrite length_app. simpl length.
        replace (Z.to_nat (Z.max 1 limit) - length acc)%nat
          with (S (Z.to_nat (Z.max 1 limit) - (length acc + 1)))%nat by lia.
        simpl. now rewrite <- app_assoc.
    + now apply IH.
Qed.

(** For a keyword that passes validation, [search] returns the leading
    matches in iteration order: [limit] of them when [limit] is at least
    1, and one of them otherwise. *)
Lemma search_returns_leading_matches keyword limitOpt csOpt s :
  Js.isBlank keyword = false ->
  search keyword limitOpt csOpt s =
  Success (take (effectiveLimit (default 10 limitOpt))
                (allMatches keyword (default false csOpt) (nodes s))).
Proof.
  intros Hk. unfold search, allMatches. rewrite Hk.
  rewrite searchLoop_take.
  - simpl. now rewrite Nat.sub_0_r.
  - unfold effectiveLimit. simpl. lia.
Qed.

(** With a limit of at least 1 the result is exactly the first [limit]
    matches, hence at most [limit] entries. *)
Lemma search_respects_positive_limit keyword limit csOpt s :
  Js.isBlank keyword = false -> 1 <= limit ->
  search keyword (Some limit) csOpt s =
  Success (take (Z.to_nat limit)
                (allMatches keyword (default false csOpt) (nodes s))).
Proof.
  intros Hk Hl. rewrite search_returns_leading_matches by assumption.
  unfold effectiveLimit. simpl. now rewrite Z.max_r by lia.
Qed.

End SearchFacts.

(** C6 (the code departs from it): with two stored nodes that contain
    "mem" and limit 0, [search] returns one entry, the first match, where
    at most 0 entries are promised; the same happens for every limit
    below 1. *)
Theorem search_with_limit_zero_returns_a_match :
  let search := LongTermMemory.search (engine := Sample.engine) in
  let allMatches := allMatches (engine := Sample.engine) in
  allMatches "mem" false (LongTermMemory.nodes Sample.twoMatches) =
    [ {| sr_id := Sample.idA; sr_text := "memory one" |};
      {| sr_id := Sample.idB; sr_text := "memory two" |} ]
  /\ search "mem" (Some 0) None Sample.twoMatches =
       Success [ {| sr_id := Sample.idA; sr_text := "memory one" |} ]
  /\ search "mem" (Some (-3)) (Some true) Sample.twoMatches =
       Success [ {| sr_id := Sample.idA; sr_text := "memory one" |} ]
  /\ search "mem" (Some 1) None Sample.twoMatches =
       Success [ {| sr_id := Sample.idA; sr_text := "memory one" |} ]
  /\ search "MEM" (Some 5) None Sample.twoMatches =
       Success (allMatches "mem" false (LongTermMemory.nodes Sample.twoMatches)).
Proof. cbv zeta. repeat split. Qed.

Section TraversalFacts.
Import LongTermMemory.
Variable m : JsMap LongTermMemoryNode.
Variable root : string.
Variable depth : Z.

Local Abbreviation enter := (enterNode m root).
Local Abbreviation visitAll := (visitAll m root depth).

Lemma visitAll_None fuel cd ids : visitAll fuel cd ids None = None.
Proof. induction ids as [|a ids IH]; simpl; [reflexivity|exact IH]. Qed.

Lemma traverse_unfold fuel cur cd st :
  traverse m root depth (S fuel) cur cd st =
  if (depth <? cd) || bool_decide (cur ∈ visited st) then Some st
  else match map_get cur m with
       | None => Some (enter cur st)
       | Some node => visitAll fuel cd (associations node) (Some (enter cur st))
       end.
Proof.
  unfold enterNode, LongTermMemory.visitAll. simpl.
  destruct ((depth <? cd) || bool_decide (cur ∈ visited st)); [reflexivity|].
  now destruct (map_get cur m).
Qed.

(** The recursion bound is never the reason to stop: with as much fuel as
    there are levels left, [traverse] returns a state. *)
Lemma traverse_total fuel cur cd st :
  depth - cd + 1 <= Z.of_nat fuel ->
  exists st', traverse m root depth fuel cur cd st = Some st'.
Proof.
  revert cur cd st. induction fuel as [|fuel IH]; intros cur cd st Hf.
  - simpl. destruct (Z.ltb_spec depth cd); [|lia]. simpl. eauto.
  - rewrite traverse_unfold.
    destruct ((depth <? cd) || bool_decide (cur ∈ visited st)); [eauto|].
    destruct (map_get cur m) as [node|]; [|eauto].
    generalize (enter cur st). unfold LongTermMemory.visitAll.
    induction (associations node) as [|a l IHl]; intros st0; simpl; [eauto|].
    destruct (IH a (cd + 1) st0) as [st1 ->]; [lia|]. apply IHl.
Qed.

Lemma getAssociatedNodes_total :
  exists ns, getAssociatedNodes m root depth = Some ns.
Proof.
  unfold getAssociatedNodes.
  destruct (traverse_total (Z.to_nat (depth + 1)) root 0
              {| visited := []; result := [] |}) as [st ->]; [lia|].
  eauto.
Qed.

(** An invariant of the traversal state is kept by [traverse] when it is
    kept by each entry into a node that is within the depth bound and not
    yet visited; [Q] is a property of the (node, depth) pairs the
    traversal is called on, passed along the association edges. *)
Lemma traverse_invariant (Inv : Trav -> Prop) (Q : string -> Z -> Prop) :
  (forall cur cd st,
      Inv st -> Q cur cd -> cd <= depth -> ~ In cur (visited st) ->
      Inv (enter cur st)) ->
  (forall cur cd node a,
      Q cur cd -> cd <= depth -> map_get cur m = Some node ->
      In a (associations node) -> Q a (cd + 1)) ->
  forall fuel cur cd st st',
    Q cur cd -> Inv st ->
    traverse m root depth fuel cur cd st = Some st' -> Inv st'.
Proof.
  intros Henter Hedge. induction fuel as [|fuel IH]; intros cur cd st st' HQ HI.
  - simpl. destruct ((depth <? cd) || bool_decide (cur ∈ visited st));
      [now intros [= <-]|discriminate].
  - rewrite traverse_unfold.
    destruct (Z.ltb_spec depth cd) as [Hd|Hd]; simpl; [now intros [= <-]|].
    destruct (bool_decide_reflect (cur ∈ visited st)) as [Hv|Hv];
      [now intros [= <-]|].
    assert (Hnv : ~ In cur (visited st)) by (now rewrite <- list_elem_of_In).
    pose proof (Henter cur cd st HI HQ Hd Hnv) as HI'.
    destruct (map_get cur m) as [node|] eqn:Eg; [|now intros [= <-]].
    pose proof (fun a => Hedge cur cd node a HQ Hd Eg) as Hnext.
    revert HI' Hnext. generalize (enter cur st). unfold LongTermMemory.visitAll.
    induction (associations node) as [|a l IHl]; intros st0 HI0 Hnext; simpl.
    + now intros [= <-].
    + destruct (traverse m root depth fuel a (cd + 1) st0) as [st1|] eqn:Et.
      * apply IHl.
        -- eapply IH; [apply Hnext; now left|exact HI0|exact Et].
        -- intros b Hb. apply Hnext. now right.
      * fold (visitAll fuel cd l None). rewrite visitAll_None. discriminate.
Qed.

(** Soundness: whatever the traversal returns is a stored node other than
    the root, within [depth] hops of it. *)
Lemma getAssociatedNodes_sound ns :
  getAssociatedNodes m root depth = Some ns ->
  forall n, In n ns -> expectedNeighbour m root (Z.to_nat depth) n.
Proof.
  unfold getAssociatedNodes.
  destruct (traverse m root depth (Z.to_nat (depth + 1)) root 0
              {| visited := []; result := [] |}) as [st|] eqn:Et;
    [|discriminate].
  intros [= <-].
  apply (traverse_invariant
           (fun st => forall n, In n (result st) ->
                                expectedNeighbour m root (Z.to_nat depth) n)
           (fun cur cd => 0 <= cd /\ reach m (Z.to_nat cd) root cur))
    with (fuel := Z.to_nat (depth + 1)) (cur := root) (cd := 0)
         (st := {| visited := []; result := [] |}); [| | |easy|exact Et].
  - intros cur cd st0 HI [Hcd Hreach] Hd _ n. unfold enterNode. simpl.
    destruct (map_get cur m) as [node|] eqn:Eg; [|apply HI].
    destruct (String.eqb_spec cur root) as [->|Hne]; [apply HI|].
    rewrite in_app_iff. intros [Hin|[<-|[]]]; [now apply HI|].
    exists cur. split; [exact Eg|]. split; [exact Hne|].
    exists (Z.to_nat cd). split; [lia|exact Hreach].
  - intros cur cd node a [Hcd Hreach] _ Eg Ha. split; [lia|].
    replace (Z.to_nat (cd + 1)) with (S (Z.to_nat cd)) by lia.
    eapply reach_hop; [exact Hreach|]. now exists node.
  - split; [lia|]. apply reach_here.
Qed.

(** No node is returned twice: the result lists the nodes stored under
    pairwise distinct keys, none of them the root. *)
Lemma getAssociatedNodes_distinct ns :
  getAssociatedNodes m root depth = Some ns ->
  exists keys, NoDup keys /\ ~ In root keys
               /\ Forall2 (fun k n => map_get k m = Some n) keys ns.
Proof.
  unfold getAssociatedNodes.
  destruct (traverse m root depth (Z.to_nat (depth + 1)) root 0
              {| visited := []; result := [] |}) as [st|] eqn:Et;
    [|discriminate].
  intros [= <-].
  cut (exists keys, NoDup keys /\ ~ In root keys
                    /\ (forall k, In k keys -> In k (visited st))
                    /\ Forall2 (fun k n => map_get k m = Some n) keys (result st)).
  { intros [keys [H1 [H2 [_ H3]]]]. now exists keys. }
  apply (traverse_invariant
           (fun st => exists keys, NoDup keys /\ ~ In root keys
               /\ (forall k, In k keys -> In k (visited st))
               /\ Forall2 (fun k n => map_get k m = Some n) keys (result st))
           (fun _ _ => True))
    with (fuel := Z.to_nat (depth + 1)) (cur := root) (cd := 0)
         (st := {| visited := []; result := [] |}); [| |exact I| |exact Et].
  - intros cur cd st0 [keys [Hnd [Hroot [Hsub HF]]]] _ _ Hnv.
    unfold enterNode. simpl.
    destruct (map_get cur m) as [node|] eqn:Eg;
      [destruct (String.eqb_spec cur root) as [->|Hne]|].
    + exists keys. repeat split; auto.
    + exists (keys ++ [cur]). repeat split.
      * apply NoDup_app. repeat split; [exact Hnd| |apply NoDup_singleton].
        intros k Hk Hk'. apply list_elem_of_In in Hk, Hk'.
        destruct Hk' as [<-|[]]. now apply Hnv, Hsub.
      * rewrite in_app_iff. intros [H|[H|[]]]; [now apply Hroot|congruence].
      * intros k. rewrite in_app_iff. intros [H|[<-|[]]]; [right; now apply Hsub|now left].
      * apply Forall2_app; [exact HF|]. now constructor.
    + exists keys. repeat split; auto.
  - trivial.
  - exists []. repeat split; [constructor|easy|easy|constructor].
Qed.

(** The visited set only grows. *)
Lemma traverse_visited_mono fuel cur cd st st' :
  traverse m root depth fuel cur cd st = Some st' ->
  forall k, In k (visited st) -> In k (visited st').
Proof.
  intros Ht.
  apply (traverse_invariant
           (fun x => forall k, In k (visited st) -> In k (visited x))
           (fun _ _ => True))
    with (fuel := fuel) (cur := cur) (cd := cd) (st := st); auto.
  intros c d x Hx _ _ _ k Hk. simpl. right. now apply Hx.
Qed.

Lemma visitAll_visited_mono fuel cd ids st st' :
  visitAll fuel cd ids (Some st) = Some st' ->
  forall k, In k (visited st) -> In k (visited st').
Proof.
  revert st. induction ids as [|a ids IH]; intros st; simpl.
  - now intros [= <-].
  - destruct (traverse m root depth fuel a (cd + 1) st) as [st1|] eqn:Et.
    + intros Hv k Hk. apply (IH st1 Hv). now apply (traverse_visited_mono _ _ _ _ _ Et).
    + fold (visitAll fuel cd ids None). rewrite visitAll_None. discriminate.
Qed.

(** A call within the depth bound leaves its node visited. *)
Lemma traverse_visits fuel cur cd st st' :
  cd <= depth ->
  traverse m root depth fuel cur cd st = Some st' -> In cur (visited st').
Proof.
  intros Hd. destruct fuel as [|fuel].
  - simpl. destruct (Z.ltb_spec depth cd); [lia|]. simpl.
    destruct (bool_decide_reflect (cur ∈ visited st)) as [Hv|Hv]; [|discriminate].
    intros [= <-]. now apply list_elem_of_In.
  - rewrite traverse_unfold. destruct (Z.ltb_spec depth cd); [lia|]. simpl.
    destruct (bool_decide_reflect (cur ∈ visited st)) as [Hv|Hv].
    + intros [= <-]. now apply list_elem_of_In.
    + destruct (map_get cur m) as [node|].
      * intros Hv'. apply (visitAll_visited_mono _ _ _ _ _ Hv'). now left.
      * intros [= <-]. now left.
Qed.

Lemma visitAll_visits fuel cd ids st st' :
  cd + 1 <= depth ->
  visitAll fuel cd ids (Some st) = Some st' ->
  forall a, In a ids -> In a (visited st').
Proof.
  intros Hd. revert st. induction ids as [|a0 ids IH]; intros st; simpl; [easy|].
  destruct (traverse m root depth fuel a0 (cd + 1) st) as [st1|] eqn:Et.
  - intros Hv a [<-|Ha].
    + apply (visitAll_visited_mono _ _ _ _ _ Hv).
      now apply (traverse_visits _ _ _ _ _ Hd Et).
    + now apply (IH st1 Hv).
  - fold (visitAll fuel cd ids None). rewrite visitAll_None. discriminate.
Qed.

(** Every visited key that is stored, the root apart, has its node in the
    result. *)
Lemma traverse_collects_visited fuel cur cd st st' :
  (forall k n, In k (visited st) -> k <> root -> map_get k m = Some n ->
               In n (result st)) ->
  traverse m root depth fuel cur cd st = Some st' ->
  forall k n, In k (visited st') -> k <> root -> map_get k m = Some n ->
              In n (result st').
Proof.
  intros Hst Ht.
  apply (traverse_invariant
           (fun x => forall k n, In k (visited x) -> k <> root ->
                                 map_get k m = Some n -> In n (result x))
           (fun _ _ => True))
    with (fuel := fuel) (cur := cur) (cd := cd) (st := st); auto.
  intros c d x Hx _ _ _ k n. unfold enterNode. simpl. intros [<-|Hk] Hne Hg.
  - rewrite Hg. destruct (String.eqb_spec c root); [contradiction|].
    apply in_app_iff. right. now left.
  - specialize (Hx k n Hk Hne Hg).
    destruct (map_get c m); [|exact Hx].
    destruct (String.eqb c root); [exact Hx|]. apply in_app_iff. now left.
Qed.

(** Completeness at distance one: with a depth of at least 1, every stored
    direct association of the target is returned. *)
Lemma getAssociatedNodes_direct ns rootNode a n :
  1 <= depth ->
  getAssociatedNodes m root depth = Some ns ->
  map_get root m = Some rootNode -> In a (associations rootNode) ->
  a <> root -> map_get a m = Some n ->
  In n ns.
Proof.
  intros Hd. unfold getAssociatedNodes.
  destruct (traverse m root depth (Z.to_nat (depth + 1)) root 0
              {| visited := []; result := [] |}) as [st|] eqn:Et; [|discriminate].
  intros [= <-] Hroot Ha Hne Hg.
  assert (Hinit : forall k n0,
             In k (visited {| visited := []; result := [] |}) -> k <> root ->
             map_get k m = Some n0 -> In n0 (result {| visited := []; result := [] |}))
    by (intros k n0 []).
  apply (traverse_collects_visited _ _ _ _ _ Hinit Et a n); [|exact Hne|exact Hg].
  replace (Z.to_nat (depth + 1)) with (S (Z.to_nat depth)) in Et by lia.
  rewrite traverse_unfold in Et.
  destruct (Z.ltb_spec depth 0); [lia|]. simpl in Et. rewrite Hroot in Et.
  eapply visitAll_visits; [|exact Et|exact Ha]. lia.
Qed.

Lemma reach_one a b : reach m 1 a b -> hop m a b.
Proof.
  intros H. inversion H as [|j x y z Hr Hh]; subst.
  inversion Hr; subst. exact Hh.
Qed.

Lemma reach_zero a b : reach m 0 a b -> a = b.
Proof. intros H. now inversion H. Qed.

(** For a depth of 0 or 1 the traversal returns exactly the stored nodes
    whose distance from the target lies between 1 and the depth. *)
Lemma getAssociatedNodes_exact_to_depth_1 ns n :
  0 <= depth <= 1 ->
  getAssociatedNodes m root depth = Some ns ->
  (In n ns <-> expectedNeighbour m root (Z.to_nat depth) n).
Proof.
  intros Hd Hns. split; [now apply getAssociatedNodes_sound|].
  intros [x [Hg [Hne [j [Hj Hr]]]]].
  destruct j as [|[|j]]; [apply reach_zero in Hr; congruence| |lia].
  assert (depth = 1) as Hd1 by lia.
  apply reach_one in Hr as [rn [Hrn Hin]].
  eapply getAssociatedNodes_direct; eauto. lia.
Qed.

End TraversalFacts.

Section GetFacts.
Import LongTermMemory.

(** [get] of an unknown id fails and returns the state it was given. *)
Lemma get_failure_keeps_state now ident depthOpt s :
  success (fst (get now ident depthOpt s)) = false ->
  snd (get now ident depthOpt s) = s.
Proof.
  unfold get. destruct (map_get ident (nodes s)); [|reflexivity].
  cbv zeta. cbn [nodes].
  match goal with
  | |- context [getAssociatedNodes ?m ?r ?d] =>
      destruct (getAssociatedNodes_total m r d) as [ns ->]
  end.
  discriminate.
Qed.

(** [get] of a stored id succeeds, and everything it returns besides the
    target is a stored node within the clamped depth, listed once. *)
Lemma get_returns_neighbours_within_depth now ident depthOpt s node :
  map_get ident (nodes s) = Some node ->
  exists target ns,
    get now ident depthOpt s =
      (Success {| mwa_node := target; mwa_associations := ns |},
       {| nodes := map_set ident target (nodes s); isDirty := true |})
    /\ (forall n, In n ns ->
          expectedNeighbour (map_set ident target (nodes s)) ident
            (Z.to_nat (Z.min (default 1 depthOpt) 3)) n)
    /\ (exists keys, NoDup keys /\ ~ In ident keys
          /\ Forall2 (fun k n => map_get k (map_set ident target (nodes s)) = Some n)
                     keys ns).
Proof.
  intros Hg. unfold get. rewrite Hg. cbv zeta. cbn [nodes].
  set (target := set_metadata node _).
  destruct (getAssociatedNodes_total (map_set ident target (nodes s)) ident
              (Z.min (default 1 depthOpt) 3)) as [ns Hns].
  rewrite Hns. exists target, ns. split; [reflexivity|]. split.
  - now apply getAssociatedNodes_sound.
  - now apply getAssociatedNodes_distinct with (depth := Z.min (default 1 depthOpt) 3).
Qed.

(** With a depth of 0 or 1 (the default), [get] returns exactly the stored
    nodes between 1 and that many hops from the target. *)
Lemma get_exact_for_depth_at_most_1 now ident depthOpt s node :
  map_get ident (nodes s) = Some node ->
  0 <= default 1 depthOpt <= 1 ->
  exists target ns,
    fst (get now ident depthOpt s) =
      Success {| mwa_node := target; mwa_associations := ns |}
    /\ forall n, In n ns <->
                 expectedNeighbour (nodes (snd (get now ident depthOpt s))) ident
                   (Z.to_nat (default 1 depthOpt)) n.
Proof.
  intros Hg Hd. unfold get. rewrite Hg. cbv zeta. cbn [nodes].
  set (target := set_metadata node _).
  destruct (getAssociatedNodes_total (map_set ident target (nodes s)) ident
              (Z.min (default 1 depthOpt) 3)) as [ns Hns].
  rewrite Hns. exists target, ns. split; [reflexivity|]. intros n. cbn [snd nodes].
  assert (Hmin : Z.min (default 1 depthOpt) 3 = default 1 depthOpt) by lia.
  rewrite Hmin in Hns.
  apply getAssociatedNodes_exact_to_depth_1; [lia|exact Hns].
Qed.

(** On the line A -> B -> C: depth 1 yields B, depth 2 yields B and C,
    depth 0 yields nothing, and the omitted depth is 1; a depth above 3 is
    cut to 3. *)
Lemma get_on_the_line :
  returnedIds (fst (get Sample.t1 Sample.idA (Some 1) Sample.line)) = Some [Sample.idB]
  /\ returnedIds (fst (get Sample.t1 Sample.idA (Some 2) Sample.line))
     = Some [Sample.idB; Sample.idC]
  /\ returnedIds (fst (get Sample.t1 Sample.idA (Some 0) Sample.line)) = Some []
  /\ returnedIds (fst (get Sample.t1 Sample.idA None Sample.line)) = Some [Sample.idB]
  /\ returnedIds (fst (get Sample.t1 Sample.idA (Some 7) Sample.line))
     = Some [Sample.idB; Sample.idC].
Proof. repeat split. Qed.

(** C2 (the code departs from it): in the graph A -> [B, C], B -> [C],
    C -> [D], node D is two hops from A (A -> C -> D), yet get(A, depth 2)
    returns B and C only.  The depth-first walk reaches C first through B,
    at depth 2, marks it visited and cannot go further; when it comes back
    to C at depth 1 the visited mark makes it return at once, so D is never
    entered.  With the associations of A in the other order, D is
    returned. *)
Theorem get_omits_node_within_depth :
  let r := get Sample.t1 Sample.idA (Some 2) Sample.shortcut in
  let m' := nodes (snd r) in
  returnedIds (fst r) = Some [Sample.idB; Sample.idC]
  /\ (exists d, map_get Sample.idD m' = Some d
               /\ expectedNeighbour m' Sample.idA 2 d
               /\ forall ns, mwa_associations <$> responseData (fst r) = Some ns ->
                             ~ In d ns)
  /\ returnedIds
       (fst (get Sample.t1 Sample.idA (Some 2)
               (snd (update Sample.t1 Sample.idA None
                       (Some [Sample.idC; Sample.idB]) Sample.shortcut))))
     = Some [Sample.idC; Sample.idD; Sample.idB].
Proof.
  cbv zeta. split; [reflexivity|]. split; [|reflexivity].
  eexists. split; [reflexivity|]. split.
  - exists Sample.idD. split; [reflexivity|]. split; [discriminate|].
    exists 2%nat. split; [lia|].
    apply reach_hop with (b := Sample.idC).
    + apply reach_hop with (b := Sample.idA); [apply reach_here|].
      eexists. split; [reflexivity|]. simpl. auto.
    + eexists. split; [reflexivity|]. simpl. auto.
  - intros ns [= <-]. simpl. intros [H|[H|[]]]; discriminate H.
Qed.

End GetFacts.

Section MemoryInvariants.
Import LongTermMemory.
Context {engine : Js.Engine}.
Implicit Types (s : t) (m : JsMap LongTermMemoryNode).

Lemma map_set_wf {V} k (v : V) (m : JsMap V) : map_wf m -> map_wf (map_set k v m).
Proof.
  unfold map_wf. rewrite map_keys_set. intros Hnd.
  destruct (map_has k m) eqn:Hh; [exact Hnd|].
  apply NoDup_app. repeat split; [exact Hnd| |apply NoDup_singleton].
  intros x Hx Hx'. apply list_elem_of_In in Hx, Hx'. destruct Hx' as [<-|[]].
  now apply map_has_false_keys in Hh.
Qed.

Lemma map_delete_wf {V} k (m : JsMap V) : map_wf m -> map_wf (map_delete k m).
Proof.
  unfold map_wf, map_keys. induction m as [|[k0 v0] m IH]; simpl; [easy|].
  intros Hnd. apply NoDup_cons in Hnd as [Hnot Hnd].
  destruct (String.eqb k0 k); [exact Hnd|]. simpl. apply NoDup_cons. split.
  - intros Hin. apply Hnot. apply list_elem_of_In in Hin. apply list_elem_of_In.
    apply in_map_iff in Hin as [[k1 v1] [Hk Hin]]. apply in_map_iff.
    exists (k1, v1). split; [exact Hk|]. now apply map_delete_In in Hin.
  - now apply IH.
Qed.

Lemma loaded_map_wf (entries : list (string * LongTermMemoryNode)) m :
  map_wf m -> map_wf (fold_left (fun acc kv => map_set (fst kv) (snd kv) acc) entries m).
Proof.
  revert m. induction entries as [|kv entries IH]; intros m Hm; [exact Hm|].
  simpl. apply IH. now apply map_set_wf.
Qed.

(** The node map keeps each key once under every operation. *)
Lemma memoryExec_keeps_wf op s :
  map_wf (nodes s) -> map_wf (nodes (snd (memoryExec op s))).
Proof.
  intros Hwf. destruct op; simpl; try exact Hwf.
  - unfold add. destruct (Js.isBlank txt); [exact Hwf|].
    destruct (unknownAssociation (nodes s) assocs); [exact Hwf|].
    now apply map_set_wf.
  - unfold get. destruct (map_get ident (nodes s)); [|exact Hwf]. cbv zeta.
    destruct (getAssociatedNodes _ _ _); now apply map_set_wf.
  - unfold update. destruct (map_get ident (nodes s)); [|exact Hwf].
    destruct newText as [nt|];
      [destruct (String.length (Js.trim nt) =? 0)%nat; [exact Hwf|]|];
      (destruct newAssociations as [na|];
       [destruct (unknownAssociation _ na)|]; now apply map_set_wf).
  - unfold delete. destruct (map_has ident (nodes s)); simpl; [|exact Hwf].
    apply map_delete_wf. unfold map_wf. now rewrite map_keys_stripFirst.
  - apply loaded_map_wf. apply NoDup_nil_2.
Qed.

(** Every operation of the graph but [update] returns, when it fails, the
    state it was given. *)
Lemma memory_failure_keeps_state op s :
  (forall now ident newText newAssociations,
      op <> MUpdate now ident newText newAssociations) ->
  fst (memoryExec op s) = false -> snd (memoryExec op s) = s.
Proof.
  intros Hop. destruct op; simpl; try reflexivity; try discriminate.
  - apply add_failure_keeps_state.
  - apply get_failure_keeps_state.
  - now destruct (Hop now ident newText newAssociations).
  - apply delete_failure_keeps_state.
Qed.

(** A failed [update] leaves keys, associations, metadata and the dirty
    flag as they were; only the text of the target may have changed. *)
Lemma update_failure_changes_text_only now ident newText newAssociations s :
  success (fst (update now ident newText newAssociations s)) = false ->
  let s' := snd (update now ident newText newAssociations s) in
  isDirty s' = isDirty s
  /\ (s' = s
      \/ exists node nt, map_get ident (nodes s) = Some node
                         /\ newText = Some nt
                         /\ nodes s' = map_set ident (set_text node (Js.trim nt)) (nodes s)).
Proof.
  unfold update. destruct (map_get ident (nodes s)) as [node|] eqn:Hg;
    [|simpl; auto].
  destruct newText as [nt|].
  - destruct (String.length (Js.trim nt) =? 0)%nat; [simpl; auto|].
    destruct newAssociations as [na|]; [|discriminate].
    destruct (unknownAssociation _ na); [|discriminate].
    simpl. intros _. split; [reflexivity|]. right. now exists node, nt.
  - destruct newAssociations as [na|]; [|discriminate].
    destruct (unknownAssociation _ na) eqn:Hu; [|discriminate].
    simpl. intros _. split; [reflexivity|]. left.
    destruct s as [ns d]. simpl in *. f_equal.
    clear Hu. induction ns as [|[k0 v0] ns IH]; simpl in *; [discriminate|].
    destruct (String.eqb_spec k0 ident) as [->|Hne].
    + injection Hg as ->. now destruct node.
    + f_equal. now apply IH.
Qed.

(** Texts that are empty or all white space are rejected, state untouched. *)
Lemma add_rejects_blank_text uuid now txt assocs s :
  Js.isBlank txt = true ->
  add uuid now txt assocs s = (Failure "Memory text cannot be empty", s).
Proof. intros H. unfold add. now rewrite H. Qed.

End MemoryInvariants.

(** * The thought tracker *)

Section TrackerFacts.
Import ThinkingProcess.
Implicit Types (s : t).

Lemma truthy_nonempty (x : string) : x <> EmptyString -> Js.truthy x = true.
Proof. now destruct x. Qed.

Lemma confidence_in_range (c : Q) :
  (0 <= c)%Q -> (c <= 1)%Q -> confidenceOutOfRange c = false.
Proof.
  intros H0 H1. unfold confidenceOutOfRange, Qltb.
  apply Qle_bool_iff in H0, H1. now rewrite H0, H1.
Qed.

Lemma confidence_out_of_range (c : Q) :
  confidenceOutOfRange c = true -> ~ ((0 <= c)%Q /\ (c <= 1)%Q).
Proof.
  intros H [H0 H1]. rewrite (confidence_in_range c H0 H1) in H. discriminate.
Qed.

(** C10: [addThought] accepts a parent thought of another chain.  For an
    active chain, an existing thought [p] owned by a different chain (its
    id, like every id drawn from [uuidv4()], is not the empty string), a
    text that passes the emptiness test, a confidence within [0, 1] and a
    new thought id, the call succeeds, appends the new id to the chain's
    thoughts, stores the new thought with the parent's depth plus one, and
    appends the new id to the foreign parent's [next_thoughts]. *)
Theorem addThought_links_across_chains
    uuid now chainId thought type p confidenceOpt s chain parent :
  chains s !! chainId = Some chain ->
  ch_status chain = active ->
  thoughts s !! p = Some parent ->
  th_parent_chain parent <> chainId ->
  p <> EmptyString ->
  Js.isBlank thought = false ->
  (0 <= default (7 # 10) confidenceOpt)%Q ->
  (default (7 # 10) confidenceOpt <= 1)%Q ->
  thoughts s !! uuid = None ->
  let r := addThought uuid now chainId thought type (Some p) confidenceOpt s in
  fst r = Success uuid
  /\ chains (snd r) !! chainId = Some (chain_push_thought uuid chain)
  /\ ch_thoughts (chain_push_thought uuid chain) = ch_thoughts chain ++ [uuid]
  /\ (exists n, thoughts (snd r) !! uuid = Some n
                /\ th_reasoning_depth n = th_reasoning_depth parent + 1
                /\ th_parent_chain n = chainId
                /\ th_previous_thought n = Some p)
  /\ (exists parent', thoughts (snd r) !! p = Some parent'
                /\ th_next_thoughts parent' = th_next_thoughts parent ++ [uuid]
                /\ th_parent_chain parent' = th_parent_chain parent
                /\ th_parent_chain parent' <> chainId).
Proof.
  intros Hc Hact Hp Hforeign Hne Htxt Hc0 Hc1 Hfresh r. subst r.
  unfold addThought. rewrite Hc, Hact. simpl negb. cbv iota.
  rewrite Htxt, (confidence_in_range _ Hc0 Hc1).
  unfold given. rewrite (truthy_nonempty p Hne), Hp. simpl.
  assert (Hup : uuid <> p) by (intros ->; congruence).
  repeat split.
  - now rewrite lookup_alter_eq, Hc.
  - eexists. rewrite lookup_insert_eq. repeat split.
  - exists (thought_push_next uuid parent).
    rewrite lookup_insert_ne by exact Hup.
    rewrite lookup_alter_eq, Hp. repeat split. exact Hforeign.
Qed.

(** An instance: a thought added to chain A under the thought D of chain
    C. *)
Lemma addThought_links_across_chains_witness :
  let r := addThought Sample.idB Sample.t1 Sample.idA "built on a foreign thought"
             hypothesis (Some Sample.idD) None Sample.trackerTwoChains in
  fst r = Success Sample.idB
  /\ (exists parent', thoughts (snd r) !! Sample.idD = Some parent'
                      /\ th_next_thoughts parent' = [Sample.idB]
                      /\ th_parent_chain parent' = Sample.idC).
Proof.
  cbv zeta.
  destruct (addThought_links_across_chains
              Sample.idB Sample.t1 Sample.idA "built on a foreign thought"
              hypothesis Sample.idD None Sample.trackerTwoChains
              {| ch_id := Sample.idA; ch_goal := "first goal"; ch_context := None;
                 ch_created_at := Sample.t0; ch_completed_at := None;
                 ch_status := active; ch_thoughts := []; ch_branches := [];
                 ch_cognitive_mode := analytical |}
              {| th_id := Sample.idD; th_text := "a thought of the second chain";
                 th_associations := [];
                 th_metadata := {| createdAt := Sample.t0; lastAccessed := Sample.t0;
                                   accessCount := 0 |};
                 th_type := analysis; th_confidence := (7 # 10)%Q;
                 th_status := th_active; th_parent_chain := Sample.idC;
                 th_previous_thought := None; th_next_thoughts := [];
                 th_reasoning_depth := 0;
                 th_thought_metadata :=
                   {| thinking_time := Some 0; complexity := Some medium;
                      emotional_tone := None |} |})
    as [H1 [_ [_ [_ [parent' [H5 [H6 [H7 _]]]]]]]].
  - vm_compute. reflexivity.
  - reflexivity.
  - vm_compute. reflexivity.
  - discriminate.
  - discriminate.
  - reflexivity.
  - discriminate.
  - discriminate.
  - vm_compute. reflexivity.
  - split; [exact H1|]. exists parent'. repeat split; assumption.
Defined.

(** The loop over [chain.thoughts]: a listed thought that is active becomes
    completed, every other thought is left as it is. *)
Lemma completeIfActive_idem n : completeIfActive (completeIfActive n) = completeIfActive n.
Proof.
  unfold completeIfActive.
  destruct (bool_decide_reflect (th_status n = th_active)) as [H|H]; simpl.
  - reflexivity.
  - now rewrite bool_decide_eq_false_2.
Qed.

Lemma completeThoughts_lookup ids (ths : gmap string ThoughtNode) tid :
  completeThoughts ids ths !! tid =
  if bool_decide (tid ∈ ids) then completeIfActive <$> ths !! tid else ths !! tid.
Proof.
  unfold completeThoughts. revert ths.
  induction ids as [|a ids IH]; intros ths; [reflexivity|].
  simpl fold_left. rewrite IH.
  destruct (decide (a = tid)) as [->|Hne].
  - rewrite lookup_alter_eq.
    rewrite (bool_decide_eq_true_2 (tid ∈ tid :: ids)) by (apply elem_of_cons; now left).
    destruct (bool_decide (tid ∈ ids)); [|reflexivity].
    destruct (ths !! tid); simpl; [|reflexivity].
    now rewrite completeIfActive_idem.
  - rewrite lookup_alter_ne by exact Hne.
    destruct (bool_decide_reflect (tid ∈ ids)) as [H|H].
    + rewrite (bool_decide_eq_true_2 (tid ∈ a :: ids)); [reflexivity|].
      apply elem_of_cons. now right.
    + rewrite (bool_decide_eq_false_2 (tid ∈ a :: ids)); [reflexivity|].
      intros [?|?]%elem_of_cons; [congruence|contradiction].
Qed.

Lemma summary_text_not_blank goal conclusion :
  Js.isBlank ("[Thought Chain] " +:+ goal +:+ newline +:+ "Conclusion: " +:+ conclusion)
  = false.
Proof. apply isBlank_visible_head; reflexivity. Qed.

(** With UUID keys, a non-empty list of "thought:<id>" tags has an unknown
    association: its first element. *)
Lemma thought_tags_unknown (m : JsMap LongTermMemoryNode) ids :
  uuidKeys m -> ids <> [] ->
  exists a, LongTermMemory.unknownAssociation m
              (map (fun i => "thought:" +:+ i) ids) = Some a.
Proof.
  intros Hk Hne. destruct ids as [|i ids]; [contradiction|].
  apply unknownAssociation_Some. exists ("thought:" +:+ i). split; [now left|].
  apply map_has_false_keys. intros Hin. apply Hk in Hin.
  now rewrite uuid_is_no_thought_tag in Hin.
Qed.

(** C4: for an existing chain and a conclusion that passes the emptiness
    test, [completeThoughtProcess] succeeds, sets the chain's status to
    completed and [completed_at] to the current time, and turns exactly the
    active thoughts listed in that chain into completed ones: a listed
    thought whose status is active is stored with the status completed and
    all its other fields as they were, a listed thought of another status
    and every thought not listed are stored unchanged.  The node map
    being keyed by UUIDs, the [add] it then makes with "thought:<id>"
    associations fails and leaves the long-term memory as it was whenever
    the chain has a thought, and stores the summary node when it has
    none. *)
Theorem completeThoughtProcess_records_only_empty_chains
    now uuidMem nowMem chainId conclusion s chain :
  chains s !! chainId = Some chain ->
  Js.isBlank conclusion = false ->
  uuidKeys (LongTermMemory.nodes (longTermMemory s)) ->
  let r := completeThoughtProcess now uuidMem nowMem chainId conclusion s in
  let memoryText := "[Thought Chain] " +:+ ch_goal chain +:+ newline +:+
                    "Conclusion: " +:+ conclusion in
  let tags := map (fun i => "thought:" +:+ i) (ch_thoughts chain) in
  let added := LongTermMemory.add uuidMem nowMem memoryText tags (longTermMemory s) in
  fst r = Success tt
  /\ (exists c, chains (snd r) !! chainId = Some c
                /\ ch_status c = completed /\ ch_completed_at c = Some now
                /\ ch_thoughts c = ch_thoughts chain)
  /\ (forall tid n,
        tid ∈ ch_thoughts chain -> thoughts s !! tid = Some n ->
        thoughts (snd r) !! tid =
        Some {| th_id := th_id n; th_text := th_text n;
                th_associations := th_associations n;
                th_metadata := th_metadata n;
                th_type := th_type n; th_confidence := th_confidence n;
                th_status := match th_status n with
                             | th_active => th_completed
                             | st => st
                             end;
                th_parent_chain := th_parent_chain n;
                th_previous_thought := th_previous_thought n;
                th_next_thoughts := th_next_thoughts n;
                th_reasoning_depth := th_reasoning_depth n;
                th_thought_metadata := th_thought_metadata n |})
  /\ (forall tid,
        tid ∉ ch_thoughts chain \/ thoughts s !! tid = None ->
        thoughts (snd r) !! tid = thoughts s !! tid)
  /\ longTermMemory (snd r) = snd added
  /\ (ch_thoughts chain <> [] ->
        success (fst added) = false
        /\ longTermMemory (snd r) = longTermMemory s
        /\ LongTermMemory.getCount (longTermMemory (snd r))
           = LongTermMemory.getCount (longTermMemory s))
  /\ (ch_thoughts chain = [] ->
        fst added = Success uuidMem
        /\ exists n, map_get uuidMem (LongTermMemory.nodes (longTermMemory (snd r)))
                     = Some n
                     /\ text n = Js.trim memoryText /\ associations n = []).
Proof.
  intros Hc Hconc Hkeys r memoryText tags added. subst r.
  unfold completeThoughtProcess. rewrite Hc, Hconc. cbn [fst snd chains thoughts longTermMemory].
  fold memoryText. fold tags. fold added.
  split; [reflexivity|]. split.
  { eexists. rewrite lookup_alter_eq, Hc. simpl. repeat split. }
  split.
  { intros tid n Hin Hn. rewrite completeThoughts_lookup.
    rewrite bool_decide_eq_true_2 by exact Hin. rewrite Hn.
    cbn [fmap option_fmap option_map]. f_equal.
    unfold completeIfActive, thought_with_status.
    destruct n as [? ? ? ? ? ? st ? ? ? ? ?]. now destruct st. }
  split.
  { intros tid Hout. rewrite completeThoughts_lookup.
    destruct (bool_decide_reflect (tid ∈ ch_thoughts chain)) as [Hin|Hin];
      [|reflexivity].
    destruct Hout as [Hout|Hnone]; [contradiction|]. now rewrite Hnone. }
  split; [reflexivity|]. split.
  - intros Hne. subst added. unfold LongTermMemory.add.
    unfold memoryText. rewrite summary_text_not_blank.
    destruct (thought_tags_unknown _ _ Hkeys Hne) as [a Ha].
    unfold tags. rewrite Ha. simpl. repeat split.
  - intros Hnil. subst added tags. unfold LongTermMemory.add.
    unfold memoryText. rewrite summary_text_not_blank, Hnil. simpl.
    split; [reflexivity|]. eexists. rewrite map_get_set_eq. repeat split.
Qed.

(** An instance: completing the chain that holds the active thought B
    turns B into a completed thought and leaves the long-term memory as it
    was. *)
Lemma completeThoughtProcess_records_only_empty_chains_witness :
  let r := completeThoughtProcess Sample.t1 Sample.idD Sample.t1 Sample.idA
             "the upstream service timed out" Sample.trackerWithThought in
  th_status <$> thoughts Sample.trackerWithThought !! Sample.idB = Some th_active
  /\ fst r = Success tt
  /\ th_status <$> thoughts (snd r) !! Sample.idB = Some th_completed
  /\ longTermMemory (snd r) = longTermMemory Sample.trackerWithThought.
Proof.
  cbv zeta.
  assert (Hn : exists n, thoughts Sample.trackerWithThought !! Sample.idB = Some n
                         /\ th_status n = th_active)
    by (eexists; split; [vm_compute; reflexivity|reflexivity]).
  destruct Hn as [n [Hn Hst]].
  split; [now rewrite Hn; cbn; rewrite Hst|].
  destruct (completeThoughtProcess_records_only_empty_chains
              Sample.t1 Sample.idD Sample.t1 Sample.idA
              "the upstream service timed out" Sample.trackerWithThought
              {| ch_id := Sample.idA; ch_goal := "find the cause";
                 ch_context := None; ch_created_at := Sample.t0;
                 ch_completed_at := None; ch_status := active;
                 ch_thoughts := [Sample.idB]; ch_branches := [];
                 ch_cognitive_mode := analytical |})
    as [H1 [_ [H3 [_ [_ [H5 _]]]]]].
  - vm_compute. reflexivity.
  - reflexivity.
  - intros k [<-|[<-|[<-|[]]]]; reflexivity.
  - split; [exact H1|]. split; [|apply H5; discriminate].
    rewrite (H3 Sample.idB n); [|apply list_elem_of_here|exact Hn].
    cbn. now rewrite Hst.
Defined.

End TrackerFacts.

Section FailureFacts.
Import ThinkingProcess.
Implicit Types (s : t).

(** The operations that validate first return the state they were given
    when they fail. *)
Lemma tracker_failure_keeps_state op s :
  validatesFirst op = true ->
  fst (trackerExec op s) = false -> snd (trackerExec op s) = s.
Proof.
  destruct op; simpl; try discriminate; intros _.
  - unfold startThoughtProcess. destruct (Js.isBlank goal); [reflexivity|discriminate].
  - unfold addThought. destruct (chains s !! chainId) as [c|]; [|reflexivity].
    destruct (negb _); [reflexivity|].
    destruct (Js.isBlank thought); [reflexivity|].
    destruct (confidenceOutOfRange _); [reflexivity|].
    destruct (given parentThoughtId) as [p|]; [|discriminate].
    destruct (thoughts s !! p); [discriminate|reflexivity].
  - unfold evaluateThought. destruct (thoughts s !! thoughtId); [|reflexivity].
    destruct (confidenceOutOfRange confidence); [reflexivity|discriminate].
  - unfold completeThoughtProcess. destruct (chains s !! chainId); [|reflexivity].
    destruct (Js.isBlank conclusion); [reflexivity|discriminate].
  - unfold pauseThinking. destruct (chains s !! chainId); [discriminate|reflexivity].
  - unfold resumeThinking. destruct (chains s !! chainId); [|reflexivity].
    destruct (negb _); [reflexivity|discriminate].
Qed.

(** A failed [switchCognitiveMode] leaves the three maps alone; the
    tracker's current mode has been assigned all the same. *)
Lemma switchCognitiveMode_failure mode chainId s :
  success (fst (switchCognitiveMode mode chainId s)) = false ->
  let s' := snd (switchCognitiveMode mode chainId s) in
  chains s' = chains s /\ thoughts s' = thoughts s
  /\ longTermMemory s' = longTermMemory s /\ currentMode s' = mode.
Proof.
  unfold switchCognitiveMode. destruct (given chainId) as [c|]; [|discriminate].
  destruct (chains s !! c); [discriminate|]. simpl. auto.
Qed.

(** C3 (the code departs from it): on a tracker with one chain A holding
    one thought B, [branchThought(B, "")] returns the failure "Thought text
    cannot be empty", yet the branch chain it created beforehand stays in
    the chain map and in the branches of A; an out-of-range confidence
    does the same.  [branchThought] stores and registers the branch chain
    and only then lets [addThought] validate the text and the confidence. *)
Theorem branchThought_failure_leaves_branch_chain :
  let s := Sample.trackerWithThought in
  let r := branchThought Sample.idC Sample.t1 Sample.idD Sample.t1
             Sample.idB "" None None s in
  let r' := branchThought Sample.idC Sample.t1 Sample.idD Sample.t1
              Sample.idB "what if the cache is cold" None (Some (3 # 2)%Q) s in
  fst r = Failure "Thought text cannot be empty"
  /\ fst r' = Failure "Confidence must be between 0 and 1"
  /\ chains s !! Sample.idC = None
  /\ ch_branches <$> chains s !! Sample.idA = Some []
  /\ (exists c, chains (snd r) !! Sample.idC = Some c
                /\ ch_status c = active /\ ch_thoughts c = [])
  /\ ch_branches <$> chains (snd r) !! Sample.idA = Some [Sample.idC]
  /\ ch_branches <$> chains (snd r') !! Sample.idA = Some [Sample.idC]
  /\ chains (snd r) <> chains s
  /\ chains (snd r') <> chains s.
Proof.
  cbv zeta. repeat split.
  - eexists. split; [vm_compute; reflexivity|]. split; reflexivity.
  - intros H. apply (f_equal (fun m => m !! Sample.idC)) in H.
    vm_compute in H. discriminate.
  - intros H. apply (f_equal (fun m => m !! Sample.idC)) in H.
    vm_compute in H. discriminate.
Qed.

(** The memory graph has the same defect in [update]: the new text is
    assigned before the new associations are validated. *)
Lemma update_failure_keeps_new_text :
  let r := LongTermMemory.update Sample.t1 Sample.idA (Some "changed")
             (Some ["no-such-node"]) Sample.line in
  fst r = Failure "Associated node not found: no-such-node"
  /\ text <$> map_get Sample.idA (LongTermMemory.nodes Sample.line) = Some "a"
  /\ text <$> map_get Sample.idA (LongTermMemory.nodes (snd r)) = Some "changed".
Proof. repeat split. Qed.

End FailureFacts.

Section ChainStatusFacts.
Import ThinkingProcess.
Implicit Types (s : t).

Lemma status_alter (f : ThoughtChain -> ThoughtChain) k c
    (m : gmap string ThoughtChain) :
  (forall ch, ch_status (f ch) = ch_status ch) ->
  ch_status <$> alter f k m !! c = ch_status <$> m !! c.
Proof.
  intros Hf. destruct (decide (k = c)) as [->|Hne].
  - rewrite lookup_alter_eq. destruct (m !! c); simpl; [now rewrite Hf|reflexivity].
  - now rewrite lookup_alter_ne.
Qed.

Lemma status_alter_set (f : ThoughtChain -> ThoughtChain) st k c
    (m : gmap string ThoughtChain) ch :
  (forall x, ch_status (f x) = st) ->
  m !! c = Some ch ->
  ch_status <$> alter f k m !! c = Some (if decide (k = c) then st else ch_status ch).
Proof.
  intros Hf Hc. destruct (decide (k = c)) as [->|Hne].
  - rewrite lookup_alter_eq, Hc. simpl. now rewrite Hf.
  - rewrite lookup_alter_ne by exact Hne. now rewrite Hc.
Qed.

Lemma addThought_status uuid now chainId thought type parent conf s c :
  statusOf c (snd (addThought uuid now chainId thought type parent conf s))
  = statusOf c s.
Proof.
  unfold statusOf, addThought.
  destruct (chains s !! chainId) as [ch|]; [|reflexivity].
  destruct (negb _); [reflexivity|].
  destruct (Js.isBlank thought); [reflexivity|].
  destruct (confidenceOutOfRange _); [reflexivity|].
  destruct (given parent) as [p|].
  - destruct (thoughts s !! p); [|reflexivity]. simpl. now apply status_alter.
  - simpl. now apply status_alter.
Qed.

(** One operation changes the status of an existing chain only along
    [transition]. *)
Lemma status_step op s c st :
  drawsFreshChainId op s ->
  statusOf c s = Some st ->
  exists st', statusOf c (trackerStep s op) = Some st' /\ transition c op st st'.
Proof.
  intros Hfresh Hst. unfold trackerStep.
  assert (Hsame : statusOf c (snd (trackerExec op s)) = statusOf c s ->
                  exists st', statusOf c (snd (trackerExec op s)) = Some st'
                              /\ transition c op st st').
  { intros ->. exists st. split; [exact Hst|constructor]. }
  unfold statusOf in *.
  destruct (chains s !! c) as [ch|] eqn:Hc; [|discriminate].
  injection Hst as Hst.
  destruct op; simpl in *.
  - (* startThoughtProcess *)
    apply Hsame. unfold startThoughtProcess.
    destruct (Js.isBlank goal); simpl; [now rewrite Hc|].
    rewrite lookup_insert_ne by congruence. now rewrite Hc.
  - (* addThought *)
    apply Hsame.
    pose proof (addThought_status uuid now chainId thought type parentThoughtId
                  confidence s c) as H.
    unfold statusOf in H. now rewrite H, Hc.
  - (* branchThought *)
    apply Hsame. unfold branchThought.
    destruct (thoughts s !! thoughtId) as [orig|]; [|simpl; now rewrite Hc].
    destruct (chains s !! th_parent_chain orig) as [pc|]; [|simpl; now rewrite Hc].
    match goal with
    | |- context [addThought ?u ?n ?ci ?th ?ty ?pa ?co ?s0] =>
        pose proof (addThought_status u n ci th ty pa co s0 c) as H
    end.
    unfold statusOf in H. rewrite H. simpl.
    rewrite lookup_insert_ne by congruence.
    rewrite status_alter by reflexivity. now rewrite Hc.
  - (* evaluateThought *)
    apply Hsame. unfold evaluateThought.
    destruct (thoughts s !! thoughtId); [|simpl; now rewrite Hc].
    destruct (confidenceOutOfRange confidence); simpl; now rewrite Hc.
  - (* completeThoughtProcess *)
    unfold completeThoughtProcess.
    destruct (chains s !! chainId) as [ch'|] eqn:Hc';
      [|exists st; split; [simpl; rewrite Hc; simpl; congruence|constructor]].
    destruct (Js.isBlank conclusion);
      [exists st; split; [simpl; rewrite Hc; simpl; congruence|constructor]|]. simpl.
    rewrite (status_alter_set _ completed chainId c (chains s) ch) by easy.
    destruct (decide (chainId = c)) as [->|Hne].
    + exists completed. split; [reflexivity|]. eapply transition_complete. reflexivity.
    + exists st. split; [now rewrite Hst|constructor].
  - (* pauseThinking *)
    unfold pauseThinking.
    destruct (chains s !! chainId) as [ch'|] eqn:Hc';
      [|exists st; split; [simpl; rewrite Hc; simpl; congruence|constructor]]. simpl.
    rewrite (status_alter_set _ paused chainId c (chains s) ch) by easy.
    destruct (decide (chainId = c)) as [->|Hne].
    + exists paused. split; [reflexivity|]. eapply transition_pause. reflexivity.
    + exists st. split; [now rewrite Hst|constructor].
  - (* resumeThinking *)
    unfold resumeThinking.
    destruct (chains s !! chainId) as [ch'|] eqn:Hc';
      [|exists st; split; [simpl; rewrite Hc; simpl; congruence|constructor]].
    destruct (bool_decide_reflect (ch_status ch' = paused)) as [Hp|Hp]; simpl;
      [|exists st; split; [simpl; rewrite Hc; simpl; congruence|constructor]].
    rewrite (status_alter_set _ active chainId c (chains s) ch) by easy.
    destruct (decide (chainId = c)) as [->|Hne].
    + exists active. split; [reflexivity|].
      assert (ch' = ch) by congruence. subst ch'. rewrite <- Hst, Hp.
      now apply transition_resume.
    + exists st. split; [now rewrite Hst|constructor].
  - (* switchCognitiveMode *)
    apply Hsame. unfold switchCognitiveMode.
    destruct (given chainId) as [cid|]; simpl; [|now rewrite Hc].
    destruct (chains s !! cid); simpl; [|now rewrite Hc].
    rewrite status_alter by reflexivity. now rewrite Hc.
Qed.

(** A completed chain stays completed along every run that never calls
    [pauseThinking] on it. *)
Lemma completed_is_kept_without_pause ops s c :
  statusOf c s = Some completed ->
  freshRun ops s ->
  forallb (fun op => negb (pausesChain c op)) ops = true ->
  statusOf c (trackerRun ops s) = Some completed.
Proof.
  revert s. induction ops as [|op ops IH]; intros s Hst Hfresh Hnp; [exact Hst|].
  simpl in *. destruct Hfresh as [Hf Hrest].
  apply andb_true_iff in Hnp as [Hop Hnp].
  apply IH; [|exact Hrest|exact Hnp].
  destruct (status_step op s c completed Hf Hst) as [st' [Hst' Htr]].
  rewrite Hst'. f_equal.
  inversion Htr; subst; try reflexivity.
  simpl in Hop. now rewrite String.eqb_refl in Hop.
Qed.

End ChainStatusFacts.

Section ChainStatusTheorems.
Import ThinkingProcess.

(** C7, as stated, fails: a chain started and completed on a fresh tracker
    is moved to paused by [pauseThinking], which has no status guard, and
    from there to active by [resumeThinking]. *)
Lemma completed_chain_is_paused_and_resumed :
  let s := trackerRun [TStart Sample.idA Sample.t0 "find the cause" None;
                       TComplete Sample.t1 Sample.idD Sample.t1 Sample.idA "done"]
                      Sample.tracker0 in
  statusOf Sample.idA s = Some completed
  /\ freshRun [TPause Sample.idA "later"; TResume Sample.idA] s
  /\ statusOf Sample.idA (trackerRun [TPause Sample.idA "later"] s) = Some paused
  /\ statusOf Sample.idA
       (trackerRun [TPause Sample.idA "later"; TResume Sample.idA] s) = Some active.
Proof. cbv zeta. repeat split. Qed.

(** C7, amended: completed is left only through [pauseThinking].  One
    operation (its chain ids newly drawn) keeps every existing chain in the
    map and changes its status only in these ways: [completeThoughtProcess]
    on it makes it completed, [pauseThinking] on it makes it paused, both
    from any status, and [resumeThinking] on it makes a paused chain
    active.  Hence a completed chain is still completed after every run of
    operations that does not call [pauseThinking] on it. *)
Theorem chain_status_transitions op ops s c st :
  (drawsFreshChainId op s ->
   statusOf c s = Some st ->
   exists st', statusOf c (trackerStep s op) = Some st' /\ transition c op st st')
  /\
  (statusOf c s = Some completed ->
   freshRun ops s ->
   forallb (fun o => negb (pausesChain c o)) ops = true ->
   statusOf c (trackerRun ops s) = Some completed).
Proof.
  split.
  - apply status_step.
  - apply completed_is_kept_without_pause.
Qed.

(** An instance: a completed chain after six further operations, none of
    them a pause of that chain. *)
Lemma chain_status_transitions_witness :
  let s := trackerRun [TStart Sample.idA Sample.t0 "find the cause" None;
                       TComplete Sample.t1 Sample.idD Sample.t1 Sample.idA "done"]
                      Sample.tracker0 in
  let ops := [TAddThought Sample.idB Sample.t1 Sample.idA "one more" analysis None None;
              TResume Sample.idA;
              TStart Sample.idC Sample.t1 "another goal" None;
              TPause Sample.idC "not now";
              TSwitchMode creative (Some Sample.idA);
              TComplete Sample.t1 Sample.idD Sample.t1 Sample.idA "done again"] in
  (exists st', statusOf Sample.idA (trackerStep s (TPause Sample.idA "later")) = Some st'
               /\ transition Sample.idA (TPause Sample.idA "later") completed st')
  /\ statusOf Sample.idA (trackerRun ops s) = Some completed.
Proof.
  cbv zeta.
  set (s := trackerRun _ Sample.tracker0).
  set (ops := [TAddThought _ _ _ _ _ _ _; _; _; _; _; _]).
  split.
  - apply (proj1 (chain_status_transitions (TPause Sample.idA "later") ops s
                    Sample.idA completed)); [exact I|].
    vm_compute. reflexivity.
  - apply (proj2 (chain_status_transitions (TResume Sample.idA) ops s
                    Sample.idA completed)).
    + vm_compute. reflexivity.
    + vm_compute. repeat split.
    + reflexivity.
Defined.

End ChainStatusTheorems.

(** * The storage manager *)

Section StorageFacts.
Import StorageManager.
Variable stringify : JsMap LongTermMemoryNode -> string.

Lemma isLocked_fresh now d l :
  lockFile d = Some l -> now - lock_mtimeMs l <= staleAfterMs ->
  isLocked now d = (true, d).
Proof.
  intros Hl Hage. unfold isLocked. rewrite Hl.
  destruct (Z.ltb_spec staleAfterMs (now - lock_mtimeMs l)); [lia|reflexivity].
Qed.

Lemma isLocked_stale now d l :
  lockFile d = Some l -> staleAfterMs < now - lock_mtimeMs l ->
  isLocked now d = (false, removeLock d).
Proof.
  intros Hl Hage. unfold isLocked. rewrite Hl.
  destruct (Z.ltb_spec staleAfterMs (now - lock_mtimeMs l)); [reflexivity|lia].
Qed.

(** C8: [save] against a lock file.  (1) A lock whose age is at most five
    minutes (so every age under five minutes) makes [save] fail with the
    "locked" error and leave the disk, the primary file included, as it
    was.  (2) A lock older than five minutes is removed and, the two writes
    going through, [save] succeeds with the serialized snapshot in the
    primary file.  (3) Whatever the file system does to the writes, after
    [save] either no lock file exists, or the call was the rejected one of
    (1) and the lock on disk is the one found, not one this call made. *)
Theorem save_lock_protocol nowCheck nowLock io snapshot sm d :
  let r := save stringify nowCheck nowLock io snapshot sm d in
  (forall l, lockFile d = Some l ->
             nowCheck - lock_mtimeMs l <= 5 * 60 * 1000 ->
             r = (Failure "Storage is locked by another process", d))
  /\ (forall l, lockFile d = Some l ->
                5 * 60 * 1000 < nowCheck - lock_mtimeMs l ->
                io WriteLock = None -> io WriteMemory = None ->
                isLocked nowCheck d = (false, removeLock d)
                /\ fst r = Success tt
                /\ memoryFile (snd r) = Some (stringify snapshot)
                /\ lockFile (snd r) = None)
  /\ (lockFile (snd r) = None
      \/ (r = (Failure "Storage is locked by another process", d)
          /\ exists l, lockFile d = Some l
                       /\ nowCheck - lock_mtimeMs l <= 5 * 60 * 1000)).
Proof.
  cbv zeta. split; [|split].
  - intros l Hl Hage. unfold save. now rewrite (isLocked_fresh _ _ _ Hl Hage).
  - intros l Hl Hage Hw1 Hw2. unfold save.
    rewrite (isLocked_stale _ _ _ Hl Hage). unfold createLock.
    rewrite Hw1, Hw2. simpl. repeat split.
  - unfold save, isLocked.
    destruct (lockFile d) as [l|] eqn:Hl.
    + destruct (Z.ltb_spec staleAfterMs (nowCheck - lock_mtimeMs l)) as [Hs|Hs].
      * left. unfold createLock. destruct (io WriteLock); [reflexivity|].
        destruct (io WriteMemory); reflexivity.
      * right. split; [reflexivity|]. exists l. split; [reflexivity|exact Hs].
    + left. unfold createLock. destruct (io WriteLock); [reflexivity|].
      destruct (io WriteMemory); reflexivity.
Qed.

End StorageFacts.

(** The stale-lock scenario: a lock last written six minutes ago. *)
Lemma save_lock_protocol_witness :
  let now := 1700000000000 in
  let r := StorageManager.save Sample.countNodes now (now + 1)
             StorageManager.noFaults (LongTermMemory.nodes Sample.line)
             Sample.manager (Sample.lockedAt (now - 6 * 60 * 1000)) in
  fst r = Success tt
  /\ StorageManager.memoryFile (snd r) = Some "{...}"
  /\ StorageManager.lockFile (snd r) = None.
Proof.
  cbv zeta.
  pose proof (save_lock_protocol Sample.countNodes 1700000000000 (1700000000000 + 1)
                StorageManager.noFaults (LongTermMemory.nodes Sample.line)
                Sample.manager (Sample.lockedAt (1700000000000 - 6 * 60 * 1000)))
    as H.
  cbv zeta in H. destruct H as [_ [H _]].
  apply (H {| StorageManager.lock_content := 1700000000000 - 6 * 60 * 1000;
              StorageManager.lock_mtimeMs := 1700000000000 - 6 * 60 * 1000 |}
           eq_refl).
  - simpl. lia.
  - reflexivity.
  - reflexivity.
Defined.

(** * The short-term memory *)

Section ScratchFacts.
Import ShortTermMemory.
Implicit Types (s : t).

Lemma lastN_all {A} n (l : list A) : (length l <= n)%nat -> lastN n l = l.
Proof.
  intros H. unfold lastN. now replace (length l - n)%nat with 0%nat by lia.
Qed.

Lemma lastN_length {A} n (l : list A) : length (lastN n l) = Nat.min n (length l).
Proof. unfold lastN. rewrite length_drop. lia. Qed.

Lemma lastN_app_lastN {A} n (a b : list A) :
  lastN n (lastN n a ++ b) = lastN n (a ++ b).
Proof.
  unfold lastN. rewrite !length_app, length_drop.
  destruct (Nat.le_gt_cases (length a) n) as [Hle|Hgt].
  - replace (length a - n)%nat with 0%nat by lia. simpl. now rewrite Nat.sub_0_r.
  - rewrite <- (drop_app_le a b (length a - n)) by lia.
    rewrite drop_drop. f_equal. lia.
Qed.

Lemma lastN_rev {A} n (l : list A) : rev (lastN n l) = take n (rev l).
Proof. unfold lastN. now rewrite firstn_rev. Qed.

(** One accepted [add]: the new entry goes last and the buffer keeps its
    last [capacity] entries. *)
Lemma add_keeps_last now txt s :
  (Z.of_nat (length (memories s)) <= Z.max 0 (capacity s)) ->
  Js.isBlank txt = false ->
  memories (snd (add now txt s)) =
  lastN (Z.to_nat (capacity s))
        (memories s ++ [{| ste_text := Js.trim txt; ste_timestamp := now |}]).
Proof.
  intros Hinv Hb. unfold add. rewrite Hb. cbn [snd memories].
  rewrite length_app. simpl length.
  destruct (Z.ltb_spec (capacity s) (Z.of_nat (length (memories s) + 1))) as [Hover|Hfit].
  - unfold lastN. rewrite length_app. simpl length.
    replace (length (memories s) + 1 - Z.to_nat (capacity s))%nat with 1%nat by lia.
    now destruct (memories s).
  - rewrite lastN_all; [reflexivity|]. rewrite length_app. simpl. lia.
Qed.

Lemma add_keeps_capacity now txt s : capacity (snd (add now txt s)) = capacity s.
Proof. unfold add. now destruct (Js.isBlank txt). Qed.

Lemma shiftWhileOver_lastN n l : shiftWhileOver n l = lastN (Z.to_nat n) l.
Proof.
  induction l as [|e l IH]; [unfold lastN; now rewrite drop_nil|].
  cbn [shiftWhileOver length].
  destruct (Z.ltb_spec n (Z.of_nat (S (length l)))) as [Hover|Hfit].
  - rewrite IH. unfold lastN. cbn [length].
    replace (S (length l) - Z.to_nat n)%nat with (S (length l - Z.to_nat n)) by lia.
    reflexivity.
  - rewrite lastN_all; [reflexivity|]. cbn [length]. lia.
Qed.

Lemma scratchStep_keeps_bound s op :
  Z.of_nat (getCount s) <= Z.max 0 (capacity s) ->
  Z.of_nat (getCount (scratchStep s op)) <= Z.max 0 (capacity (scratchStep s op)).
Proof.
  unfold getCount. intros Hinv. destruct op as [now txt| |n]; simpl.
  - destruct (Js.isBlank txt) eqn:Hb.
    + unfold add. now rewrite Hb.
    + rewrite add_keeps_last, add_keeps_capacity by assumption.
      rewrite lastN_length. lia.
  - unfold clear. cbn [snd memories capacity length]. lia.
  - unfold setCapacity. destruct (Z.ltb_spec n 1); simpl; [exact Hinv|].
    rewrite shiftWhileOver_lastN, lastN_length. lia.
Qed.

(** X1: whatever sequence of add, clear and setCapacity calls is applied
    to a new short-term memory, the number of stored entries never exceeds
    the current capacity (nor 0, when the constructor was given a capacity
    below 0). *)
Theorem scratch_never_exceeds_capacity c ops :
  let s := scratchRun ops (new c) in
  Z.of_nat (getCount s) <= Z.max 0 (capacity s).
Proof.
  cbv zeta. unfold scratchRun.
  assert (H0 : Z.of_nat (getCount (new c)) <= Z.max 0 (capacity (new c)))
    by (unfold getCount, new; cbn [memories capacity length]; lia).
  revert H0. generalize (new c). induction ops as [|op ops IH]; intros s Hs.
  - exact Hs.
  - simpl. apply IH. now apply scratchStep_keeps_bound.
Qed.

Lemma addAll_keeps_last inputs s :
  Z.of_nat (length (memories s)) <= Z.max 0 (capacity s) ->
  memories (addAll inputs s) =
    lastN (Z.to_nat (capacity s)) (memories s ++ acceptedEntries inputs)
  /\ capacity (addAll inputs s) = capacity s.
Proof.
  unfold addAll, scratchRun, acceptedEntries.
  revert s. induction inputs as [|[now txt] inputs IH]; intros s Hinv.
  - simpl. rewrite app_nil_r. split; [|reflexivity].
    symmetry. apply lastN_all. lia.
  - cbn [map fold_left scratchStep fst snd List.filter].
    destruct (Js.isBlank txt) eqn:Hb; cbn [negb].
    + replace (snd (add now txt s)) with s by (unfold add; now rewrite Hb).
      now apply IH.
    + pose proof (scratchStep_keeps_bound s (SAdd now txt) Hinv) as Hinv'.
      unfold getCount in Hinv'. cbn [scratchStep] in Hinv'.
      destruct (IH _ Hinv') as [IH1 IH2].
      rewrite IH1, IH2, add_keeps_capacity, add_keeps_last by assumption.
      split; [|reflexivity].
      rewrite lastN_app_lastN. cbn [map]. now rewrite <- app_assoc.
Qed.

(** X2: after any sequence of [add] calls on a new short-term memory of
    capacity [c], the memory holds the last [c] accepted entries in arrival
    order (blank texts are refused, the others trimmed), and [getAll]
    returns those entries newest first; with a capacity of 0 or less every
    [add] of a visible text succeeds and nothing is kept. *)
Theorem scratch_holds_most_recent c inputs :
  memories (addAll inputs (new c)) = lastN (Z.to_nat c) (acceptedEntries inputs)
  /\ getAll (addAll inputs (new c))
     = Success (take (Z.to_nat c) (rev (acceptedEntries inputs))).
Proof.
  destruct (addAll_keeps_last inputs (new c)) as [H _];
    [unfold new; cbn [memories capacity length]; lia|].
  simpl in H. split; [exact H|].
  unfold getAll. now rewrite H, lastN_rev.
Qed.

(** X3: [setCapacity(n)] with [n] below 1 fails and changes nothing; with
    [n] at least 1 it succeeds, sets the capacity and keeps exactly the
    newest [n] entries, so that [getAll] afterwards is the first [n]
    entries of [getAll] before. *)
Theorem setCapacity_keeps_newest n s :
  (n < 1 -> setCapacity n s = (Failure "Capacity must be at least 1", s))
  /\ (1 <= n ->
      fst (setCapacity n s) = Success tt
      /\ capacity (snd (setCapacity n s)) = n
      /\ memories (snd (setCapacity n s)) = lastN (Z.to_nat n) (memories s)
      /\ forall before, getAll s = Success before ->
           getAll (snd (setCapacity n s)) = Success (take (Z.to_nat n) before)).
Proof.
  unfold setCapacity. split; intros Hn.
  - destruct (Z.ltb_spec n 1); [reflexivity|lia].
  - destruct (Z.ltb_spec n 1); [lia|]. cbn [fst snd capacity memories].
    rewrite shiftWhileOver_lastN. repeat split.
    unfold getAll. cbn [memories]. intros before [= <-]. now rewrite lastN_rev.
Qed.

(** An instance: three entries cut down to a capacity of 2. *)
Lemma setCapacity_keeps_newest_witness :
  let s := addAll [(1, "a"); (2, "b"); (3, "c")] (new 5) in
  getAll (snd (setCapacity 2 s))
  = Success [ {| ste_text := "c"; ste_timestamp := 3 |};
              {| ste_text := "b"; ste_timestamp := 2 |} ]
  /\ setCapacity 0 s = (Failure "Capacity must be at least 1", s).
Proof.
  cbv zeta. split.
  - destruct (proj2 (setCapacity_keeps_newest 2
                       (addAll [(1, "a"); (2, "b"); (3, "c")] (new 5))))
      as [_ [_ [_ H]]]; [lia|].
    apply (H [ {| ste_text := "c"; ste_timestamp := 3 |};
               {| ste_text := "b"; ste_timestamp := 2 |};
               {| ste_text := "a"; ste_timestamp := 1 |} ]).
    reflexivity.
  - apply (proj1 (setCapacity_keeps_newest 0
                    (addAll [(1, "a"); (2, "b"); (3, "c")] (new 5)))). lia.
Defined.

End ScratchFacts.

(** * Further properties of the memory graph *)

Section MemoryGraphMore.
Import LongTermMemory.
Context {engine : Js.Engine}.
Implicit Types (s : t) (m : JsMap LongTermMemoryNode).

Lemma isBlank_trim txt : Js.isBlank txt = (String.length (Js.trim txt) =? 0)%nat.
Proof. unfold Js.isBlank. now destruct txt. Qed.

Lemma map_set_In {V} k (v : V) k' v' (m : JsMap V) :
  In (k', v') (map_set k v m) -> (k', v') = (k, v) \/ In (k', v') m.
Proof.
  induction m as [|[k0 v0] m IH]; simpl.
  - intros [H|[]]. now left.
  - destruct (String.eqb k0 k); simpl; intros [H|H]; auto.
    destruct (IH H); auto.
Qed.

Lemma map_has_set_mono {V} k (v : V) a (m : JsMap V) :
  map_has a m = true -> map_has a (map_set k v m) = true.
Proof.
  unfold map_has. destruct (String.eqb_spec k a) as [->|Hne].
  - now rewrite map_get_set_eq.
  - now rewrite map_get_set_ne.
Qed.

Lemma map_set_present_keys {V} k (v : V) (m : JsMap V) :
  map_has k m = true -> map_keys (map_set k v m) = map_keys m.
Proof. intros H. now rewrite map_keys_set, H. Qed.

Lemma map_get_has {V} k (v : V) (m : JsMap V) : map_get k m = Some v -> map_has k m = true.
Proof. unfold map_has. now intros ->. Qed.

(** X4: a successful [update] replaces the text (trimmed) and the
    association list as wholes, sets [lastAccessed], keeps the id, the
    creation time and the access count, marks the store dirty, and leaves
    every other node, the keys and their order as they were. *)
Theorem update_replaces_fields now ident newText newAssociations s node :
  map_get ident (nodes s) = Some node ->
  (forall nt, newText = Some nt -> Js.isBlank nt = false) ->
  (forall na a, newAssociations = Some na -> In a na -> map_has a (nodes s) = true) ->
  let r := update now ident newText newAssociations s in
  fst r = Success tt
  /\ isDirty (snd r) = true
  /\ map_keys (nodes (snd r)) = map_keys (nodes s)
  /\ map_get ident (nodes (snd r)) =
       Some {| id := id node;
               text := default (text node) (Js.trim <$> newText);
               associations := default (associations node) newAssociations;
               metadata := {| createdAt := createdAt (metadata node);
                              lastAccessed := now;
                              accessCount := accessCount (metadata node) |} |}
  /\ (forall k, k <> ident -> map_get k (nodes (snd r)) = map_get k (nodes s)).
Proof.
  intros Hg Htxt Hassoc r. subst r. unfold update. rewrite Hg.
  assert (Hkeys : forall v, map_keys (map_set ident v (nodes s)) = map_keys (nodes s))
    by (intros v; apply map_set_present_keys; now apply (map_get_has _ node)).
  destruct newText as [nt|].
  - specialize (Htxt nt eq_refl). rewrite isBlank_trim in Htxt. rewrite Htxt.
    destruct newAssociations as [na|].
    + assert (Hna : unknownAssociation
                      (nodes {| nodes := map_set ident (set_text node (Js.trim nt)) (nodes s);
                                isDirty := isDirty s |}) na = None).
      { apply unknownAssociation_None. intros a Ha. cbn [nodes].
        apply map_has_set_mono. now apply (Hassoc na). }
      rewrite Hna. cbn [fst snd nodes isDirty]. rewrite map_get_set_eq, Hkeys.
      repeat split. intros k Hk. now apply map_get_set_ne.
    + cbn [fst snd nodes isDirty]. rewrite map_get_set_eq, Hkeys.
      repeat split. intros k Hk. now apply map_get_set_ne.
  - destruct newAssociations as [na|].
    + assert (Hna : unknownAssociation
                      (nodes {| nodes := map_set ident node (nodes s);
                                isDirty := isDirty s |}) na = None).
      { apply unknownAssociation_None. intros a Ha. cbn [nodes].
        apply map_has_set_mono. now apply (Hassoc na). }
      rewrite Hna. cbn [fst snd nodes isDirty]. rewrite map_get_set_eq, Hkeys.
      repeat split. intros k Hk. now apply map_get_set_ne.
    + cbn [fst snd nodes isDirty]. rewrite map_get_set_eq, Hkeys.
      repeat split. intros k Hk. now apply map_get_set_ne.
Qed.

(** An instance: in the line graph, A gets a new text and the associations
    [C, C]. *)
Lemma update_replaces_fields_witness :
  let r := update Sample.t1 Sample.idA (Some "  renamed ")
             (Some [Sample.idC; Sample.idC]) Sample.line in
  fst r = Success tt
  /\ (text <$> map_get Sample.idA (nodes (snd r))) = Some "renamed"
  /\ (associations <$> map_get Sample.idA (nodes (snd r)))
     = Some [Sample.idC; Sample.idC].
Proof.
  cbv zeta.
  destruct (update_replaces_fields Sample.t1 Sample.idA (Some "  renamed ")
              (Some [Sample.idC; Sample.idC]) Sample.line
              {| id := Sample.idA; text := "a"; associations := [Sample.idB];
                 metadata := {| createdAt := Sample.t0; lastAccessed := Sample.t0;
                                accessCount := 0 |} |})
    as [H1 [_ [_ [H4 _]]]].
  - reflexivity.
  - intros nt [= <-]. reflexivity.
  - intros na a [= <-] [<-|[<-|[]]]; reflexivity.
  - split; [exact H1|]. rewrite H4. split; reflexivity.
Defined.

Lemma add_keeps_consistency uuid now txt assocs s :
  referenceConsistent (nodes s) ->
  referenceConsistent (nodes (snd (add uuid now txt assocs s))).
Proof.
  intros Hc. unfold add. destruct (Js.isBlank txt); [exact Hc|].
  destruct (unknownAssociation (nodes s) assocs) eqn:Hu; [exact Hc|].
  cbn [snd nodes]. intros k n a Hin Ha. apply map_has_set_mono.
  apply map_set_In in Hin as [[= -> ->]|Hin].
  - cbn [associations] in Ha. now apply (proj1 (unknownAssociation_None _ _) Hu).
  - now apply (Hc k n).
Qed.

Lemma set_node_keeps_consistency ident node' m :
  referenceConsistent m ->
  (forall a, In a (associations node') -> map_has a m = true) ->
  referenceConsistent (map_set ident node' m).
Proof.
  intros Hc Hnew k n a Hin Ha. apply map_has_set_mono.
  apply map_set_In in Hin as [[= -> ->]|Hin]; [now apply Hnew|now apply (Hc k n)].
Qed.

Lemma memoryStep_keeps_consistency op s :
  unvalidated op = false ->
  referenceConsistent (nodes s) -> referenceConsistent (nodes (memoryStep s op)).
Proof.
  intros Hop Hc. unfold memoryStep. destruct op; simpl in *; try discriminate;
    try exact Hc.
  - now apply add_keeps_consistency.
  - unfold get. destruct (map_get ident (nodes s)) as [node|] eqn:Hg; [|exact Hc].
    cbv zeta.
    assert (Hc' : referenceConsistent
                    (map_set ident
                       (set_metadata node
                          {| createdAt := createdAt (metadata node); lastAccessed := now;
                             accessCount := accessCount (metadata node) + 1 |})
                       (nodes s))).
    { apply set_node_keeps_consistency; [exact Hc|]. intros a Ha.
      apply (Hc ident node a); [now apply map_get_Some_In|exact Ha]. }
    cbn [nodes]. now destruct (getAssociatedNodes _ _ _).
  - unfold update. destruct (map_get ident (nodes s)) as [node|] eqn:Hg; [|exact Hc].
    assert (Hold : forall a, In a (associations node) -> map_has a (nodes s) = true).
    { intros a Ha. apply (Hc ident node a); [now apply map_get_Some_In|exact Ha]. }
    assert (Hval : forall node1 na,
               unknownAssociation (map_set ident node1 (nodes s)) na = None ->
               forall a, In a na -> map_has a (nodes s) = true).
    { intros node1 na Hu a Ha.
      pose proof (proj1 (unknownAssociation_None _ _) Hu a Ha) as Hh.
      unfold map_has in *. destruct (String.eqb_spec ident a) as [->|Hne].
      - now rewrite Hg.
      - now rewrite map_get_set_ne in Hh. }
    destruct newText as [nt|];
      [destruct (String.length (Js.trim nt) =? 0)%nat; [exact Hc|]|];
      (destruct newAssociations as [na|];
       [cbn [nodes]; destruct (unknownAssociation _ na) eqn:Hu|]);
      cbn [snd nodes]; (apply set_node_keeps_consistency; [exact Hc|]);
      cbn [associations set_metadata set_associations set_text];
      try exact Hold; now apply (Hval _ _ Hu).
Qed.

(** X5: every graph reached from the empty one through operations other
    than [delete] and [loadNodes] is reference-consistent: each id in each
    association list is the key of a stored node.  This holds after
    failed calls as well, the failed [update] that has already replaced
    the text included. *)
Theorem validated_writes_keep_references ops :
  forallb (fun op => negb (unvalidated op)) ops = true ->
  referenceConsistent (nodes (memoryRun ops new)).
Proof.
  unfold memoryRun.
  assert (H0 : referenceConsistent (nodes new)) by (intros k n a []).
  revert H0. generalize new. induction ops as [|op ops IH]; intros s Hs Hops.
  - exact Hs.
  - simpl in *. apply andb_true_iff in Hops as [Hop Hops].
    apply IH; [|exact Hops]. apply memoryStep_keeps_consistency; [|exact Hs].
    now destruct (unvalidated op).
Qed.

End MemoryGraphMore.

(** An instance: two adds, a refused add, an update and a get. *)
Lemma validated_writes_keep_references_witness :
  referenceConsistent
    (LongTermMemory.nodes (memoryRun (engine := Sample.engine)
              [MAdd Sample.idA Sample.t0 "x" [];
               MAdd Sample.idB Sample.t0 "y" [Sample.idA; Sample.idA];
               MAdd Sample.idC Sample.t0 "z" [Sample.idD];
               MUpdate Sample.t1 Sample.idA (Some "x2") (Some [Sample.idB; Sample.idA]);
               MGet Sample.t1 Sample.idB (Some 2)] LongTermMemory.new)).
Proof.
  apply (validated_writes_keep_references (engine := Sample.engine)). reflexivity.
Defined.

Section MemoryGraphReads.
Import LongTermMemory.
Implicit Types (s : t) (m : JsMap LongTermMemoryNode).

Lemma add_appends_node uuid now txt assocs s :
  Js.isBlank txt = false ->
  (forall a, In a assocs -> map_has a (nodes s) = true) ->
  map_has uuid (nodes s) = false ->
  nodes (snd (add uuid now txt assocs s)) =
  nodes s ++ [(uuid, {| id := uuid; text := Js.trim txt; associations := assocs;
                        metadata := {| createdAt := now; lastAccessed := now;
                                       accessCount := 0 |} |})].
Proof.
  intros Htxt Hknown Hfresh. unfold add.
  rewrite Htxt, (proj2 (unknownAssociation_None _ _) Hknown). cbn [snd nodes].
  apply map_set_fresh. unfold map_has in Hfresh.
  now destruct (map_get uuid (nodes s)).
Qed.

Lemma neighbour_at_one m root n :
  expectedNeighbour m root 1 n <->
  exists x rootNode, x <> root /\ map_get x m = Some n
                     /\ map_get root m = Some rootNode
                     /\ In x (associations rootNode).
Proof.
  split.
  - intros [x [Hg [Hne [j [Hj Hr]]]]].
    destruct j as [|[|j]]; [apply reach_zero in Hr; congruence| |lia].
    apply reach_one in Hr as [rn [Hrn Hin]]. now exists x, rn.
  - intros [x [rn [Hne [Hg [Hrn Hin]]]]]. exists x. split; [exact Hg|].
    split; [exact Hne|]. exists 1%nat. split; [lia|].
    apply reach_hop with (b := root); [apply reach_here|]. now exists rn.
Qed.

(** X6: what [add] stored is what the readers return.  After a successful
    [add] under a new id, [getAssociations] of that id returns the list
    that was given, and [get] at the default depth returns the node with
    the trimmed text, an access count of 1, and besides it exactly the
    stored nodes named in the association list. *)
Theorem add_then_read uuid now now' txt assocs s :
  Js.isBlank txt = false ->
  (forall a, In a assocs -> map_has a (nodes s) = true) ->
  map_has uuid (nodes s) = false ->
  let s1 := snd (add uuid now txt assocs s) in
  getAssociations uuid s1 = Success assocs
  /\ exists target ns,
       fst (get now' uuid None s1)
         = Success {| mwa_node := target; mwa_associations := ns |}
       /\ id target = uuid /\ text target = Js.trim txt
       /\ associations target = assocs
       /\ accessCount (metadata target) = 1
       /\ forall n, In n ns <->
                    exists a, In a assocs /\ map_get a (nodes s) = Some n.
Proof.
  intros Htxt Hknown Hfresh s1. subst s1.
  assert (Hs1 : map_get uuid (nodes (snd (add uuid now txt assocs s))) =
                Some {| id := uuid; text := Js.trim txt; associations := assocs;
                        metadata := {| createdAt := now; lastAccessed := now;
                                       accessCount := 0 |} |}).
  { unfold add. rewrite Htxt, (proj2 (unknownAssociation_None _ _) Hknown).
    cbn [snd nodes]. apply map_get_set_eq. }
  assert (Hother : forall k, k <> uuid ->
             map_get k (nodes (snd (add uuid now txt assocs s))) = map_get k (nodes s)).
  { intros k Hk. unfold add.
    rewrite Htxt, (proj2 (unknownAssociation_None _ _) Hknown).
    cbn [snd nodes]. now apply map_get_set_ne. }
  split; [unfold getAssociations; now rewrite Hs1|].
  destruct (get_exact_for_depth_at_most_1 now' uuid None _ _ Hs1)
    as [target [ns [Hget Hns]]]; [simpl; lia|].
  exists target, ns. split; [exact Hget|].
  assert (Ht : target = {| id := uuid; text := Js.trim txt; associations := assocs;
                           metadata := {| createdAt := now; lastAccessed := now';
                                          accessCount := 1 |} |}).
  { unfold get in Hget. rewrite Hs1 in Hget. cbv zeta in Hget.
    destruct (getAssociatedNodes _ _ _) in Hget; [|discriminate].
    now injection Hget as <- _. }
  subst target. repeat split.
  - intros Hin. apply Hns in Hin. apply neighbour_at_one in Hin
      as [x [rn [Hne [Hg [Hrn Hin]]]]].
    unfold get in Hg, Hrn. rewrite Hs1 in Hg, Hrn. cbv zeta in Hg, Hrn.
    destruct (getAssociatedNodes _ _ _) in Hg, Hrn; cbn [snd nodes] in Hg, Hrn;
      rewrite map_get_set_eq in Hrn; injection Hrn as <-;
      rewrite map_get_set_ne in Hg by congruence;
      rewrite Hother in Hg by exact Hne; now exists x.
  - intros [a [Ha Hg]]. apply Hns. apply neighbour_at_one.
    assert (Hne : a <> uuid).
    { intros ->. unfold map_has in Hfresh. now rewrite Hg in Hfresh. }
    eexists a, _. split; [exact Hne|].
    unfold get. rewrite Hs1. cbv zeta.
    destruct (getAssociatedNodes _ _ _); cbn [snd nodes];
      rewrite map_get_set_eq, map_get_set_ne by congruence;
      rewrite Hother by exact Hne; (split; [exact Hg|split; [reflexivity|exact Ha]]).
Qed.

(** An instance: "world" added to the graph holding A, associated with A. *)
Lemma add_then_read_witness :
  let s1 := snd (add Sample.idB Sample.t0 " world " [Sample.idA]
                   (Sample.addTo Sample.idA "hello" [] new)) in
  getAssociations Sample.idB s1 = Success [Sample.idA].
Proof.
  cbv zeta.
  apply (add_then_read Sample.idB Sample.t0 Sample.t1 " world " [Sample.idA]
           (Sample.addTo Sample.idA "hello" [] new)).
  - reflexivity.
  - intros a [<-|[]]. reflexivity.
  - reflexivity.
Defined.

Lemma loaded_entries entries (acc : JsMap LongTermMemoryNode) :
  NoDup (map_keys (acc ++ entries)) ->
  fold_left (fun m kv => map_set (fst kv) (snd kv) m) entries acc = acc ++ entries.
Proof.
  revert acc. induction entries as [|[k v] entries IH]; intros acc Hnd; simpl.
  - now rewrite app_nil_r.
  - assert (Hfresh : map_get k acc = None).
    { apply map_get_None_keys. intros Hin. unfold map_keys in Hnd.
      rewrite map_app in Hnd. apply NoDup_app in Hnd as [_ [Hdis _]].
      apply (Hdis k); [now apply list_elem_of_In|]. simpl. apply list_elem_of_here. }
    rewrite (map_set_fresh _ _ _ Hfresh), IH; [now rewrite <- app_assoc|].
    now rewrite <- app_assoc.
Qed.

(** X7: [loadNodes] of entries with pairwise distinct keys installs exactly
    these entries, in their order, in place of whatever was stored, and
    clears the dirty flag; so [loadNodes(getAllNodes())] gives back the
    node map it was taken from. *)
Theorem loadNodes_installs_entries entries s :
  map_wf entries ->
  fst (loadNodes entries s) = Success tt
  /\ nodes (snd (loadNodes entries s)) = entries
  /\ isDirty (snd (loadNodes entries s)) = false
  /\ (forall s', getAllNodes s' = entries ->
        getAllNodes (snd (loadNodes (getAllNodes s') s)) = getAllNodes s').
Proof.
  intros Hwf. unfold loadNodes. cbn [fst snd nodes isDirty].
  rewrite (loaded_entries entries []) by exact Hwf. repeat split.
  intros s' Hs'. unfold getAllNodes in *. cbn [nodes]. rewrite Hs'.
  now rewrite (loaded_entries entries []) by exact Hwf.
Qed.

(** An instance: the node map of the line graph loaded over another
    graph. *)
Lemma loadNodes_installs_entries_witness :
  nodes (snd (loadNodes (getAllNodes Sample.line) Sample.twoMatches))
  = nodes Sample.line.
Proof.
  assert (Hwf : map_wf (getAllNodes Sample.line))
    by (unfold map_wf; apply (bool_decide_unpack _); vm_compute; exact I).
  exact (proj1 (proj2 (loadNodes_installs_entries (getAllNodes Sample.line)
                         Sample.twoMatches Hwf))).
Defined.

Lemma map_delete_length {V} k (m : JsMap V) :
  map_has k m = true -> length (map_delete k m) = pred (length m).
Proof.
  unfold map_has. induction m as [|[k0 v0] m IH]; simpl; [discriminate|].
  destruct (String.eqb k0 k); [reflexivity|]. intros H. simpl. rewrite IH by exact H.
  destruct m; [discriminate H|reflexivity].
Qed.

(** X8: once [delete] has removed a stored node, the store holds one node
    fewer, [get], [getAssociations], [update] and a second [delete] of that
    id all fail, and every other node is still stored under its key with
    its id, text and metadata untouched. *)
Theorem deleted_node_is_gone x s :
  map_wf (nodes s) -> map_has x (nodes s) = true ->
  let s' := snd (delete x s) in
  getCount s' = pred (getCount s)
  /\ (forall now depthOpt, success (fst (get now x depthOpt s')) = false)
  /\ success (getAssociations x s') = false
  /\ (forall now newText newAssociations,
        success (fst (update now x newText newAssociations s')) = false)
  /\ success (fst (delete x s')) = false
  /\ (forall k n, k <> x -> map_get k (nodes s) = Some n ->
        exists n', map_get k (nodes s') = Some n'
                   /\ id n' = id n /\ text n' = text n
                   /\ metadata n' = metadata n).
Proof.
  intros Hwf Hhas s'.
  destruct (delete_removes_node x s Hwf Hhas) as [_ [Hgone _]]. fold s' in Hgone.
  repeat split.
  - subst s'. unfold delete, getCount, map_size. rewrite Hhas. cbn [negb snd nodes].
    rewrite map_delete_length by now rewrite map_has_stripFirst.
    now rewrite length_map.
  - intros now depthOpt. unfold get. now rewrite Hgone.
  - unfold getAssociations. now rewrite Hgone.
  - intros now newText newAssociations. unfold update. now rewrite Hgone.
  - unfold delete, map_has. now rewrite Hgone.
  - intros k n Hk Hg. subst s'. unfold delete. rewrite Hhas. cbn [negb snd nodes].
    rewrite map_get_delete_ne by congruence.
    rewrite map_get_stripFirst, Hg. simpl. eexists. repeat split.
Qed.

(** An instance: B deleted from the line graph. *)
Lemma deleted_node_is_gone_witness :
  getCount (snd (delete Sample.idB Sample.line)) = 2%nat
  /\ success (getAssociations Sample.idB (snd (delete Sample.idB Sample.line))) = false.
Proof.
  assert (Hwf : map_wf (nodes Sample.line))
    by (unfold map_wf; apply (bool_decide_unpack _); vm_compute; exact I).
  destruct (deleted_node_is_gone Sample.idB Sample.line Hwf eq_refl)
    as [H1 [_ [H3 _]]].
  split; [exact H1|exact H3].
Defined.

(** X9: a successful [add] under a new id raises [getTotalAssociations] by
    the length of the association list it was given, duplicates counted. *)
Theorem add_raises_total_associations uuid now txt assocs s :
  Js.isBlank txt = false ->
  (forall a, In a assocs -> map_has a (nodes s) = true) ->
  map_has uuid (nodes s) = false ->
  getTotalAssociations (snd (add uuid now txt assocs s))
  = (getTotalAssociations s + length assocs)%nat.
Proof.
  intros Htxt Hknown Hfresh.
  pose proof (add_appends_node uuid now txt assocs s Htxt Hknown Hfresh) as Hnodes.
  unfold getTotalAssociations, map_values. rewrite Hnodes, map_app, fold_left_app.
  reflexivity.
Qed.

Lemma add_raises_total_associations_witness :
  getTotalAssociations Sample.twiceReferenced = 2%nat.
Proof.
  apply (add_raises_total_associations Sample.idB Sample.t0 "y"
           [Sample.idA; Sample.idA] (Sample.addTo Sample.idA "x" [] new)).
  - reflexivity.
  - intros a [<-|[<-|[]]]; reflexivity.
  - reflexivity.
Defined.

End MemoryGraphReads.

(** * Further properties of the thought tracker *)

Section TrackerSteps.
Import ThinkingProcess.
Implicit Types (s : t).

Lemma confidence_checked (c : Q) :
  confidenceOutOfRange c = false -> (0 <= c)%Q /\ (c <= 1)%Q.
Proof.
  unfold confidenceOutOfRange, Qltb. intros H.
  apply orb_false_iff in H as [H0 H1].
  apply negb_false_iff in H0, H1. now rewrite <- !Qle_bool_iff.
Qed.

(** The two outcomes of [addThought]: a failure that returns the state it
    was given, or a new thought stored under the drawn id, pushed onto the
    chain and, with a parent, onto the parent's [next_thoughts]. *)
Lemma addThought_cases uuid now chainId thought type parent confidenceOpt s :
  let r := addThought uuid now chainId thought type parent confidenceOpt s in
  (success (fst r) = false /\ snd r = s)
  \/ (exists chain node others,
        fst r = Success uuid
        /\ chains s !! chainId = Some chain /\ ch_status chain = active
        /\ Js.isBlank thought = false
        /\ snd r = {| chains := alter (chain_push_thought uuid) chainId (chains s);
                      thoughts := <[uuid := node]> others;
                      longTermMemory := longTermMemory s;
                      currentMode := currentMode s |}
        /\ th_id node = uuid /\ th_text node = Js.trim thought
        /\ th_associations node = [] /\ th_type node = type
        /\ th_confidence node = default (7 # 10)%Q confidenceOpt
        /\ confidenceOutOfRange (th_confidence node) = false
        /\ th_status node = th_active /\ th_parent_chain node = chainId
        /\ th_previous_thought node = parent /\ th_next_thoughts node = []
        /\ match given parent with
           | Some p => exists parentNode,
                 thoughts s !! p = Some parentNode
                 /\ others = alter (thought_push_next uuid) p (thoughts s)
                 /\ th_reasoning_depth node = th_reasoning_depth parentNode + 1
           | None => others = thoughts s /\ th_reasoning_depth node = 0
           end).
Proof.
  cbv zeta. unfold addThought.
  destruct (chains s !! chainId) as [chain|] eqn:Hc; [|now left].
  destruct (bool_decide_reflect (ch_status chain = active)) as [Hact|Hact];
    [|now left]. cbn [negb].
  destruct (Js.isBlank thought) eqn:Hb; [now left|].
  destruct (confidenceOutOfRange _) eqn:Hconf; [now left|].
  destruct (given parent) as [p|] eqn:Hgiven.
  - destruct (thoughts s !! p) as [parentNode|] eqn:Hp; [|now left].
    right. eexists chain, _, _. cbn [fst snd].
    repeat (split; [reflexivity || eassumption|]).
    cbn. repeat (split; [reflexivity || eassumption|]).
    exists parentNode. repeat split.
  - right. eexists chain, _, _. cbn [fst snd].
    repeat (split; [reflexivity || eassumption|]).
    cbn. repeat (split; [reflexivity || eassumption|]).
    repeat split.
Qed.

(** *** The structure of the two maps *)

Lemma linked_alter_chain (f : ThoughtChain -> ThoughtChain) k s s' :
  chains s' = alter f k (chains s) -> thoughts s' = thoughts s ->
  (forall c, ch_id (f c) = ch_id c /\ ch_thoughts (f c) = ch_thoughts c
             /\ ch_branches (f c) = ch_branches c) ->
  trackerLinked s -> trackerLinked s'.
Proof.
  intros Hc Ht Hf (H1 & H2 & H3 & H4 & H5). unfold trackerLinked.
  rewrite Hc, Ht.
  assert (Hold : forall j c, alter f k (chains s) !! j = Some c ->
            exists c0, chains s !! j = Some c0 /\ ch_id c = ch_id c0
                       /\ ch_thoughts c = ch_thoughts c0
                       /\ ch_branches c = ch_branches c0).
  { intros j c Hj. apply lookup_alter_Some in Hj as [[-> [x [Hx ->]]]|[_ Hj]].
    - exists x. split; [exact Hx|]. apply Hf.
    - now exists c. }
  repeat split.
  - intros j c Hj. destruct (Hold j c Hj) as [c0 [Hc0 [-> _]]]. now apply H1.
  - exact H2.
  - intros j c tid Hj Hin. destruct (Hold j c Hj) as [c0 [Hc0 [_ [Hth _]]]].
    rewrite Hth in Hin. now apply (H3 j c0).
  - intros j c b Hj Hin. destruct (Hold j c Hj) as [c0 [Hc0 [_ [_ Hbr]]]].
    rewrite Hbr in Hin. apply lookup_alter_is_Some. now apply (H4 j c0).
  - exact H5.
Qed.

Lemma linked_alter_thought (g : ThoughtNode -> ThoughtNode) k s s' :
  chains s' = chains s -> thoughts s' = alter g k (thoughts s) ->
  (forall n, th_id (g n) = th_id n /\ th_parent_chain (g n) = th_parent_chain n
             /\ th_next_thoughts (g n) = th_next_thoughts n) ->
  trackerLinked s -> trackerLinked s'.
Proof.
  intros Hc Ht Hg (H1 & H2 & H3 & H4 & H5). unfold trackerLinked.
  rewrite Hc, Ht.
  assert (Hold : forall j n, alter g k (thoughts s) !! j = Some n ->
            exists n0, thoughts s !! j = Some n0 /\ th_id n = th_id n0
                       /\ th_parent_chain n = th_parent_chain n0
                       /\ th_next_thoughts n = th_next_thoughts n0).
  { intros j n Hj. apply lookup_alter_Some in Hj as [[-> [x [Hx ->]]]|[_ Hj]].
    - exists x. split; [exact Hx|]. apply Hg.
    - now exists n. }
  assert (Hnew : forall j n0, thoughts s !! j = Some n0 ->
            exists n, alter g k (thoughts s) !! j = Some n
                      /\ th_parent_chain n = th_parent_chain n0).
  { intros j n0 Hj. destruct (decide (k = j)) as [->|Hne].
    - exists (g n0). rewrite lookup_alter_eq, Hj. split; [reflexivity|apply Hg].
    - exists n0. now rewrite lookup_alter_ne. }
  repeat split.
  - exact H1.
  - intros j n Hj. destruct (Hold j n Hj) as [n0 [Hn0 [-> _]]]. now apply H2.
  - intros j c tid Hj Hin. destruct (H3 j c tid Hj Hin) as [n0 [Hn0 Hp]].
    destruct (Hnew tid n0 Hn0) as [n [Hn Hpn]]. exists n. split; [exact Hn|congruence].
  - exact H4.
  - intros j n x Hj Hin. destruct (Hold j n Hj) as [n0 [Hn0 [_ [_ Hnx]]]].
    rewrite Hnx in Hin. apply lookup_alter_is_Some. now apply (H5 j n0).
Qed.

Lemma linked_insert_chain u c s s' :
  chains s' = <[u := c]> (chains s) -> thoughts s' = thoughts s ->
  ch_id c = u -> ch_thoughts c = [] -> ch_branches c = [] ->
  trackerLinked s -> trackerLinked s'.
Proof.
  intros Hc Ht Hid Hth Hbr (H1 & H2 & H3 & H4 & H5). unfold trackerLinked.
  rewrite Hc, Ht. repeat split.
  - intros j c' Hj. apply lookup_insert_Some in Hj as [[<- <-]|[_ Hj]];
      [exact Hid|now apply H1].
  - exact H2.
  - intros j c' tid Hj Hin. apply lookup_insert_Some in Hj as [[<- <-]|[_ Hj]].
    + rewrite Hth in Hin. destruct Hin.
    + now apply (H3 j c').
  - intros j c' b Hj Hin. apply lookup_insert_is_Some'.
    apply lookup_insert_Some in Hj as [[<- <-]|[_ Hj]].
    + rewrite Hbr in Hin. destruct Hin.
    + right. now apply (H4 j c').
  - exact H5.
Qed.

Lemma linked_completeThoughts ids s s' :
  chains s' = chains s -> thoughts s' = completeThoughts ids (thoughts s) ->
  trackerLinked s -> trackerLinked s'.
Proof.
  unfold completeThoughts. revert s s'.
  induction ids as [|tid ids IH]; intros s s' Hc Ht Hl.
  - simpl in Ht. destruct Hl as (H1 & H2 & H3 & H4 & H5). unfold trackerLinked.
    rewrite Hc, Ht. auto.
  - simpl in Ht.
    apply (IH {| chains := chains s;
                 thoughts := alter completeIfActive tid (thoughts s);
                 longTermMemory := longTermMemory s;
                 currentMode := currentMode s |}); [exact Hc|exact Ht|].
    apply (linked_alter_thought completeIfActive tid s); [reflexivity|reflexivity| |exact Hl].
    intros n. unfold completeIfActive. now destruct (bool_decide _).
Qed.

Lemma linked_addThought uuid now chainId thought type parent confidenceOpt s :
  thoughts s !! uuid = None ->
  trackerLinked s ->
  trackerLinked (snd (addThought uuid now chainId thought type parent confidenceOpt s)).
Proof.
  intros Hfresh Hl.
  destruct (addThought_cases uuid now chainId thought type parent confidenceOpt s)
    as [[_ ->]|(chain & node & others & _ & Hchain & _ & _ & -> & Hid & _ & _ & _ & _ & _
                & _ & Hpc & _ & Hnext & Hpar)]; [exact Hl|].
  destruct Hl as (H1 & H2 & H3 & H4 & H5).
  assert (Hothers : forall j n, others !! j = Some n ->
            exists n0, thoughts s !! j = Some n0 /\ th_id n = th_id n0
                       /\ th_parent_chain n = th_parent_chain n0
                       /\ (forall x, In x (th_next_thoughts n) ->
                             x = uuid \/ In x (th_next_thoughts n0))).
  { intros j n Hj. destruct (given parent) as [p|].
    - destruct Hpar as [pn [Hp [-> _]]].
      apply lookup_alter_Some in Hj as [[-> [x [Hx ->]]]|[_ Hj]].
      + exists x. repeat split; [exact Hx|]. cbn. intros y Hy.
        apply in_app_iff in Hy as [Hy|[<-|[]]]; auto.
      + exists n. auto.
    - destruct Hpar as [-> _]. exists n. auto. }
  assert (Hkeep : forall j n0, thoughts s !! j = Some n0 ->
            exists n, (<[uuid := node]> others) !! j = Some n
                      /\ th_parent_chain n = th_parent_chain n0).
  { intros j n0 Hj. assert (uuid <> j) by congruence.
    rewrite lookup_insert_ne by assumption. destruct (given parent) as [p|].
    - destruct Hpar as [pn [Hp [-> _]]]. destruct (decide (p = j)) as [->|Hne].
      + exists (thought_push_next uuid n0). now rewrite lookup_alter_eq, Hj.
      + exists n0. now rewrite lookup_alter_ne.
    - destruct Hpar as [-> _]. now exists n0. }
  unfold trackerLinked. cbn [chains thoughts]. repeat split.
  - intros j c Hj. apply lookup_alter_Some in Hj as [[-> [x [Hx ->]]]|[_ Hj]];
      [cbn; now apply H1|now apply H1].
  - intros j n Hj. apply lookup_insert_Some in Hj as [[<- <-]|[_ Hj]]; [exact Hid|].
    destruct (Hothers j n Hj) as [n0 [Hn0 [-> _]]]. now apply H2.
  - intros j c tid Hj Hin.
    apply lookup_alter_Some in Hj as [[-> [x [Hx ->]]]|[_ Hj]].
    + cbn in Hin. apply in_app_iff in Hin as [Hin|[<-|[]]].
      * destruct (H3 j x tid Hx Hin) as [n0 [Hn0 Hp0]].
        destruct (Hkeep tid n0 Hn0) as [n [Hn Hpn]]. exists n. split; [exact Hn|congruence].
      * exists node. now rewrite lookup_insert_eq.
    + destruct (H3 j c tid Hj Hin) as [n0 [Hn0 Hp0]].
      destruct (Hkeep tid n0 Hn0) as [n [Hn Hpn]]. exists n. split; [exact Hn|congruence].
  - intros j c b Hj Hin. apply lookup_alter_is_Some.
    apply lookup_alter_Some in Hj as [[-> [x [Hx ->]]]|[_ Hj]];
      [cbn in Hin; now apply (H4 j x)|now apply (H4 j c)].
  - intros j n x Hj Hin. apply lookup_insert_Some in Hj as [[<- <-]|[_ Hj]].
    + rewrite Hnext in Hin. destruct Hin.
    + destruct (Hothers j n Hj) as [n0 [Hn0 [_ [_ Hnx]]]].
      destruct (Hnx x Hin) as [->|Hx].
      * rewrite lookup_insert_eq. eauto.
      * destruct (H5 j n0 x Hn0 Hx) as [nx Hnx'].
        destruct (Hkeep x nx Hnx') as [n' [Hn' _]]. eauto.
Qed.

Lemma linked_branch_registered uc bc pk s s' :
  chains s' = <[uc := bc]> (alter (chain_push_branch uc) pk (chains s)) ->
  thoughts s' = thoughts s ->
  ch_id bc = uc -> ch_thoughts bc = [] -> ch_branches bc = [] ->
  trackerLinked s -> trackerLinked s'.
Proof.
  intros Hc Ht Hid Hth Hbr (H1 & H2 & H3 & H4 & H5). unfold trackerLinked.
  rewrite Hc, Ht.
  assert (Hold : forall j c, j <> uc ->
            (<[uc := bc]> (alter (chain_push_branch uc) pk (chains s))) !! j = Some c ->
            exists c0, chains s !! j = Some c0 /\ ch_id c = ch_id c0
                       /\ ch_thoughts c = ch_thoughts c0
                       /\ (forall b, In b (ch_branches c) ->
                             b = uc \/ In b (ch_branches c0))).
  { intros j c Hne Hj. rewrite lookup_insert_ne in Hj by congruence.
    apply lookup_alter_Some in Hj as [[-> [x [Hx ->]]]|[_ Hj]].
    - exists x. repeat split; [exact Hx|]. cbn. intros b Hb.
      apply in_app_iff in Hb as [Hb|[<-|[]]]; auto.
    - exists c. auto. }
  repeat split.
  - intros j c Hj. destruct (decide (j = uc)) as [->|Hne].
    + rewrite lookup_insert_eq in Hj. now injection Hj as <-.
    + destruct (Hold j c Hne Hj) as [c0 [Hc0 [-> _]]]. now apply H1.
  - exact H2.
  - intros j c tid Hj Hin. destruct (decide (j = uc)) as [->|Hne].
    + rewrite lookup_insert_eq in Hj. injection Hj as <-.
      rewrite Hth in Hin. destruct Hin.
    + destruct (Hold j c Hne Hj) as [c0 [Hc0 [_ [Hth0 _]]]].
      rewrite Hth0 in Hin. now apply (H3 j c0).
  - intros j c b Hj Hin. apply lookup_insert_is_Some'.
    destruct (decide (j = uc)) as [->|Hne].
    + rewrite lookup_insert_eq in Hj. injection Hj as <-.
      rewrite Hbr in Hin. destruct Hin.
    + destruct (Hold j c Hne Hj) as [c0 [Hc0 [_ [_ Hb]]]].
      destruct (Hb b Hin) as [->|Hb0]; [now left|].
      right. apply lookup_alter_is_Some. now apply (H4 j c0).
  - exact H5.
Qed.

Lemma linked_step op s :
  drawsFreshIds op s -> trackerLinked s -> trackerLinked (trackerStep s op).
Proof.
  intros Hfresh Hl. unfold trackerStep. destruct op; simpl in *.
  - unfold startThoughtProcess. destruct (Js.isBlank goal); [exact Hl|].
    eapply (linked_insert_chain uuid _ s); [reflexivity|reflexivity| | | |exact Hl];
      reflexivity.
  - now apply linked_addThought.
  - unfold branchThought. destruct (thoughts s !! thoughtId) as [orig|]; [|exact Hl].
    destruct (chains s !! th_parent_chain orig) as [pc|]; [|exact Hl].
    apply linked_addThought; [apply Hfresh|].
    eapply (linked_branch_registered uuidChain _ _ s); [reflexivity|reflexivity| | | |exact Hl];
      reflexivity.
  - unfold evaluateThought. destruct (thoughts s !! thoughtId); [|exact Hl].
    destruct (confidenceOutOfRange confidence); [exact Hl|].
    eapply (linked_alter_thought _ thoughtId s); [reflexivity|reflexivity| |exact Hl].
    intros n. repeat split.
  - unfold completeThoughtProcess. destruct (chains s !! chainId) as [chain|]; [|exact Hl].
    destruct (Js.isBlank conclusion); [exact Hl|].
    eapply (linked_completeThoughts (ch_thoughts chain)
              {| chains := alter (fun c => chain_with_completed_at now
                                             (chain_with_status completed c))
                                 chainId (chains s);
                 thoughts := thoughts s; longTermMemory := longTermMemory s;
                 currentMode := currentMode s |}); [reflexivity|reflexivity|].
    eapply (linked_alter_chain _ chainId s); [reflexivity|reflexivity| |exact Hl].
    intros c. repeat split.
  - unfold pauseThinking. destruct (chains s !! chainId); [|exact Hl].
    eapply (linked_alter_chain _ chainId s); [reflexivity|reflexivity| |exact Hl].
    intros c. repeat split.
  - unfold resumeThinking. destruct (chains s !! chainId); [|exact Hl].
    destruct (negb _); [exact Hl|].
    eapply (linked_alter_chain _ chainId s); [reflexivity|reflexivity| |exact Hl].
    intros c. repeat split.
  - unfold switchCognitiveMode.
    assert (Hl' : trackerLinked {| chains := chains s; thoughts := thoughts s;
                                   longTermMemory := longTermMemory s;
                                   currentMode := mode |}) by exact Hl.
    destruct (given chainId) as [cid|]; [|exact Hl'].
    destruct (chains s !! cid); [|exact Hl'].
    eapply (linked_alter_chain _ cid s); [reflexivity|reflexivity| |exact Hl].
    intros c. repeat split.
Qed.

Lemma invariant_along_run (Inv : t -> Prop) :
  (forall op s, drawsFreshIds op s -> Inv s -> Inv (trackerStep s op)) ->
  forall ops s, freshIdsRun ops s -> Inv s -> Inv (trackerRun ops s).
Proof.
  intros Hstep. unfold trackerRun.
  induction ops as [|op ops IH]; intros s Hf Hi; [exact Hi|].
  destruct Hf as [Hf Hrest]. simpl. apply IH; [exact Hrest|]. now apply Hstep.
Qed.

(** X10: the tracker's two maps stay linked.  A new tracker is linked,
    and every operation whose drawn identifiers are new keeps it so: each
    chain and thought is stored under its own id, every id in a chain's
    [thoughts] is a stored thought owned by that chain, every id in a
    chain's [branches] is a stored chain, and every id in a thought's
    [next_thoughts] is a stored thought. *)
Theorem tracker_maps_stay_linked ltm ops :
  freshIdsRun ops (new ltm) -> trackerLinked (trackerRun ops (new ltm)).
Proof.
  intros Hfresh. apply (invariant_along_run trackerLinked linked_step); [exact Hfresh|].
  unfold trackerLinked, new. cbn [chains thoughts].
  repeat split; intros *; rewrite lookup_empty; discriminate.
Qed.

(** An instance: a chain, a thought, a branch and a completion. *)
Lemma tracker_maps_stay_linked_witness :
  trackerLinked
    (trackerRun
       [TStart Sample.idA Sample.t0 "find the cause" None;
        TAddThought Sample.idB Sample.t0 Sample.idA "logs show a timeout"
                    observation None None;
        TBranch Sample.idC Sample.t1 Sample.idD Sample.t1 Sample.idB
                "what if the cache is cold" None None;
        TComplete Sample.t1 Sample.idD Sample.t1 Sample.idA "done"]
       (new Sample.line)).
Proof.
  apply tracker_maps_stay_linked. vm_compute. repeat split.
Defined.

(** *** Depths and confidences *)

Lemma depth_alter_thought (g : ThoughtNode -> ThoughtNode) k s s' :
  thoughts s' = alter g k (thoughts s) ->
  (forall n, th_previous_thought (g n) = th_previous_thought n
             /\ th_reasoning_depth (g n) = th_reasoning_depth n) ->
  depthsConsistent s -> depthsConsistent s'.
Proof.
  intros Ht Hg Hd j n Hj. rewrite Ht in *.
  assert (Hkeep : forall q Q, thoughts s !! q = Some Q ->
            exists Q', alter g k (thoughts s) !! q = Some Q'
                       /\ th_reasoning_depth Q' = th_reasoning_depth Q).
  { intros q Q Hq. destruct (decide (k = q)) as [->|Hne].
    - exists (g Q). rewrite lookup_alter_eq, Hq. split; [reflexivity|apply Hg].
    - exists Q. now rewrite lookup_alter_ne. }
  assert (Hold : exists n0, thoughts s !! j = Some n0
                   /\ th_previous_thought n = th_previous_thought n0
                   /\ th_reasoning_depth n = th_reasoning_depth n0).
  { apply lookup_alter_Some in Hj as [[-> [x [Hx ->]]]|[_ Hj]].
    - exists x. split; [exact Hx|apply Hg].
    - now exists n. }
  destruct Hold as [n0 [Hn0 [Hprev Hdep]]]. rewrite Hprev, Hdep.
  specialize (Hd j n0 Hn0). destruct (given (th_previous_thought n0)) as [q|]; [|exact Hd].
  destruct Hd as [Q [HQ HdQ]]. destruct (Hkeep q Q HQ) as [Q' [HQ' Hdep']].
  exists Q'. split; [exact HQ'|congruence].
Qed.

Lemma depth_completeThoughts ids s s' :
  thoughts s' = completeThoughts ids (thoughts s) ->
  depthsConsistent s -> depthsConsistent s'.
Proof.
  unfold completeThoughts. revert s s'.
  induction ids as [|tid ids IH]; intros s s' Ht Hd.
  - simpl in Ht. intros j n Hj. rewrite Ht in *. exact (Hd j n Hj).
  - simpl in Ht.
    apply (IH {| chains := chains s;
                 thoughts := alter completeIfActive tid (thoughts s);
                 longTermMemory := longTermMemory s;
                 currentMode := currentMode s |}); [exact Ht|].
    apply (depth_alter_thought completeIfActive tid s); [reflexivity| |exact Hd].
    intros n. unfold completeIfActive. now destruct (bool_decide _).
Qed.

Lemma depth_addThought uuid now chainId thought type parent confidenceOpt s :
  thoughts s !! uuid = None ->
  depthsConsistent s ->
  depthsConsistent (snd (addThought uuid now chainId thought type parent confidenceOpt s)).
Proof.
  intros Hfresh Hd.
  destruct (addThought_cases uuid now chainId thought type parent confidenceOpt s)
    as [[_ ->]|(chain & node & others & _ & _ & _ & _ & -> & _ & _ & _ & _ & _ & _
                & _ & _ & Hprev & _ & Hpar)]; [exact Hd|].
  assert (Hkeep : forall q Q, thoughts s !! q = Some Q ->
            exists Q', (<[uuid := node]> others) !! q = Some Q'
                       /\ th_reasoning_depth Q' = th_reasoning_depth Q).
  { intros q Q Hq. assert (uuid <> q) by congruence.
    rewrite lookup_insert_ne by assumption. destruct (given parent) as [p|].
    - destruct Hpar as [pn [_ [-> _]]]. destruct (decide (p = q)) as [->|Hne].
      + exists (thought_push_next uuid Q). now rewrite lookup_alter_eq, Hq.
      + exists Q. now rewrite lookup_alter_ne.
    - destruct Hpar as [-> _]. now exists Q. }
  intros j n Hj. cbn [thoughts] in *.
  apply lookup_insert_Some in Hj as [[<- <-]|[Hne Hj]].
  - rewrite Hprev. destruct (given parent) as [p|]; [|apply Hpar].
    destruct Hpar as [pn [Hp [_ Hdep]]].
    destruct (Hkeep p pn Hp) as [Q' [HQ' Hdep']]. exists Q'. split; [exact HQ'|congruence].
  - assert (Hold : exists n0, thoughts s !! j = Some n0
                     /\ th_previous_thought n = th_previous_thought n0
                     /\ th_reasoning_depth n = th_reasoning_depth n0).
    { destruct (given parent) as [p|].
      - destruct Hpar as [pn [_ [-> _]]].
        apply lookup_alter_Some in Hj as [[-> [x [Hx ->]]]|[_ Hj]];
          [now exists x|now exists n].
      - destruct Hpar as [-> _]. now exists n. }
    destruct Hold as [n0 [Hn0 [Hp0 Hd0]]]. rewrite Hp0, Hd0.
    specialize (Hd j n0 Hn0).
    destruct (given (th_previous_thought n0)) as [q|]; [|exact Hd].
    destruct Hd as [Q [HQ HdQ]]. destruct (Hkeep q Q HQ) as [Q' [HQ' Hdep']].
    exists Q'. split; [exact HQ'|congruence].
Qed.

Lemma depth_step op s :
  drawsFreshIds op s -> depthsConsistent s -> depthsConsistent (trackerStep s op).
Proof.
  intros Hfresh Hd. unfold trackerStep. destruct op; simpl in *.
  - unfold startThoughtProcess. destruct (Js.isBlank goal); exact Hd.
  - now apply depth_addThought.
  - unfold branchThought. destruct (thoughts s !! thoughtId) as [orig|]; [|exact Hd].
    destruct (chains s !! th_parent_chain orig) as [pc|]; [|exact Hd].
    apply depth_addThought; [apply Hfresh|exact Hd].
  - unfold evaluateThought. destruct (thoughts s !! thoughtId); [|exact Hd].
    destruct (confidenceOutOfRange confidence); [exact Hd|].
    eapply (depth_alter_thought _ thoughtId s); [reflexivity| |exact Hd].
    intros n. split; reflexivity.
  - unfold completeThoughtProcess. destruct (chains s !! chainId) as [chain|]; [|exact Hd].
    destruct (Js.isBlank conclusion); [exact Hd|].
    now apply (depth_completeThoughts (ch_thoughts chain) s).
  - unfold pauseThinking. destruct (chains s !! chainId); exact Hd.
  - unfold resumeThinking. destruct (chains s !! chainId); [|exact Hd].
    destruct (negb _); exact Hd.
  - unfold switchCognitiveMode. destruct (given chainId) as [cid|]; [|exact Hd].
    destruct (chains s !! cid); exact Hd.
Qed.

(** X11: in every state reached from a new tracker by operations whose
    drawn identifiers are new, the [reasoning_depth] of each thought is 0
    when it has no parent and one more than the depth of its stored parent
    when it has one - across chains as well, and whatever was evaluated,
    completed, paused or branched in between. *)
Theorem reasoning_depths_stay_consistent ltm ops :
  freshIdsRun ops (new ltm) -> depthsConsistent (trackerRun ops (new ltm)).
Proof.
  intros Hfresh. apply (invariant_along_run depthsConsistent depth_step); [exact Hfresh|].
  intros k n Hk. unfold new in Hk. cbn [thoughts] in Hk.
  rewrite lookup_empty in Hk. discriminate.
Qed.

(** An instance: a root thought, a child of it, and a grandchild placed in
    another chain. *)
Lemma reasoning_depths_stay_consistent_witness :
  let s := trackerRun
             [TStart Sample.idA Sample.t0 "first goal" None;
              TStart Sample.idB Sample.t0 "second goal" None;
              TAddThought Sample.idC Sample.t0 Sample.idA "root" observation None None;
              TAddThought Sample.idD Sample.t0 Sample.idA "child" analysis
                          (Some Sample.idC) None;
              TAddThought "0000000e-0000-4000-8000-000000000000" Sample.t0 Sample.idB
                          "grandchild" analysis (Some Sample.idD) (Some (1 # 2)%Q)]
             (new Sample.line) in
  depthsConsistent s.
Proof.
  cbv zeta. apply reasoning_depths_stay_consistent. vm_compute. repeat split.
Defined.

Lemma confidence_alter_thought (g : ThoughtNode -> ThoughtNode) k s s' :
  thoughts s' = alter g k (thoughts s) ->
  (forall n, (0 <= th_confidence n)%Q /\ (th_confidence n <= 1)%Q ->
             (0 <= th_confidence (g n))%Q /\ (th_confidence (g n) <= 1)%Q) ->
  confidencesInRange s -> confidencesInRange s'.
Proof.
  intros Ht Hg Hc j n Hj. rewrite Ht in Hj.
  apply lookup_alter_Some in Hj as [[-> [x [Hx ->]]]|[_ Hj]].
  - apply Hg. now apply (Hc j).
  - now apply (Hc j).
Qed.

Lemma confidence_completeThoughts ids s s' :
  thoughts s' = completeThoughts ids (thoughts s) ->
  confidencesInRange s -> confidencesInRange s'.
Proof.
  unfold completeThoughts. revert s s'.
  induction ids as [|tid ids IH]; intros s s' Ht Hc.
  - simpl in Ht. intros j n Hj. rewrite Ht in Hj. now apply (Hc j).
  - simpl in Ht.
    apply (IH {| chains := chains s;
                 thoughts := alter completeIfActive tid (thoughts s);
                 longTermMemory := longTermMemory s;
                 currentMode := currentMode s |}); [exact Ht|].
    apply (confidence_alter_thought completeIfActive tid s); [reflexivity| |exact Hc].
    intros n. unfold completeIfActive. now destruct (bool_decide _).
Qed.

Lemma confidence_addThought uuid now chainId thought type parent confidenceOpt s :
  confidencesInRange s ->
  confidencesInRange
    (snd (addThought uuid now chainId thought type parent confidenceOpt s)).
Proof.
  intros Hc.
  destruct (addThought_cases uuid now chainId thought type parent confidenceOpt s)
    as [[_ ->]|(chain & node & others & _ & _ & _ & _ & -> & _ & _ & _ & _ & _ & Hconf
                & _ & _ & _ & _ & Hpar)]; [exact Hc|].
  intros j n Hj. cbn [thoughts] in Hj.
  apply lookup_insert_Some in Hj as [[<- <-]|[_ Hj]];
    [now apply confidence_checked|].
  destruct (given parent) as [p|].
  - destruct Hpar as [pn [_ [-> _]]].
    apply lookup_alter_Some in Hj as [[-> [x [Hx ->]]]|[_ Hj]];
      [cbn; now apply (Hc j)|now apply (Hc j)].
  - destruct Hpar as [-> _]. now apply (Hc j).
Qed.

Lemma confidence_step op s :
  confidencesInRange s -> confidencesInRange (trackerStep s op).
Proof.
  intros Hc. unfold trackerStep. destruct op; simpl in *.
  - unfold startThoughtProcess. destruct (Js.isBlank goal); exact Hc.
  - now apply confidence_addThought.
  - unfold branchThought. destruct (thoughts s !! thoughtId) as [orig|]; [|exact Hc].
    destruct (chains s !! th_parent_chain orig) as [pc|]; [|exact Hc].
    apply confidence_addThought. exact Hc.
  - unfold evaluateThought. destruct (thoughts s !! thoughtId); [|exact Hc].
    destruct (confidenceOutOfRange confidence) eqn:Hr; [exact Hc|].
    eapply (confidence_alter_thought _ thoughtId s); [reflexivity| |exact Hc].
    intros n _. cbn. now apply confidence_checked.
  - unfold completeThoughtProcess. destruct (chains s !! chainId) as [chain|]; [|exact Hc].
    destruct (Js.isBlank conclusion); [exact Hc|].
    now apply (confidence_completeThoughts (ch_thoughts chain) s).
  - unfold pauseThinking. destruct (chains s !! chainId); exact Hc.
  - unfold resumeThinking. destruct (chains s !! chainId); [|exact Hc].
    destruct (negb _); exact Hc.
  - unfold switchCognitiveMode. destruct (given chainId) as [cid|]; [|exact Hc].
    destruct (chains s !! cid); exact Hc.
Qed.

(** X12: every stored thought has a confidence between 0 and 1, in every
    state reached from a new tracker, whatever the operations and their
    arguments: [addThought], [branchThought] and [evaluateThought] refuse a
    confidence outside that range and nothing else writes the field.
    Confidences are rationals here; NaN, on which both comparisons of the
    source are false, is not among them. *)
Theorem confidences_stay_in_range ltm ops :
  confidencesInRange (trackerRun ops (new ltm)).
Proof.
  unfold trackerRun.
  assert (H0 : confidencesInRange (new ltm)).
  { intros k n Hk. unfold new in Hk. cbn [thoughts] in Hk.
    rewrite lookup_empty in Hk. discriminate. }
  revert H0. generalize (new ltm). induction ops as [|op ops IH]; intros s Hs.
  - exact Hs.
  - simpl. apply IH. now apply confidence_step.
Qed.

End TrackerSteps.

Section TrackerOperations.
Import ThinkingProcess.
Implicit Types (s : t).

(** X13: [branchThought] on an existing thought whose chain is stored -
    whatever the status of that chain, completed and paused included -
    with a visible text, a confidence within [0, 1] and new identifiers
    succeeds and returns the id of the new thought.  It stores a new active
    chain whose only thought is that new thought, at depth 0 and without a
    parent, whose context is the goal of the source chain and whose goal is
    "Branch from: " followed by the first 50 characters of the source
    thought and "..."; the source chain gains exactly the new chain id at
    the end of its branches; the source thought itself is not changed. *)
Theorem branchThought_creates_branch
    uuidChain nowChain uuidThought nowThought thoughtId newThought typeOpt
    confidenceOpt s orig parentChain :
  thoughts s !! thoughtId = Some orig ->
  chains s !! th_parent_chain orig = Some parentChain ->
  Js.isBlank newThought = false ->
  (0 <= default (6 # 10) confidenceOpt)%Q ->
  (default (6 # 10) confidenceOpt <= 1)%Q ->
  chains s !! uuidChain = None ->
  thoughts s !! uuidThought = None ->
  let r := branchThought uuidChain nowChain uuidThought nowThought thoughtId
             newThought typeOpt confidenceOpt s in
  fst r = Success uuidThought
  /\ (exists bc, chains (snd r) !! uuidChain = Some bc
        /\ ch_status bc = active /\ ch_thoughts bc = [uuidThought]
        /\ ch_branches bc = [] /\ ch_context bc = Some (ch_goal parentChain)
        /\ ch_goal bc = "Branch from: " +:+
                        Js.substringTo 50 (th_text orig) +:+ "..."
        /\ ch_cognitive_mode bc = currentMode s)
  /\ (exists pc, chains (snd r) !! th_parent_chain orig = Some pc
        /\ ch_branches pc = ch_branches parentChain ++ [uuidChain]
        /\ ch_thoughts pc = ch_thoughts parentChain
        /\ ch_status pc = ch_status parentChain)
  /\ (exists n, thoughts (snd r) !! uuidThought = Some n
        /\ th_reasoning_depth n = 0 /\ th_previous_thought n = None
        /\ th_parent_chain n = uuidChain /\ th_text n = Js.trim newThought
        /\ th_type n = default hypothesis typeOpt)
  /\ thoughts (snd r) !! thoughtId = Some orig.
Proof.
  intros Ho Hp Htxt Hc0 Hc1 Hfc Hft r. subst r.
  assert (Hne : th_parent_chain orig <> uuidChain) by congruence.
  assert (Hnt : uuidThought <> thoughtId) by congruence.
  unfold branchThought. rewrite Ho, Hp. unfold addThought. cbn [chains thoughts].
  rewrite lookup_insert_eq. cbn [ch_status]. cbn [bool_decide negb decide_rel].
  rewrite (bool_decide_eq_true_2 (active = active)) by reflexivity. cbn [negb].
  rewrite Htxt. cbn [default from_option Datatypes.id].
  rewrite (confidence_in_range _ Hc0 Hc1).
  cbn [given fst snd chains thoughts]. repeat split.
  - eexists. rewrite lookup_alter_eq, lookup_insert_eq. cbn. repeat split.
  - exists (chain_push_branch uuidChain parentChain).
    rewrite lookup_alter_ne by congruence.
    rewrite lookup_insert_ne by congruence.
    rewrite lookup_alter_eq, Hp. repeat split.
  - eexists. rewrite lookup_insert_eq. repeat split.
  - rewrite lookup_insert_ne by exact Hnt. exact Ho.
Qed.

(** An instance: a branch from the only thought of a completed chain. *)
Lemma branchThought_creates_branch_witness :
  let s := trackerRun [TComplete Sample.t1 Sample.idD Sample.t1 Sample.idA "done"]
                      Sample.trackerWithThought in
  fst (branchThought Sample.idC Sample.t1 Sample.idD Sample.t1 Sample.idB
         "what if the cache is cold" None None s)
  = Success Sample.idD.
Proof.
  cbv zeta.
  eapply (branchThought_creates_branch Sample.idC Sample.t1 Sample.idD Sample.t1
            Sample.idB "what if the cache is cold" None None).
  - vm_compute. reflexivity.
  - vm_compute. reflexivity.
  - reflexivity.
  - discriminate.
  - discriminate.
  - vm_compute. reflexivity.
  - vm_compute. reflexivity.
Defined.

(** X14: [startThoughtProcess] with a visible goal stores an active chain
    with the trimmed goal and context, no thoughts and no branches, and the
    tracker's current mode; that mode is a copy: switching the tracker's
    mode afterwards without naming the chain leaves the chain's mode as it
    was, while a chain started after the switch gets the new mode.  A blank
    goal is refused and nothing changes. *)
Theorem startThoughtProcess_copies_mode uuid now goal context mode uuid' s :
  (Js.isBlank goal = true ->
   startThoughtProcess uuid now goal context s = (Failure "Goal cannot be empty", s))
  /\ (Js.isBlank goal = false -> uuid' <> uuid ->
      let s1 := snd (startThoughtProcess uuid now goal context s) in
      let s2 := snd (switchCognitiveMode mode None s1) in
      let s3 := snd (startThoughtProcess uuid' now goal context s2) in
      fst (startThoughtProcess uuid now goal context s) = Success uuid
      /\ chains s1 !! uuid =
           Some {| ch_id := uuid; ch_goal := Js.trim goal;
                   ch_context := Js.trim <$> context; ch_created_at := now;
                   ch_completed_at := None; ch_status := active;
                   ch_thoughts := []; ch_branches := [];
                   ch_cognitive_mode := currentMode s |}
      /\ thoughts s1 = thoughts s
      /\ currentMode s2 = mode
      /\ chains s2 !! uuid = chains s1 !! uuid
      /\ chains s3 !! uuid = chains s1 !! uuid
      /\ ch_cognitive_mode <$> chains s3 !! uuid' = Some mode).
Proof.
  split.
  - intros Hb. unfold startThoughtProcess. now rewrite Hb.
  - intros Hb Hne. cbv zeta. unfold startThoughtProcess, switchCognitiveMode.
    rewrite Hb. cbn [given fst snd chains thoughts currentMode].
    rewrite !lookup_insert_eq. rewrite lookup_insert_ne by exact Hne.
    rewrite lookup_insert_eq. repeat split.
Qed.

Lemma startThoughtProcess_copies_mode_witness :
  ch_cognitive_mode <$>
    chains (snd (switchCognitiveMode creative None
                   (snd (startThoughtProcess Sample.idA Sample.t0 " plan " None
                           Sample.tracker0)))) !! Sample.idA
  = Some analytical.
Proof.
  destruct (proj2 (startThoughtProcess_copies_mode Sample.idA Sample.t0 " plan " None
                     creative Sample.idB Sample.tracker0) eq_refl)
    as [_ [H2 [_ [_ [H5 _]]]]]; [discriminate|].
  cbv zeta in H5. rewrite H5, H2. reflexivity.
Defined.

(** X15: [addThought] on a stored chain that is not active returns the
    failure "Cannot add thoughts to a non-active chain" and the state it
    was given, before any other argument is looked at; so it fails right
    after a successful [pauseThinking] or [completeThoughtProcess] of that
    chain, and works again after [resumeThinking]. *)
Theorem addThought_needs_active_chain
    uuid now chainId thought type parent confidenceOpt s chain :
  chains s !! chainId = Some chain ->
  (ch_status chain <> active ->
   addThought uuid now chainId thought type parent confidenceOpt s
   = (Failure "Cannot add thoughts to a non-active chain", s))
  /\ (forall reason,
        let s1 := snd (pauseThinking chainId reason s) in
        addThought uuid now chainId thought type parent confidenceOpt s1
        = (Failure "Cannot add thoughts to a non-active chain", s1)
        /\ statusOf chainId (snd (resumeThinking chainId s1)) = Some active)
  /\ (forall nowC uuidMem nowMem conclusion,
        Js.isBlank conclusion = false ->
        let s1 := snd (completeThoughtProcess nowC uuidMem nowMem chainId conclusion s) in
        addThought uuid now chainId thought type parent confidenceOpt s1
        = (Failure "Cannot add thoughts to a non-active chain", s1)).
Proof.
  intros Hc. split; [|split].
  - intros Hst. unfold addThought. rewrite Hc.
    now rewrite (bool_decide_eq_false_2 _ Hst).
  - intros reason. cbv zeta. unfold pauseThinking. rewrite Hc. cbn [snd].
    split.
    + unfold addThought. cbn [chains]. rewrite lookup_alter_eq, Hc. reflexivity.
    + unfold resumeThinking. cbn [chains]. rewrite lookup_alter_eq, Hc.
      cbn [fmap option_fmap option_map].
      rewrite bool_decide_eq_true_2 by reflexivity. cbn [negb snd].
      unfold statusOf. cbn [chains]. now rewrite !lookup_alter_eq, Hc.
  - intros nowC uuidMem nowMem conclusion Hb. cbv zeta.
    unfold completeThoughtProcess. rewrite Hc, Hb. cbn [snd].
    unfold addThought. cbn [chains]. rewrite lookup_alter_eq, Hc. reflexivity.
Qed.

Lemma addThought_needs_active_chain_witness :
  let s1 := snd (pauseThinking Sample.idA "lunch" Sample.trackerWithThought) in
  addThought Sample.idC Sample.t1 Sample.idA "more" analysis None None s1
  = (Failure "Cannot add thoughts to a non-active chain", s1).
Proof.
  cbv zeta.
  destruct (addThought_needs_active_chain Sample.idC Sample.t1 Sample.idA
              "more" analysis None None Sample.trackerWithThought
              {| ch_id := Sample.idA; ch_goal := "find the cause";
                 ch_context := None; ch_created_at := Sample.t0;
                 ch_completed_at := None; ch_status := active;
                 ch_thoughts := [Sample.idB]; ch_branches := [];
                 ch_cognitive_mode := analytical |})
    as [_ [H _]].
  - vm_compute. reflexivity.
  - apply (H "lunch").
Defined.

(** X16: [evaluateThought] overwrites.  Two evaluations in a row of a
    stored thought, each with a confidence within [0, 1], leave the second
    confidence (no averaging), raise the access count by two, set
    [lastAccessed] to the second time and append "reasoning:<text>" for
    each non-empty reasoning, in call order, to the thought's associations;
    the chains and every other thought are untouched.  The owning chain's
    status is never consulted. *)
Theorem evaluateThought_overwrites now1 now2 thoughtId c1 c2 reason1 reason2 s n :
  thoughts s !! thoughtId = Some n ->
  (0 <= c1)%Q -> (c1 <= 1)%Q -> (0 <= c2)%Q -> (c2 <= 1)%Q ->
  let r1 := evaluateThought now1 thoughtId c1 reason1 s in
  let r2 := evaluateThought now2 thoughtId c2 reason2 (snd r1) in
  fst r1 = Success tt /\ fst r2 = Success tt
  /\ chains (snd r2) = chains s
  /\ (forall k, k <> thoughtId -> thoughts (snd r2) !! k = thoughts s !! k)
  /\ exists n', thoughts (snd r2) !! thoughtId = Some n'
       /\ th_confidence n' = c2
       /\ accessCount (th_metadata n') = accessCount (th_metadata n) + 2
       /\ lastAccessed (th_metadata n') = now2
       /\ th_associations n' =
            th_associations n
            ++ (if Js.truthy reason1 then ["reasoning:" +:+ reason1] else [])
            ++ (if Js.truthy reason2 then ["reasoning:" +:+ reason2] else [])
       /\ th_status n' = th_status n
       /\ th_reasoning_depth n' = th_reasoning_depth n.
Proof.
  intros Hn H10 H11 H20 H21. cbv zeta. unfold evaluateThought.
  rewrite Hn, (confidence_in_range _ H10 H11). cbn [fst snd thoughts chains].
  rewrite lookup_alter_eq, Hn. cbn [fmap option_fmap option_map].
  rewrite (confidence_in_range _ H20 H21). cbn [fst snd thoughts chains].
  repeat split.
  - intros k Hk. now rewrite !lookup_alter_ne by congruence.
  - eexists. rewrite !lookup_alter_eq, Hn. cbn [fmap option_fmap option_map].
    split; [reflexivity|].
    cbn [thought_evaluated th_confidence th_metadata accessCount lastAccessed
         th_associations th_status th_reasoning_depth].
    repeat split.
    + lia.
    + destruct (Js.truthy reason1), (Js.truthy reason2);
        now rewrite <- ?app_assoc, ?app_nil_r.
Qed.

Lemma evaluateThought_overwrites_witness :
  th_confidence <$>
    thoughts (snd (evaluateThought Sample.t1 Sample.idB (1 # 4)%Q ""
               (snd (evaluateThought Sample.t1 Sample.idB (9 # 10)%Q "solid evidence"
                       Sample.trackerWithThought)))) !! Sample.idB
  = Some (1 # 4)%Q.
Proof.
  destruct (evaluateThought_overwrites Sample.t1 Sample.t1 Sample.idB
              (9 # 10)%Q (1 # 4)%Q "solid evidence" "" Sample.trackerWithThought
              {| th_id := Sample.idB; th_text := "logs show a timeout";
                 th_associations := [];
                 th_metadata := {| createdAt := Sample.t0; lastAccessed := Sample.t0;
                                   accessCount := 0 |};
                 th_type := observation; th_confidence := (7 # 10)%Q;
                 th_status := th_active; th_parent_chain := Sample.idA;
                 th_previous_thought := None; th_next_thoughts := [];
                 th_reasoning_depth := 0;
                 th_thought_metadata :=
                   {| thinking_time := Some 0; complexity := Some medium;
                      emotional_tone := None |} |})
    as [_ [_ [_ [_ [n' [Hn' [Hc _]]]]]]].
  - vm_compute. reflexivity.
  - discriminate.
  - discriminate.
  - discriminate.
  - discriminate.
  - cbv zeta in Hn'. rewrite Hn'. simpl. now rewrite Hc.
Defined.

(** X17: of all tracker operations only [completeThoughtProcess] reaches
    the long-term memory: every other operation, successful or not,
    returns it as it was, nodes and dirty flag alike. *)
Theorem only_completion_writes_memory op s :
  (forall now uuidMem nowMem chainId conclusion,
      op <> TComplete now uuidMem nowMem chainId conclusion) ->
  longTermMemory (trackerStep s op) = longTermMemory s.
Proof.
  intros Hop. unfold trackerStep. destruct op; simpl.
  - unfold startThoughtProcess. now destruct (Js.isBlank goal).
  - destruct (addThought_cases uuid now chainId thought type parentThoughtId
                confidence s) as [[_ ->]|(c & n & o & _ & _ & _ & _ & -> & _)];
      reflexivity.
  - unfold branchThought. destruct (thoughts s !! thoughtId) as [orig|]; [|reflexivity].
    destruct (chains s !! th_parent_chain orig) as [pc|]; [|reflexivity].
    match goal with
    | |- context [addThought ?u ?n ?c ?th ?ty ?pa ?co ?s0] =>
        destruct (addThought_cases u n c th ty pa co s0)
          as [[_ ->]|(c' & n' & o & _ & _ & _ & _ & -> & _)]
    end; reflexivity.
  - unfold evaluateThought. destruct (thoughts s !! thoughtId); [|reflexivity].
    now destruct (confidenceOutOfRange confidence).
  - now destruct (Hop now uuidMem nowMem chainId conclusion).
  - unfold pauseThinking. now destruct (chains s !! chainId).
  - unfold resumeThinking. destruct (chains s !! chainId); [|reflexivity].
    now destruct (negb _).
  - unfold switchCognitiveMode. destruct (given chainId) as [cid|]; [|reflexivity].
    now destruct (chains s !! cid).
Qed.

Lemma only_completion_writes_memory_witness :
  longTermMemory
    (trackerStep Sample.trackerWithThought
       (TBranch Sample.idC Sample.t1 Sample.idD Sample.t1 Sample.idB "other way"
                None None))
  = longTermMemory Sample.trackerWithThought.
Proof. apply only_completion_writes_memory. discriminate. Defined.

(** X18: completion is not guarded against repetition.  Completing a
    stored chain that has no thoughts twice, with visible conclusions and
    two new node ids, succeeds both times, leaves [completed_at] at the
    second time, and stores two summary nodes in the long-term memory, one
    per call. *)
Theorem completing_twice_stores_two_summaries
    now1 now2 uuid1 uuid2 nowMem chainId conclusion1 conclusion2 s chain :
  chains s !! chainId = Some chain ->
  ch_thoughts chain = [] ->
  Js.isBlank conclusion1 = false -> Js.isBlank conclusion2 = false ->
  map_has uuid1 (LongTermMemory.nodes (longTermMemory s)) = false ->
  map_has uuid2 (LongTermMemory.nodes (longTermMemory s)) = false ->
  uuid1 <> uuid2 ->
  let r1 := completeThoughtProcess now1 uuid1 nowMem chainId conclusion1 s in
  let r2 := completeThoughtProcess now2 uuid2 nowMem chainId conclusion2 (snd r1) in
  fst r1 = Success tt /\ fst r2 = Success tt
  /\ (exists c, chains (snd r2) !! chainId = Some c
         /\ ch_status c = completed /\ ch_completed_at c = Some now2)
  /\ LongTermMemory.getCount (longTermMemory (snd r2))
     = S (S (LongTermMemory.getCount (longTermMemory s)))
  /\ (exists n1 n2,
        map_get uuid1 (LongTermMemory.nodes (longTermMemory (snd r2))) = Some n1
        /\ map_get uuid2 (LongTermMemory.nodes (longTermMemory (snd r2))) = Some n2
        /\ text n1 = Js.trim ("[Thought Chain] " +:+ ch_goal chain +:+ newline +:+
                              "Conclusion: " +:+ conclusion1)
        /\ text n2 = Js.trim ("[Thought Chain] " +:+ ch_goal chain +:+ newline +:+
                              "Conclusion: " +:+ conclusion2)).
Proof.
  intros Hc Hth Hb1 Hb2 Hf1 Hf2 Hne. cbv zeta. unfold completeThoughtProcess.
  rewrite Hc, Hb1. cbn [fst snd chains thoughts longTermMemory].
  rewrite lookup_alter_eq, Hc. cbn [fmap option_fmap option_map].
  rewrite Hb2. cbn [fst snd chains thoughts longTermMemory ch_thoughts ch_goal
                    chain_with_completed_at chain_with_status].
  rewrite Hth. cbn [map]. unfold LongTermMemory.add.
  rewrite !summary_text_not_blank.
  cbn [LongTermMemory.unknownAssociation List.find snd LongTermMemory.nodes].
  rewrite !lookup_alter_eq, Hc.
  assert (Hg1 : map_get uuid1 (LongTermMemory.nodes (longTermMemory s)) = None).
  { unfold map_has in Hf1. now destruct (map_get uuid1 _). }
  assert (Hg2 : map_get uuid2 (LongTermMemory.nodes (longTermMemory s)) = None).
  { unfold map_has in Hf2. now destruct (map_get uuid2 _). }
  repeat split.
  - eexists. split; [reflexivity|]. split; reflexivity.
  - unfold LongTermMemory.getCount, map_size. cbn [LongTermMemory.nodes].
    rewrite (map_set_fresh uuid1) by exact Hg1.
    rewrite (map_set_fresh uuid2)
      by (apply map_get_None_keys; unfold map_keys; rewrite map_app, in_app_iff;
          intros [H|[H|[]]]; [now apply map_get_None_keys in Hg2|simpl in H; congruence]).
    rewrite !length_app. simpl. lia.
  - eexists _, _. rewrite map_get_set_ne by congruence.
    rewrite !map_get_set_eq. repeat split.
Qed.

Lemma completing_twice_stores_two_summaries_witness :
  let s := trackerRun [TStart Sample.idA Sample.t0 "find the cause" None]
                      Sample.tracker0 in
  LongTermMemory.getCount
    (longTermMemory
       (snd (completeThoughtProcess Sample.t1 "0000000f-0000-4000-8000-000000000000"
               Sample.t1 Sample.idA "again"
               (snd (completeThoughtProcess Sample.t1 Sample.idD Sample.t1 Sample.idA
                       "done" s)))))
  = 5%nat.
Proof.
  cbv zeta.
  destruct (completing_twice_stores_two_summaries Sample.t1 Sample.t1 Sample.idD
              "0000000f-0000-4000-8000-000000000000" Sample.t1 Sample.idA "done" "again"
              (trackerRun [TStart Sample.idA Sample.t0 "find the cause" None]
                          Sample.tracker0)
              {| ch_id := Sample.idA; ch_goal := "find the cause"; ch_context := None;
                 ch_created_at := Sample.t0; ch_completed_at := None;
                 ch_status := active; ch_thoughts := []; ch_branches := [];
                 ch_cognitive_mode := analytical |})
    as [_ [_ [_ [H _]]]].
  - vm_compute. reflexivity.
  - reflexivity.
  - reflexivity.
  - reflexivity.
  - reflexivity.
  - reflexivity.
  - discriminate.
  - exact H.
Defined.

End TrackerOperations.

Section TrackerQueries.
Import ThinkingProcess.
Implicit Types (s : t).

Lemma sum_from_bounds (ths : list ThoughtNode) (a : Q) :
  Forall (fun n => (0 <= th_confidence n)%Q /\ (th_confidence n <= 1)%Q) ths ->
  (a <= fold_left (fun sum n => sum + th_confidence n) ths a)%Q
  /\ (fold_left (fun sum n => sum + th_confidence n) ths a
      <= a + inject_Z (Z.of_nat (length ths)))%Q.
Proof.
  intros Hall. revert a. induction Hall as [|n ths [H0 H1] _ IH]; intros a.
  - cbn [fold_left length]. change (inject_Z (Z.of_nat 0)) with 0%Q. split; lra.
  - cbn [fold_left length]. destruct (IH (a + th_confidence n)%Q) as [Hlo Hhi].
    rewrite Nat2Z.inj_succ. unfold Z.succ. rewrite inject_Z_plus.
    change (inject_Z 1) with 1%Q. split; lra.
Qed.

Lemma maxWithZero_bounds xs :
  0 <= maxWithZero xs /\ forall x, In x xs -> x <= maxWithZero xs.
Proof.
  unfold maxWithZero. induction xs as [|y xs [IH0 IH]]; simpl.
  - split; [lia|tauto].
  - split; [lia|]. intros x [->|Hx]; [lia|]. specialize (IH x Hx). lia.
Qed.

Lemma two_statuses_bound (a b : ThoughtStatus) ths :
  a <> b -> (countStatus a ths + countStatus b ths <= length ths)%nat.
Proof.
  intros Hab. unfold countStatus. induction ths as [|n ths IH]; simpl; [lia|].
  destruct (bool_decide_reflect (th_status n = a)) as [Ha|Ha],
           (bool_decide_reflect (th_status n = b)) as [Hb|Hb]; simpl; try lia.
  congruence.
Qed.

Lemma omap_shorter {A B} (f : A -> option B) l : (length (omap f l) <= length l)%nat.
Proof.
  induction l as [|x l IH]; [simpl; lia|]. cbn. destruct (f x); cbn; lia.
Qed.

(** X19: for a stored chain [getThinkingProgress] succeeds; the completed
    and the active thoughts together are at most the total, which is at
    most the length of the chain's thought list; [maxDepth] is at least 0
    and at least the depth of every thought of the chain; and when all
    stored confidences lie within [0, 1] so does the reported average,
    which is 0 for a chain without thoughts. *)
Theorem progress_is_bounded chainId s chain :
  chains s !! chainId = Some chain ->
  exists p, getThinkingProgress chainId s = Success p
    /\ (completedThoughts p + activeThoughts p <= totalThoughts p)%nat
    /\ (totalThoughts p <= length (ch_thoughts chain))%nat
    /\ 0 <= maxDepth p
    /\ (forall tid n, In tid (ch_thoughts chain) -> thoughts s !! tid = Some n ->
          th_reasoning_depth n <= maxDepth p)
    /\ (confidencesInRange s ->
          (0 <= averageConfidence p)%Q /\ (averageConfidence p <= 1)%Q)
    /\ (ch_thoughts chain = [] ->
          totalThoughts p = 0%nat /\ maxDepth p = 0
          /\ (averageConfidence p == 0)%Q).
Proof.
  intros Hc. unfold getThinkingProgress. rewrite Hc. eexists. split; [reflexivity|].
  cbn [completedThoughts activeThoughts totalThoughts maxDepth averageConfidence].
  split; [now apply two_statuses_bound|].
  split; [apply omap_shorter|].
  destruct (maxWithZero_bounds (map th_reasoning_depth (chainThoughts chain s)))
    as [Hm0 Hm].
  split; [exact Hm0|]. split; [|split].
  - intros tid n Hin Hn. apply Hm. apply in_map. apply list_elem_of_In.
    unfold chainThoughts. apply list_elem_of_omap. exists tid.
    split; [now apply list_elem_of_In|exact Hn].
  - intros Hrange.
    assert (Hall : Forall (fun n => (0 <= th_confidence n)%Q /\ (th_confidence n <= 1)%Q)
                          (chainThoughts chain s)).
    { apply List.Forall_forall. intros n Hn. apply list_elem_of_In in Hn.
      unfold chainThoughts in Hn. apply list_elem_of_omap in Hn as [tid [_ Hn]].
      now apply (Hrange tid). }
    destruct (sum_from_bounds _ 0%Q Hall) as [Hlo Hhi]. fold (sumConfidence (chainThoughts chain s)) in Hlo, Hhi.
    set (len := length (chainThoughts chain s)) in *.
    assert (Hpos : (0 < inject_Z (Z.of_nat (if (len =? 0)%nat then 1%nat else len)))%Q).
    { rewrite <- (Zlt_Qlt 0). destruct len; simpl; lia. }
    assert (Hle : (inject_Z (Z.of_nat len)
                   <= inject_Z (Z.of_nat (if (len =? 0)%nat then 1%nat else len)))%Q).
    { rewrite <- Zle_Qle. destruct len; simpl; lia. }
    split.
    + apply Qle_shift_div_l; [exact Hpos|]. lra.
    + apply Qle_shift_div_r; [exact Hpos|]. lra.
  - intros Hnil. unfold chainThoughts. rewrite Hnil. simpl. repeat split.
Qed.

Lemma progress_is_bounded_witness :
  exists p, getThinkingProgress Sample.idA Sample.trackerWithThought = Success p
            /\ (totalThoughts p <= 1)%nat.
Proof.
  destruct (progress_is_bounded Sample.idA Sample.trackerWithThought
              {| ch_id := Sample.idA; ch_goal := "find the cause";
                 ch_context := None; ch_created_at := Sample.t0;
                 ch_completed_at := None; ch_status := active;
                 ch_thoughts := [Sample.idB]; ch_branches := [];
                 ch_cognitive_mode := analytical |})
    as [p [Hp [_ [Ht _]]]].
  - vm_compute. reflexivity.
  - exists p. split; [exact Hp|exact Ht].
Defined.

Lemma completed_lookup_not_active ids (ths : gmap string ThoughtNode) l :
  (forall tid, In tid l -> In tid ids) ->
  countStatus th_active (omap (fun i => completeThoughts ids ths !! i) l) = 0%nat
  /\ length (omap (fun i => completeThoughts ids ths !! i) l)
     = length (omap (fun i => ths !! i) l).
Proof.
  unfold countStatus. induction l as [|tid l IH]; intros Hsub; [now split|].
  destruct IH as [IH1 IH2]; [intros x Hx; apply Hsub; now right|].
  cbn [omap list_omap]. rewrite completeThoughts_lookup.
  rewrite bool_decide_eq_true_2
    by (apply list_elem_of_In, Hsub; now left).
  destruct (ths !! tid) as [n|]; cbn [fmap option_fmap option_map]; [|now split].
  cbn [List.filter length]. split; [|now rewrite IH2].
  replace (bool_decide (th_status (completeIfActive n) = th_active)) with false;
    [exact IH1|].
  symmetry. apply bool_decide_eq_false_2. unfold completeIfActive.
  destruct (bool_decide_reflect (th_status n = th_active)); [discriminate|assumption].
Qed.

(** X20: right after a successful [completeThoughtProcess],
    [getThinkingProgress] of that chain reports no active thought, and the
    same total as before the completion. *)
Theorem no_active_thought_after_completion
    now uuidMem nowMem chainId conclusion s chain :
  chains s !! chainId = Some chain ->
  Js.isBlank conclusion = false ->
  let s' := snd (completeThoughtProcess now uuidMem nowMem chainId conclusion s) in
  exists before after,
    getThinkingProgress chainId s = Success before
    /\ getThinkingProgress chainId s' = Success after
    /\ activeThoughts after = 0%nat
    /\ totalThoughts after = totalThoughts before.
Proof.
  intros Hc Hb. cbv zeta. unfold completeThoughtProcess. rewrite Hc, Hb.
  cbn [snd]. unfold getThinkingProgress. cbn [chains].
  rewrite lookup_alter_eq, Hc. cbn [fmap option_fmap option_map].
  eexists _, _. split; [reflexivity|]. split; [reflexivity|].
  cbn [activeThoughts totalThoughts]. unfold chainThoughts.
  cbn [thoughts ch_thoughts chain_with_completed_at chain_with_status].
  apply completed_lookup_not_active. auto.
Qed.

Lemma no_active_thought_after_completion_witness :
  exists after,
    getThinkingProgress Sample.idA
      (snd (completeThoughtProcess Sample.t1 Sample.idD Sample.t1 Sample.idA "done"
              Sample.trackerWithThought)) = Success after
    /\ activeThoughts after = 0%nat.
Proof.
  destruct (no_active_thought_after_completion Sample.t1 Sample.idD Sample.t1
              Sample.idA "done" Sample.trackerWithThought
              {| ch_id := Sample.idA; ch_goal := "find the cause";
                 ch_context := None; ch_created_at := Sample.t0;
                 ch_completed_at := None; ch_status := active;
                 ch_thoughts := [Sample.idB]; ch_branches := [];
                 ch_cognitive_mode := analytical |})
    as [before [after [_ [Ha [H0 _]]]]].
  - vm_compute. reflexivity.
  - reflexivity.
  - exists after. split; [exact Ha|exact H0].
Defined.

Lemma status_counts_partition (cs : list ThoughtChain) :
  length cs = (countChainStatus active cs + countChainStatus completed cs
               + countChainStatus paused cs)%nat.
Proof.
  unfold countChainStatus. induction cs as [|c cs IH]; [reflexivity|].
  cbn [List.filter length].
  destruct (bool_decide_reflect (ch_status c = active)) as [Ha|Ha],
           (bool_decide_reflect (ch_status c = completed)) as [Hb|Hb],
           (bool_decide_reflect (ch_status c = paused)) as [Hp|Hp];
    cbn [length]; try lia; try congruence.
  destruct (ch_status c); congruence.
Qed.

Lemma modes_counted (cs : list ThoughtChain) (d : ModeDistribution) :
  let d' := fold_left bumpMode cs d in
  (md_analytical d' + md_intuitive d' + md_creative d' + md_critical d'
   + md_meta_cognitive d')%nat
  = (md_analytical d + md_intuitive d + md_creative d + md_critical d
     + md_meta_cognitive d + length cs)%nat.
Proof.
  cbv zeta. revert d. induction cs as [|c cs IH]; intros d; [simpl; lia|].
  cbn [fold_left length]. rewrite IH. unfold bumpMode.
  destruct (ch_cognitive_mode c); cbn; lia.
Qed.

(** X21: the figures of [getThinkingStats] add up: [totalChains] is the
    number of stored chains and [totalThoughts] the number of stored
    thoughts of all chains; the five counts of the mode distribution sum to
    [totalChains]; and [totalChains] is [activeChains] plus
    [completedChains] plus the number of paused chains, which the result
    does not report. *)
Theorem stats_add_up s :
  exists st, getThinkingStats s = Success st
    /\ totalChains st = size (chains s)
    /\ statsTotalThoughts st = size (thoughts s)
    /\ (md_analytical (modeDistribution st) + md_intuitive (modeDistribution st)
        + md_creative (modeDistribution st) + md_critical (modeDistribution st)
        + md_meta_cognitive (modeDistribution st))%nat = totalChains st
    /\ totalChains st
       = (activeChains st + completedChains st
          + countChainStatus paused (snd <$> map_to_list (chains s)))%nat.
Proof.
  unfold getThinkingStats, statsOf. eexists. split; [reflexivity|].
  cbn [totalChains statsTotalThoughts modeDistribution activeChains completedChains].
  split; [now rewrite length_fmap, length_map_to_list|].
  split; [reflexivity|]. split.
  - pose proof (modes_counted (snd <$> map_to_list (chains s)) noModes) as H.
    cbv zeta in H. rewrite H. reflexivity.
  - apply status_counts_partition.
Qed.

Lemma truthy_append (a b : string) c : Js.truthy (a +:+ String c b) = true.
Proof. now destruct a. Qed.

(** X22: pause annotations pile up.  [pauseThinking] on a stored chain
    always succeeds, sets the status to paused and appends a line break and
    "[Paused: <reason>]" to the context (to the empty string when there was
    none); [resumeThinking] puts the status back to active and keeps the
    annotation; a second pause appends a second annotation after the
    first. *)
Theorem pause_annotations_accumulate chainId reason1 reason2 s chain :
  chains s !! chainId = Some chain ->
  let mark r := newline +:+ "[Paused: " +:+ r +:+ "]" in
  let s1 := snd (pauseThinking chainId reason1 s) in
  let s2 := snd (resumeThinking chainId s1) in
  let s3 := snd (pauseThinking chainId reason2 s2) in
  fst (pauseThinking chainId reason1 s) = Success tt
  /\ fst (resumeThinking chainId s1) = Success tt
  /\ fst (pauseThinking chainId reason2 s2) = Success tt
  /\ (exists c1, chains s1 !! chainId = Some c1 /\ ch_status c1 = paused
         /\ ch_context c1 = Some (default "" (given (ch_context chain)) +:+ mark reason1))
  /\ (exists c2, chains s2 !! chainId = Some c2 /\ ch_status c2 = active
         /\ ch_context c2 = Some (default "" (given (ch_context chain)) +:+ mark reason1))
  /\ (exists c3, chains s3 !! chainId = Some c3 /\ ch_status c3 = paused
         /\ ch_context c3 =
              Some ((default "" (given (ch_context chain)) +:+ mark reason1)
                    +:+ mark reason2)).
Proof.
  intros Hc. cbv zeta.
  set (ctx1 := default "" (given (ch_context chain)) +:+ newline +:+
               "[Paused: " +:+ reason1 +:+ "]").
  set (c1 := chain_with_context ctx1 (chain_with_status paused chain)).
  assert (E1 : pauseThinking chainId reason1 s =
               (Success tt,
                {| chains := <[chainId := c1]> (chains s); thoughts := thoughts s;
                   longTermMemory := longTermMemory s;
                   currentMode := currentMode s |})).
  { unfold pauseThinking. rewrite Hc. do 2 f_equal.
    now rewrite (alter_alt_Some _ _ _ _ Hc). }
  rewrite E1. cbn [fst snd].
  assert (E2 : forall s1, chains s1 !! chainId = Some c1 ->
               resumeThinking chainId s1 =
               (Success tt,
                {| chains := <[chainId := chain_with_status active c1]> (chains s1);
                   thoughts := thoughts s1; longTermMemory := longTermMemory s1;
                   currentMode := currentMode s1 |})).
  { intros s1 H1. unfold resumeThinking. rewrite H1.
    rewrite bool_decide_eq_true_2 by reflexivity. cbn [negb]. do 2 f_equal.
    now rewrite (alter_alt_Some _ _ _ _ H1). }
  rewrite E2 by (cbn [chains]; apply lookup_insert_eq). cbn [fst snd chains].
  unfold pauseThinking. cbn [chains]. rewrite !lookup_insert_eq. cbn [fst snd chains].
  repeat split.
  - exists c1. repeat split.
  - eexists. repeat split.
  - eexists. rewrite lookup_alter_eq, lookup_insert_eq.
    cbn [fmap option_fmap option_map]. split; [reflexivity|]. split; [reflexivity|].
    assert (Htr : Js.truthy ctx1 = true)
      by (unfold ctx1, newline; apply truthy_append).
    unfold c1. cbn [ch_context chain_with_context chain_with_status given].
    now rewrite Htr.
Qed.

Lemma pause_annotations_accumulate_witness :
  ch_context <$>
    chains (snd (pauseThinking Sample.idA "lunch" Sample.trackerWithThought))
      !! Sample.idA
  = Some (Some ("" +:+ newline +:+ "[Paused: lunch]")).
Proof.
  destruct (pause_annotations_accumulate Sample.idA "lunch" "dinner"
              Sample.trackerWithThought
              {| ch_id := Sample.idA; ch_goal := "find the cause";
                 ch_context := None; ch_created_at := Sample.t0;
                 ch_completed_at := None; ch_status := active;
                 ch_thoughts := [Sample.idB]; ch_branches := [];
                 ch_cognitive_mode := analytical |})
    as [_ [_ [_ [[c1 [Hc1 [_ Hctx]]] _]]]].
  - vm_compute. reflexivity.
  - cbv zeta in Hc1. rewrite Hc1. simpl. now rewrite Hctx.
Defined.

End TrackerQueries.

(** * Loading, backups and the facade *)

Section StorageRoundTrips.
Import StorageManager.
Variable stringify : JsMap LongTermMemoryNode -> string.
Variable parse : string -> string + option (JsMap LongTermMemoryNode).
Variable enoent : string.

Local Abbreviation saveTo := (save stringify).
Local Abbreviation loadFrom := (load parse enoent).

Lemma isLocked_free now d :
  (forall l, lockFile d = Some l -> staleAfterMs < now - lock_mtimeMs l) ->
  isLocked now d = (false, removeLock d).
Proof.
  intros Hfree. unfold isLocked. destruct (lockFile d) as [l|] eqn:Hl.
  - specialize (Hfree l eq_refl).
    destruct (Z.ltb_spec staleAfterMs (now - lock_mtimeMs l)); [reflexivity|lia].
  - unfold removeLock, with_lock. destruct d; simpl in *. now subst.
Qed.

(** The disk a [save] leaves when no write fails and no live lock is in
    the way. *)
Lemma save_unhindered nowCheck nowLock snapshot sm d :
  (forall l, lockFile d = Some l -> staleAfterMs < nowCheck - lock_mtimeMs l) ->
  saveTo nowCheck nowLock noFaults snapshot sm d
  = (Success tt,
     {| memoryFile := Some (stringify snapshot);
        backupFile := if enableBackup sm
                      then match memoryFile d with
                           | Some old => Some old
                           | None => backupFile d
                           end
                      else backupFile d;
        lockFile := None |}).
Proof.
  intros Hfree. unfold save. rewrite (isLocked_free _ _ Hfree).
  unfold createLock, noFaults, backupExisting, removeLock, with_lock.
  destruct (enableBackup sm); cbn; [|reflexivity].
  now destruct (memoryFile d).
Qed.

Lemma load_primary sm d data g :
  memoryFile d = Some data -> parse data = inr (Some g) ->
  loadFrom sm d = Success g.
Proof. intros Hm Hp. unfold load, readGraph. now rewrite Hm, Hp. Qed.

Lemma load_backup sm d data msg bdata g :
  memoryFile d = Some data ->
  readGraph parse "Invalid memory file structure" data = inl msg ->
  enableBackup sm = true -> backupFile d = Some bdata ->
  parse bdata = inr (Some g) ->
  loadFrom sm d = Success g.
Proof.
  intros Hm Hr He Hb Hp. unfold load. rewrite Hm, Hr.
  unfold loadBackup, readGraph. now rewrite He, Hb, Hp.
Qed.

Lemma load_no_backup sm d data msg :
  memoryFile d = Some data ->
  readGraph parse "Invalid memory file structure" data = inl msg ->
  success (loadBackup parse enoent sm d) = false ->
  loadFrom sm d = Failure ("Failed to load memory: " +:+ msg).
Proof.
  intros Hm Hr Hb. unfold load. rewrite Hm, Hr.
  now destruct (loadBackup parse enoent sm d).
Qed.

(** X23: what [load] does when the primary file is there but does not read
    as a memory graph ([JSON.parse] throws, or [memories] is missing).
    With backups enabled and a backup file that reads as a graph, [load]
    succeeds with the backup's graph.  With backups disabled, or no backup
    file, or a backup that does not read either, it fails, and the error
    carries the message of the primary file's failure, not the backup's. *)
Theorem load_falls_back_to_backup sm d data msg :
  memoryFile d = Some data ->
  readGraph parse "Invalid memory file structure" data = inl msg ->
  (forall bdata g, enableBackup sm = true -> backupFile d = Some bdata ->
      parse bdata = inr (Some g) -> loadFrom sm d = Success g)
  /\ (enableBackup sm = false ->
      loadFrom sm d = Failure ("Failed to load memory: " +:+ msg))
  /\ (backupFile d = None ->
      loadFrom sm d = Failure ("Failed to load memory: " +:+ msg))
  /\ (forall bdata bmsg, backupFile d = Some bdata ->
      readGraph parse "Invalid backup file structure" bdata = inl bmsg ->
      loadFrom sm d = Failure ("Failed to load memory: " +:+ msg)).
Proof.
  intros Hm Hr. repeat split.
  - intros bdata g He Hb Hp. exact (load_backup _ _ _ _ _ _ Hm Hr He Hb Hp).
  - intros He. apply (load_no_backup _ _ _ _ Hm Hr).
    unfold loadBackup. now rewrite He.
  - intros Hb. apply (load_no_backup _ _ _ _ Hm Hr).
    unfold loadBackup. rewrite Hb. now destruct (enableBackup sm).
  - intros bdata bmsg Hb Hbr. apply (load_no_backup _ _ _ _ Hm Hr).
    unfold loadBackup. rewrite Hb, Hbr. now destruct (enableBackup sm).
Qed.

(** X24: what [save] writes, [load] reads back.  When no live lock is in
    the way and no write fails, [save] succeeds, and a [load] of the disk
    it leaves (by any manager, backups enabled or not) returns the saved
    node map, provided [JSON.parse] inverts [JSON.stringify] on it. *)
Theorem save_then_load nowCheck nowLock snapshot sm sm' d :
  (forall l, lockFile d = Some l -> staleAfterMs < nowCheck - lock_mtimeMs l) ->
  parse (stringify snapshot) = inr (Some snapshot) ->
  fst (saveTo nowCheck nowLock noFaults snapshot sm d) = Success tt
  /\ loadFrom sm' (snd (saveTo nowCheck nowLock noFaults snapshot sm d))
     = Success snapshot.
Proof.
  intros Hfree Hp. rewrite (save_unhindered _ _ _ _ _ Hfree). split; [reflexivity|].
  now apply (load_primary _ _ (stringify snapshot)).
Qed.

(** X25: the backup is one save behind.  With backups enabled, after two
    unhindered saves the backup file holds what the first one wrote; if the
    primary file is then damaged so that it no longer reads as a graph,
    [load] returns the node map of the first save. *)
Theorem backup_keeps_previous_save now1 now2 now3 now4 m1 m2 sm d damaged msg :
  enableBackup sm = true -> lockFile d = None ->
  parse (stringify m1) = inr (Some m1) ->
  readGraph parse "Invalid memory file structure" damaged = inl msg ->
  let d1 := snd (saveTo now1 now2 noFaults m1 sm d) in
  let d2 := snd (saveTo now3 now4 noFaults m2 sm d1) in
  memoryFile d2 = Some (stringify m2)
  /\ backupFile d2 = Some (stringify m1)
  /\ loadFrom sm {| memoryFile := Some damaged; backupFile := backupFile d2;
                    lockFile := lockFile d2 |} = Success m1.
Proof.
  intros He Hl Hp Hr. cbv zeta.
  rewrite (save_unhindered now1 now2 m1 sm d) by (intros l; rewrite Hl; discriminate).
  cbn [snd]. rewrite save_unhindered by (intros l; cbn [lockFile]; discriminate).
  cbn [snd memoryFile backupFile lockFile]. rewrite He.
  split; [reflexivity|]. split; [reflexivity|].
  now apply (load_backup _ _ damaged msg (stringify m1)).
Qed.

End StorageRoundTrips.

Lemma load_falls_back_to_backup_witness :
  StorageManager.load Sample.readCount Sample.noSuchFile Sample.manager
    {| StorageManager.memoryFile := Some "old";
       StorageManager.backupFile := Some "{...}";
       StorageManager.lockFile := None |}
  = Success (LongTermMemory.nodes Sample.line).
Proof.
  refine (proj1 (load_falls_back_to_backup Sample.readCount Sample.noSuchFile
                   Sample.manager _ "old" "Unexpected token" _ _)
            "{...}" _ _ _ _); reflexivity.
Defined.

Lemma save_then_load_witness :
  StorageManager.load Sample.readCount Sample.noSuchFile Sample.manager
    (snd (StorageManager.save Sample.countNodes 1700000000000 1700000000001
            StorageManager.noFaults (LongTermMemory.nodes Sample.line)
            Sample.manager Sample.disk0))
  = Success (LongTermMemory.nodes Sample.line).
Proof.
  apply (save_then_load Sample.countNodes Sample.readCount Sample.noSuchFile).
  - intros l Hl. discriminate Hl.
  - reflexivity.
Defined.

Lemma backup_keeps_previous_save_witness :
  StorageManager.load Sample.readCount Sample.noSuchFile Sample.manager
    {| StorageManager.memoryFile := Some "old";
       StorageManager.backupFile := Some (Sample.countNodes (LongTermMemory.nodes Sample.line));
       StorageManager.lockFile := None |}
  = Success (LongTermMemory.nodes Sample.line).
Proof.
  pose proof (backup_keeps_previous_save Sample.countNodes Sample.readCount
                Sample.noSuchFile 1 2 3 4 (LongTermMemory.nodes Sample.line) []
                Sample.manager Sample.disk0 "old" "Unexpected token"
                eq_refl eq_refl eq_refl eq_refl) as H.
  cbv zeta in H. destruct H as [_ [_ H]]. exact H.
Defined.

Section FacadeFacts.
Import StorageManager.
Variable stringify : JsMap LongTermMemoryNode -> string.
Variable parse : string -> string + option (JsMap LongTermMemoryNode).
Variable enoent : string.

Local Abbreviation saveAll := (BrainMCP.save stringify).
Local Abbreviation shutdownAll := (BrainMCP.shutdown stringify).
Local Abbreviation initWith := (BrainMCP.init parse enoent).
(** [init] when the storage directory is there or can be created. *)
Local Abbreviation initFrom := (BrainMCP.init parse enoent None).
Local Abbreviation ltm := BrainMCP.longTermMemory.

(** The three ways a facade [save] can end. *)
Lemma facade_save_cases nowCheck nowLock io b d :
  (BrainMCP.initialized b = false
   /\ saveAll nowCheck nowLock io b d
      = (Failure "Memory system not initialized", b, d))
  \/ (BrainMCP.initialized b = true
      /\ LongTermMemory.checkIsDirty (ltm b) = false
      /\ saveAll nowCheck nowLock io b d = (Success tt, b, d))
  \/ (BrainMCP.initialized b = true
      /\ LongTermMemory.checkIsDirty (ltm b) = true
      /\ let r := save stringify nowCheck nowLock io
                    (LongTermMemory.getAllNodes (ltm b)) (BrainMCP.storage b) d in
         saveAll nowCheck nowLock io b d
         = (fst r,
            if success (fst r)
            then BrainMCP.withLongTermMemory (LongTermMemory.markClean (ltm b)) b
            else b,
            snd r)).
Proof.
  unfold BrainMCP.save.
  destruct (BrainMCP.initialized b); [|left; now split].
  destruct (LongTermMemory.checkIsDirty (ltm b)); cbn [negb]; right;
    [right|left; now split].
  repeat split. cbv zeta.
  destruct (save stringify nowCheck nowLock io _ _ d) as [r d']. cbn [fst snd].
  now destruct (success r).
Qed.

(** X26: a successful facade [save] leaves the long-term memory clean and
    its nodes as they were, and the facade initialised; so a [save] issued
    right after it, whatever the disk then holds, succeeds without touching
    the disk or the state. *)
Theorem successful_save_is_not_repeated nowCheck nowLock io b d :
  success (fst (fst (saveAll nowCheck nowLock io b d))) = true ->
  let b1 := snd (fst (saveAll nowCheck nowLock io b d)) in
  LongTermMemory.checkIsDirty (ltm b1) = false
  /\ LongTermMemory.getAllNodes (ltm b1) = LongTermMemory.getAllNodes (ltm b)
  /\ BrainMCP.initialized b1 = true
  /\ (forall nowCheck' nowLock' io' d',
        saveAll nowCheck' nowLock' io' b1 d' = (Success tt, b1, d')).
Proof.
  intros Hok. cbv zeta.
  assert (Hclean : LongTermMemory.checkIsDirty
                     (ltm (snd (fst (saveAll nowCheck nowLock io b d)))) = false
                   /\ LongTermMemory.getAllNodes
                        (ltm (snd (fst (saveAll nowCheck nowLock io b d))))
                      = LongTermMemory.getAllNodes (ltm b)
                   /\ BrainMCP.initialized
                        (snd (fst (saveAll nowCheck nowLock io b d))) = true).
  { destruct (facade_save_cases nowCheck nowLock io b d)
      as [[_ E]|[(Hi & Hd & E)|(Hi & Hd & E)]].
    - rewrite E in Hok. discriminate Hok.
    - rewrite E. cbn [fst snd]. now repeat split.
    - cbv zeta in E. rewrite E in Hok |- *. cbn [fst snd] in Hok |- *.
      rewrite Hok. now repeat split. }
  destruct Hclean as (Hd & Hn & Hi). repeat split; try assumption.
  intros nowCheck' nowLock' io' d'.
  destruct (facade_save_cases nowCheck' nowLock' io'
              (snd (fst (saveAll nowCheck nowLock io b d))) d')
    as [[Hi' _]|[(_ & _ & E)|(_ & Hd' & _)]]; [congruence|exact E|congruence].
Qed.

(** X27: [shutdown] does not report a rejected save.  On an initialised
    facade with unsaved changes, facing a lock file younger than five
    minutes, [shutdown] still answers success: the primary and backup
    files are as they were, the changes are still only in memory (the flag
    is still set), the facade is no longer initialised, its timer is
    cleared, and the lock file, which this facade did not create, has been
    removed. *)
Theorem shutdown_hides_rejected_save nowCheck nowLock io b d l :
  BrainMCP.initialized b = true ->
  LongTermMemory.checkIsDirty (ltm b) = true ->
  lockFile d = Some l -> nowCheck - lock_mtimeMs l <= staleAfterMs ->
  let r := shutdownAll nowCheck nowLock io b d in
  fst (fst r) = Success tt
  /\ memoryFile (snd r) = memoryFile d
  /\ backupFile (snd r) = backupFile d
  /\ lockFile (snd r) = None
  /\ ltm (snd (fst r)) = ltm b
  /\ BrainMCP.initialized (snd (fst r)) = false
  /\ autoSaveTimer (BrainMCP.storage (snd (fst r))) = None.
Proof.
  intros Hi Hd Hl Hage. cbv zeta. unfold BrainMCP.shutdown, BrainMCP.save.
  rewrite Hi, Hd. cbn [negb]. unfold save.
  rewrite (isLocked_fresh _ _ _ Hl Hage). cbn [success fst snd cleanup].
  now repeat split.
Qed.

(** X28: a restart brings the memory back.  An initialised facade with
    unsaved changes is shut down with no live lock in the way and no write
    failing; a facade not yet initialised then runs [init] on the disk
    left behind.  [init] succeeds, the new facade holds the same node map,
    clean, is initialised, and its auto-save timer runs at its configured
    interval.  The node map has no duplicate keys and [JSON.parse] inverts
    [JSON.stringify] on it; the storage directory, which holds the file
    just written, is there for [storage.init()]. *)
Theorem restart_restores_memory nowCheck nowLock b d fresh :
  BrainMCP.initialized b = true ->
  LongTermMemory.checkIsDirty (ltm b) = true ->
  (forall l, lockFile d = Some l -> staleAfterMs < nowCheck - lock_mtimeMs l) ->
  map_wf (LongTermMemory.nodes (ltm b)) ->
  parse (stringify (LongTermMemory.nodes (ltm b)))
  = inr (Some (LongTermMemory.nodes (ltm b))) ->
  BrainMCP.initialized fresh = false ->
  let d' := snd (shutdownAll nowCheck nowLock noFaults b d) in
  fst (initFrom fresh d') = Success tt
  /\ LongTermMemory.nodes (ltm (snd (initFrom fresh d')))
     = LongTermMemory.nodes (ltm b)
  /\ LongTermMemory.checkIsDirty (ltm (snd (initFrom fresh d'))) = false
  /\ BrainMCP.initialized (snd (initFrom fresh d')) = true
  /\ autoSaveTimer (BrainMCP.storage (snd (initFrom fresh d')))
     = Some (autoSaveInterval (BrainMCP.config fresh)).
Proof.
  intros Hi Hd Hfree Hwf Hp Hf. cbv zeta.
  unfold BrainMCP.shutdown, BrainMCP.save. rewrite Hi, Hd. cbn [negb].
  unfold LongTermMemory.getAllNodes.
  rewrite (save_unhindered stringify _ _ _ _ _ Hfree).
  cbn [success fst snd cleanup removeLock with_lock memoryFile backupFile lockFile].
  unfold BrainMCP.init. rewrite Hf. cbn [StorageManager.init].
  erewrite load_primary; [|reflexivity|exact Hp].
  cbn [fst snd]. unfold LongTermMemory.loadNodes.
  cbn [snd BrainMCP.longTermMemory BrainMCP.withStorage BrainMCP.withLongTermMemory
       BrainMCP.thinkingProcess ThinkingProcess.longTermMemory
       LongTermMemory.nodes LongTermMemory.checkIsDirty LongTermMemory.isDirty
       BrainMCP.initialized BrainMCP.storage BrainMCP.config startAutoSave
       autoSaveTimer].
  rewrite (loaded_entries _ []) by exact Hwf. now repeat split.
Qed.

(** X29: a missing primary file means an empty memory, backup or not.  On
    a disk without the primary file, [init] of a facade not yet
    initialised depends on [storage.init()] alone.  When its [mkdir]
    fails, [init] returns that failure, "Failed to initialize storage: "
    and the message, and leaves the facade as it was.  When the directory
    is there or is created, [init] succeeds and the long-term memory holds
    no node and is clean, even if a backup file with a readable graph is
    there; a second [init] is then refused, whatever [mkdir] would do, and
    changes nothing. *)
Theorem init_without_primary_starts_empty b d :
  BrainMCP.initialized b = false ->
  memoryFile d = None ->
  (forall msg,
     initWith (Some msg) b d
     = (Failure ("Failed to initialize storage: " +:+ msg), b))
  /\ fst (initFrom b d) = Success tt
  /\ LongTermMemory.getCount (ltm (snd (initFrom b d))) = 0%nat
  /\ LongTermMemory.checkIsDirty (ltm (snd (initFrom b d))) = false
  /\ (forall mkdir d', initWith mkdir (snd (initFrom b d)) d'
                       = (Failure "Memory system already initialized",
                          snd (initFrom b d))).
Proof.
  intros Hf Hm. split.
  { intros msg. unfold BrainMCP.init. now rewrite Hf. }
  assert (E : initFrom b d
              = (Success tt,
                 BrainMCP.withStorage
                   (startAutoSave (autoSaveInterval (BrainMCP.config b))
                      (BrainMCP.storage b))
                   true
                   (BrainMCP.withLongTermMemory
                      (snd (LongTermMemory.loadNodes [] (ltm b))) b))).
  { unfold BrainMCP.init. rewrite Hf. cbn [StorageManager.init].
    unfold load. now rewrite Hm. }
  rewrite E. cbn [fst snd]. repeat split.
Qed.

(** X30: a failed [init] never leads to a write.  When the primary file
    does not read as a graph and the backup gives nothing either, [init]
    fails with the primary file's error and leaves the facade as it was,
    not initialised; every [save] of that facade is then refused with
    "Memory system not initialized" and leaves the disk, the unreadable
    file included, untouched.  The storage directory, which holds the
    primary file, is there for [storage.init()]. *)
Theorem failed_init_never_writes b d data msg :
  BrainMCP.initialized b = false ->
  memoryFile d = Some data ->
  readGraph parse "Invalid memory file structure" data = inl msg ->
  success (loadBackup parse enoent (BrainMCP.storage b) d) = false ->
  initFrom b d = (Failure ("Failed to load memory: " +:+ msg), b)
  /\ (forall nowCheck nowLock io d',
        saveAll nowCheck nowLock io (snd (initFrom b d)) d'
        = (Failure "Memory system not initialized", snd (initFrom b d), d')).
Proof.
  intros Hf Hm Hr Hb.
  assert (E : initFrom b d = (Failure ("Failed to load memory: " +:+ msg), b)).
  { unfold BrainMCP.init. rewrite Hf. cbn [StorageManager.init].
    now rewrite (load_no_backup parse enoent _ _ _ _ Hm Hr Hb). }
  rewrite E. split; [reflexivity|]. intros nowCheck nowLock io d'. cbn [snd].
  unfold BrainMCP.save. now rewrite Hf.
Qed.

End FacadeFacts.

Lemma successful_save_is_not_repeated_witness :
  let b1 := snd (fst (BrainMCP.save Sample.countNodes 10 11 StorageManager.noFaults
                        Sample.brainOverLine Sample.disk0)) in
  StorageManager.memoryFile Sample.emptyDisk = None
  /\ BrainMCP.save Sample.countNodes 20 21 StorageManager.noFaults b1 Sample.emptyDisk
     = (Success tt, b1, Sample.emptyDisk).
Proof.
  cbv zeta. split; [reflexivity|].
  pose proof (successful_save_is_not_repeated Sample.countNodes 10 11
                StorageManager.noFaults Sample.brainOverLine Sample.disk0 eq_refl)
    as H.
  cbv zeta in H. destruct H as (_ & _ & _ & H). apply H.
Defined.

(** A lock written one minute before the shutdown. *)
Lemma shutdown_hides_rejected_save_witness :
  let r := BrainMCP.shutdown Sample.countNodes 1700000000000 1700000000001
             StorageManager.noFaults Sample.brainOverLine
             (Sample.lockedAt (1700000000000 - 60 * 1000)) in
  fst (fst r) = Success tt
  /\ StorageManager.memoryFile (snd r) = Some "old"
  /\ StorageManager.lockFile (snd r) = None
  /\ LongTermMemory.checkIsDirty (BrainMCP.longTermMemory (snd (fst r))) = true.
Proof.
  cbv zeta.
  assert (Hage : 1700000000000 - (1700000000000 - 60 * 1000)
                 <= StorageManager.staleAfterMs)
    by (unfold StorageManager.staleAfterMs; lia).
  pose proof (shutdown_hides_rejected_save Sample.countNodes 1700000000000
                1700000000001 StorageManager.noFaults Sample.brainOverLine
                (Sample.lockedAt (1700000000000 - 60 * 1000))
                {| StorageManager.lock_content := 1700000000000 - 60 * 1000;
                   StorageManager.lock_mtimeMs := 1700000000000 - 60 * 1000 |}
                eq_refl eq_refl eq_refl Hage) as H.
  cbv zeta in H. destruct H as (H1 & H2 & _ & H4 & H5 & _).
  rewrite H1, H2, H4, H5. repeat split.
Defined.

Lemma restart_restores_memory_witness :
  let d' := snd (BrainMCP.shutdown Sample.countNodes 10 11 StorageManager.noFaults
                   Sample.brainOverLine Sample.disk0) in
  LongTermMemory.nodes
    (BrainMCP.longTermMemory
       (snd (BrainMCP.init Sample.readCount Sample.noSuchFile None Sample.freshBrain d')))
  = LongTermMemory.nodes Sample.line.
Proof.
  cbv zeta.
  assert (Hwf : map_wf (LongTermMemory.nodes
                          (BrainMCP.longTermMemory Sample.brainOverLine)))
    by (unfold map_wf; apply (bool_decide_unpack _); vm_compute; exact I).
  assert (Hfree : forall l, StorageManager.lockFile Sample.disk0 = Some l ->
                   StorageManager.staleAfterMs < 10 - StorageManager.lock_mtimeMs l)
    by (intros l Hl; discriminate Hl).
  pose proof (restart_restores_memory Sample.countNodes Sample.readCount
                Sample.noSuchFile 10 11 Sample.brainOverLine Sample.disk0
                Sample.freshBrain eq_refl eq_refl Hfree Hwf eq_refl eq_refl) as H.
  cbv zeta in H. destruct H as (_ & H & _). exact H.
Defined.

Lemma init_without_primary_starts_empty_witness :
  StorageManager.backupFile Sample.backupOnly = Some "{...}"
  /\ LongTermMemory.getCount
       (BrainMCP.longTermMemory
          (snd (BrainMCP.init Sample.readCount Sample.noSuchFile None Sample.freshBrain
                  Sample.backupOnly))) = 0%nat.
Proof.
  split; [reflexivity|].
  apply (init_without_primary_starts_empty Sample.readCount Sample.noSuchFile
           Sample.freshBrain Sample.backupOnly); reflexivity.
Defined.

Lemma failed_init_never_writes_witness :
  BrainMCP.init Sample.readCount Sample.noSuchFile None Sample.freshBrain Sample.disk0
  = (Failure "Failed to load memory: Unexpected token", Sample.freshBrain).
Proof.
  apply (failed_init_never_writes Sample.countNodes Sample.readCount
           Sample.noSuchFile Sample.freshBrain Sample.disk0 "old"
           "Unexpected token"); reflexivity.
Defined.
